(** * momentli-pdf-merge: the incremental PDF merge service

    A shallow embedding of the two source files of the service and the
    properties of its merge and delivery pipeline.

    - [IndexJs] embeds [src/index.js] (the first version: one [/merge]
      route, the merge written inline, every downloaded buffer
      zero-filled right after it has been parsed).
    - [Service] embeds the second source file (version 2.1.0: the
      [checkAuth] middleware, [/merge], [/merge-and-upload], and the shared
      helpers [mergeBatches] and [downloadBatch]).

    The collaborators the code calls (Supabase storage, pdf-lib's parser
    and serializer, basic-ftp, Node's [Buffer.from]) are not part of the
    repository: they are the fields of a [Platform] record, over an
    arbitrary collaborator state [W], and every theorem holds for every
    platform.  Each handler is a function of the request in a monad that
    threads the collaborator state, the trace of collaborator calls, and
    the store of buffers and parsed documents, and in which a JavaScript
    exception is an outcome that keeps the state reached so far.

    pdf-lib does not copy what it parses: the pages of a parsed document
    view the memory of the buffer they were parsed from (the comments of
    [mergeBatches] say as much), so overwriting a buffer changes what is
    read of the pages that view it; [pdf_wiped] is what is read then.

    [console.log] only writes to stdout; what is kept of it is the
    evaluation of the request values it interpolates, which can throw.
    [console.warn] and [console.error] are events of the trace. *)

From Stdlib Require Import Init.Byte.
From stdpp Require Import base list strings gmap.

Local Open Scope string_scope.
Local Open Scope nat_scope.
Local Open Scope list_scope.
#[local] Set Warnings "-register-all".

Abbreviation bytes := (list byte).

(** ** JavaScript values of a parsed JSON request body *)

Module JS.

(** A JSON number is kept as the text JavaScript prints for it ([String(n)]),
    which is all the code does with one; zero and minus zero both print
    as [0]. *)
Inductive value : Type :=
| Undefined
| Null
| Bool (b : bool)
| Num (repr : string)
| Str (s : string)
| Arr (elems : list value)
| Obj (fields : list (string * value)).

(** [!v] is [negb (truthy v)]. *)
Definition truthy (v : value) : bool :=
  match v with
  | Undefined | Null => false
  | Bool b => b
  | Num r => negb (String.eqb r "0")
  | Str s => negb (String.eqb s "")
  | Arr _ | Obj _ => true
  end.

Definition isArray (v : value) : bool :=
  match v with Arr _ => true | _ => false end.

(** [v[k]] on a value that is not [null] or [undefined].  The keys of an
    object are distinct; the lookup stops at the first binding. *)
Fixpoint assoc (k : string) (fs : list (string * value)) : value :=
  match fs with
  | [] => Undefined
  | (k', v) :: fs' => if String.eqb k k' then v else assoc k fs'
  end.

Definition get (v : value) (k : string) : value :=
  match v with
  | Obj fs => assoc k fs
  | _ => Undefined
  end.

Fixpoint has_key (k : string) (fs : list (string * value)) : bool :=
  match fs with
  | [] => false
  | (k', _) :: fs' => String.eqb k k' || has_key k fs'
  end.

(** [`${v}`]: the string conversion of a template literal.  [None] is the
    [TypeError] of an object whose own [toString] entry shadows
    [Object.prototype.toString] (no JSON value is callable).  An array
    joins its elements with commas, [null] and [undefined] elements
    printing as nothing. *)
Fixpoint toString (v : value) : option string :=
  match v with
  | Undefined => Some "undefined"
  | Null => Some "null"
  | Bool true => Some "true"
  | Bool false => Some "false"
  | Num r => Some r
  | Str s => Some s
  | Arr l =>
      let element x :=
        match x with
        | Undefined | Null => Some ""
        | _ => toString x
        end in
      (fix join (l : list value) : option string :=
         match l with
         | [] => Some ""
         | [x] => element x
         | x :: l' =>
             match element x, join l' with
             | Some s, Some t => Some (s +:+ "," +:+ t)
             | _, _ => None
             end
         end) l
  | Obj fs => if has_key "toString" fs then None else Some "[object Object]"
  end.

End JS.

Import JS.

(** ** Exceptions and outcomes *)

Record exn : Type := Exn { exn_name : string; exn_message : string }.

(** [new Error(msg)] *)
Definition Error (msg : string) : exn := Exn "Error" msg.

Definition TypeError (msg : string) : exn := Exn "TypeError" msg.

(** [String(err)] for an error object: [Error.prototype.toString]. *)
Definition String_of_exn (e : exn) : string :=
  if String.eqb (exn_message e) "" then exn_name e
  else if String.eqb (exn_name e) "" then exn_message e
  else exn_name e +:+ ": " +:+ exn_message e.

(** [err.message || String(err)] *)
Definition message_or_string (e : exn) : string :=
  if String.eqb (exn_message e) "" then String_of_exn e else exn_message e.

Inductive outcome (A : Type) : Type :=
| Returned (a : A)
| Threw (e : exn).
Arguments Returned {A} a.
Arguments Threw {A} e.

Definition outcome_map {A B} (f : A → B) (r : outcome A) : outcome B :=
  match r with
  | Returned a => Returned (f a)
  | Threw e => Threw e
  end.

(** ** The collaborators *)

(** What [await supabase.storage.from(..).download(path)] resolves to:
    the object [{ data, error }]. *)
Record download_result : Type :=
  DownloadResult { data : option bytes; error : option string }.

(** A [{ error }] result carries the message of the error object, if any. *)
Definition error_result := option string.

Record Platform (W Page : Type) : Type := {
  (** [process.env.MERGE_API_SECRET] *)
  MERGE_API_SECRET : option string;
  (** [createClient(SUPABASE_URL, SUPABASE_SERVICE_ROLE_KEY)] *)
  createClient : outcome unit;
  (** [supabase.storage.from("print-queue").download(path)] *)
  storage_download : value → W → W * outcome download_result;
  (** [supabase.storage.from("print-queue").upload(path, body,
      { contentType: "application/pdf", upsert })] *)
  storage_upload : string → bytes → bool → W → W * outcome error_result;
  (** [supabase.storage.from("print-queue").remove(paths)] *)
  storage_remove : list value → W → W * outcome error_result;
  (** [PDFDocument.load(buffer)]: the pages of the parsed document *)
  pdf_load : bytes → outcome (list Page);
  (** [pdfDoc.save()] *)
  pdf_save : list Page → outcome bytes;
  (** What pdf-lib reads of a page once the memory it views has been
      overwritten with zeros: a document parsed from a [Buffer] keeps views
      into the memory of that buffer. *)
  pdf_wiped : Page → Page;
  (** [client.access({ host, user, password, secure: false })] *)
  ftp_access : value → value → value → W → W * outcome unit;
  (** [client.uploadFrom(Readable.from(buffer), remoteName)] *)
  ftp_uploadFrom : bytes → value → W → W * outcome unit;
  (** [client.close()] *)
  ftp_close : W → W;
  (** [Buffer.from(v, "utf-8")] *)
  Buffer_from_utf8 : value → outcome bytes;
}.
Arguments MERGE_API_SECRET {W Page}.
Arguments createClient {W Page}.
Arguments storage_download {W Page}.
Arguments storage_upload {W Page}.
Arguments storage_remove {W Page}.
Arguments pdf_load {W Page}.
Arguments pdf_save {W Page}.
Arguments pdf_wiped {W Page}.
Arguments ftp_access {W Page}.
Arguments ftp_uploadFrom {W Page}.
Arguments ftp_close {W Page}.
Arguments Buffer_from_utf8 {W Page}.

(** ** Events, the object store and the state of a run *)

Inductive event (Page : Type) : Type :=
| Download (path : value) (r : outcome download_result)
| Load (raw : bytes) (r : outcome (list Page))
| Save (pages : list Page) (r : outcome bytes)
| Upload (path : string) (body : bytes) (upsert : bool) (r : outcome error_result)
| Remove (paths : list value) (r : outcome error_result)
| FtpAccess (host user password : value) (r : outcome unit)
| FtpUploadFrom (body : bytes) (remote : value) (r : outcome unit)
| FtpClose
| ConsoleWarn (label msg : string)
| ConsoleError (label : string) (e : exn).
Arguments Download {Page}.
Arguments Load {Page}.
Arguments Save {Page}.
Arguments Upload {Page}.
Arguments Remove {Page}.
Arguments FtpAccess {Page}.
Arguments FtpUploadFrom {Page}.
Arguments FtpClose {Page}.
Arguments ConsoleWarn {Page}.
Arguments ConsoleError {Page}.

Abbreviation handle := nat.

(** A page of a parsed document: what pdf-lib reads of it, and the buffer
    whose memory it views. *)
Record view (Page : Type) : Type := View { content : Page; backing : handle }.
Arguments View {Page}.
Arguments content {Page}.
Arguments backing {Page}.

(** A parsed document: its pages, in order, and the buffer it was parsed
    from. *)
Record document (Page : Type) : Type :=
  Document { pages : list (view Page); source : handle }.
Arguments Document {Page}.
Arguments pages {Page}.
Arguments source {Page}.

(** The buffers that were downloaded and the documents that were parsed.
    Neither file has a statement that frees a buffer or a source document,
    and what the garbage collector reclaims is not modelled: a buffer
    stays, and a document stays until its binding is assigned [null]. *)
Record memory (Page : Type) : Type := Memory {
  buffers : gmap handle bytes;
  documents : gmap handle (document Page);
  next : handle;
}.
Arguments Memory {Page}.
Arguments buffers {Page}.
Arguments documents {Page}.
Arguments next {Page}.

Record state (W Page : Type) : Type := State {
  world : W;
  trace : list (event Page);
  heap : memory Page;
  (** the store after every allocation, every overwrite of a buffer and
      every assignment of [null] *)
  history : list (memory Page);
}.
Arguments State {W Page}.
Arguments world {W Page}.
Arguments trace {W Page}.
Arguments heap {W Page}.
Arguments history {W Page}.

Definition empty_memory {Page} : memory Page := Memory ∅ ∅ 0.

(** Every request starts with nothing resident and nothing done. *)
Definition start {W Page} (w : W) : state W Page := State w [] empty_memory [].

(** ** The monad of handlers *)

Section Monad.
Context {W Page : Type}.

Definition M (A : Type) : Type := state W Page → state W Page * outcome A.

Definition ret {A} (a : A) : M A := λ s, (s, Returned a).

Definition bind {A B} (m : M A) (f : A → M B) : M B :=
  λ s, match m s with
       | (s', Returned a) => f a s'
       | (s', Threw e) => (s', Threw e)
       end.

Definition throw {A} (e : exn) : M A := λ s, (s, Threw e).

(** [try { m } catch (err) { h err }] *)
Definition try_catch {A} (m : M A) (h : exn → M A) : M A :=
  λ s, match m s with
       | (s', Returned a) => (s', Returned a)
       | (s', Threw e) => h e s'
       end.

(** The outcome of a pure function of a library. *)
Definition eval {A} (r : outcome A) : M A := λ s, (s, r).

Definition emit (e : event Page) : M unit :=
  λ s, (State (world s) (trace s ++ [e]) (heap s) (history s), Returned ()).

(** A call to a collaborator that reads or changes its state. *)
Definition call {A} (op : W → W * outcome A) (ev : outcome A → event Page) : M A :=
  λ s, let '(w', r) := op (world s) in
       (State w' (trace s ++ [ev r]) (heap s) (history s), r).

Definition get_heap : M (memory Page) := λ s, (s, Returned (heap s)).

Definition set_heap (m : memory Page) : M unit :=
  λ s, (State (world s) (trace s) m (history s ++ [m]), Returned ()).

(** A change inside an object that stays where it is. *)
Definition mutate_heap (m : memory Page) : M unit :=
  λ s, (State (world s) (trace s) m (history s), Returned ()).

(** [for (const x of l) body(x)] *)
Fixpoint for_each {A} (l : list A) (body : A → M unit) : M unit :=
  match l with
  | [] => ret ()
  | x :: l' => bind (body x) (λ _, for_each l' body)
  end.

End Monad.
Arguments M : clear implicits.

#[global] Instance M_ret {W Page} : MRet (M W Page) := λ A, ret.
#[global] Instance M_bind {W Page} : MBind (M W Page) := λ A B f m, bind m f.

(** ** The request and the response *)

(** [req.headers["x-api-secret"]] and the members of the JSON object that
    [express.json()] left in [req.body]. *)
Record request : Type := Request {
  x_api_secret : option string;
  body : list (string * value);
}.

Inductive json_body : Type :=
| ErrorBody (error : string)
| MergedBody (storagePath : string) (size pages : nat)
| DeliveredBody (size pages : nat) (ftpUploaded : bool)
    (pdfFilename xmlFilename : value).

(** [res.status(n).json(b)]; [res.json(b)] has status 200. *)
Record response : Type := Response { status : nat; payload : json_body }.

(** What [mergeBatches] returns: [{ mergedBytes, pageCount }]. *)
Record artifact : Type := Artifact { mergedBytes : bytes; pageCount : nat }.

(** ** Primitive steps: the store, pdf-lib's document API, templates *)

Section Operations.
Context {W Page : Type} (P : Platform W Page).
Local Abbreviation M := (M W Page).

Definition not_primitive : exn :=
  TypeError "Cannot convert object to primitive value".

Definition null_reference : exn :=
  TypeError "Cannot read properties of null".

(** [`${v}`] *)
Definition to_string (v : value) : M string :=
  match toString v with
  | Some s => ret s
  | None => throw not_primitive
  end.

(** [console.log] of a template literal that interpolates [vs]. *)
Definition console_log (vs : list value) : M unit :=
  for_each vs (λ v, _ ← to_string v; ret ()).

(** A call to a pure function of a library. *)
Definition call_pure {A} (r : outcome A) (ev : outcome A → event Page) : M A :=
  _ ← emit (ev r); eval r.

(** [a[i]] *)
Definition item (a : list value) (i : nat) : value := default Undefined (a !! i).

(** [a.length] and the elements of an array value *)
Definition elements (v : value) : list value :=
  match v with Arr l => l | _ => [] end.

(** A new [Buffer] holding [b]. *)
Definition alloc_buffer (b : bytes) : M handle :=
  m ← get_heap;
  _ ← set_heap (Memory (<[next m := b]> (buffers m)) (documents m) (S (next m)));
  ret (next m).

Definition alloc_document (d : document Page) : M handle :=
  m ← get_heap;
  _ ← set_heap (Memory (buffers m) (<[next m := d]> (documents m)) (S (next m)));
  ret (next m).

(** The one binding of the document is assigned [null]. *)
Definition release_document (h : handle) : M unit :=
  m ← get_heap;
  set_heap (Memory (buffers m) (delete h (documents m)) (next m)).

Definition read_buffer (h : handle) : M bytes :=
  m ← get_heap;
  match buffers m !! h with
  | Some b => ret b
  | None => throw null_reference
  end.

Definition read_document (h : handle) : M (document Page) :=
  m ← get_heap;
  match documents m !! h with
  | Some d => ret d
  | None => throw null_reference
  end.

(** A page after the memory of buffer [h] has been overwritten with zeros. *)
Definition wiped_view (h : handle) (v : view Page) : view Page :=
  if decide (backing v = h) then View (pdf_wiped P (content v)) h else v.

Definition wiped (h : handle) (d : document Page) : document Page :=
  Document (wiped_view h <$> pages d) (source d).

(** [buffer.fill(0)]: every byte of the buffer is overwritten in place; the
    buffer object stays, and every page that views its memory, in whatever
    document, is read through the zeros from then on. *)
Definition fill0 (h : handle) : M unit :=
  b ← read_buffer h;
  m ← get_heap;
  set_heap (Memory (<[h := replicate (length b) x00]> (buffers m))
              (wiped h <$> documents m) (next m)).

(** The pages [qs] as views into the memory of buffer [h]. *)
Definition viewing (h : handle) (qs : list Page) : list (view Page) :=
  (λ p, View p h) <$> qs.

(** [PDFDocument.load(buffer)]: the pages of the document view the memory
    of [buffer]. *)
Definition PDFDocument_load (buffer : handle) : M handle :=
  b ← read_buffer buffer;
  ps ← call_pure (pdf_load P b) (Load b);
  alloc_document (Document (viewing buffer ps) buffer).

(** [doc.getPageCount()] *)
Definition getPageCount (doc : handle) : M nat :=
  d ← read_document doc;
  ret (length (pages d)).

(** [doc.getPageIndices()]: [0 .. getPageCount() - 1] *)
Definition getPageIndices (doc : handle) : M (list nat) :=
  n ← getPageCount doc;
  ret (seq 0 n).

(** [dst.copyPages(src, indices)]: copies of the pages of [src] at
    [indices], in the order of [indices], viewing the same memory; [dst]
    is not changed. *)
Definition copyPages (dst src : handle) (indices : list nat)
  : M (list (view Page)) :=
  _ ← read_document dst;
  d ← read_document src;
  match mapM (λ i, pages d !! i) indices with
  | Some ps => ret ps
  | None => throw null_reference
  end.

(** [doc.addPage(page)]: the page becomes the last page of [doc]. *)
Definition addPage (doc : handle) (page : view Page) : M unit :=
  d ← read_document doc;
  m ← get_heap;
  mutate_heap (Memory (buffers m)
                 (<[doc := Document (pages d ++ [page]) (source d)]> (documents m))
                 (next m)).

(** [doc.save()]: the pages are serialized as they are read now. *)
Definition save (doc : handle) : M bytes :=
  d ← read_document doc;
  call_pure (pdf_save P (content <$> pages d)) (Save (content <$> pages d)).

(** [for (let i = from; i < to; i++) body(i)] *)
Definition for_range (from to : nat) (body : nat → M unit) : M unit :=
  for_each (seq from (to - from)) body.

(** [!secret || secret !== MERGE_API_SECRET] *)
Definition unauthorized (secret : option string) : bool :=
  negb (match secret with Some s => negb (String.eqb s "") | None => false end)
  || negb (bool_decide (secret = MERGE_API_SECRET P)).

(** [!storagePaths || !Array.isArray(storagePaths) ||
     storagePaths.length === 0] *)
Definition invalid_storagePaths (storagePaths : value) : bool :=
  negb (truthy storagePaths) || negb (isArray storagePaths)
  || (length (elements storagePaths) =? 0)%nat.

(** [`temp/${orderId}/merged_${format}.pdf`] *)
Definition outputPath_of (orderId format : value) : M string :=
  o ← to_string orderId;
  f ← to_string format;
  ret ("temp/" +:+ o +:+ "/merged_" +:+ f +:+ ".pdf").

(** [downloadBatch], the same function in both files. *)
Definition downloadBatch (storagePath : value) : M handle :=
  r ← call (storage_download P storagePath) (Download storagePath);
  match error r, data r with
  | None, Some blob => alloc_buffer blob
  | err, _ =>
      p ← to_string storagePath;
      throw (Error ("Failed to download " +:+ p +:+ ": " +:+ default "undefined" err))
  end.

End Operations.

(** ** [src/index.js] *)

Module IndexJs.
Section Handlers.
Context {W Page : Type} (P : Platform W Page).
Local Abbreviation M := (M W Page).

(** Lines 48-59, the body of the loop: one more batch is fetched, parsed,
    its buffer zero-filled, and its pages appended to [mergedPdf]. *)
Definition merge_batch (mergedPdf : handle) (storagePath : value) : M unit :=
  _ ← console_log [storagePath];
  batchBuffer ← downloadBatch P storagePath;
  batchPdf ← PDFDocument_load P batchBuffer;
  _ ← fill0 P batchBuffer;
  indices ← getPageIndices batchPdf;
  pages ← copyPages mergedPdf batchPdf indices;
  for_each pages (addPage mergedPdf).

(** Lines 36-68, the merge, written inline in the handler. *)
Definition merge_inline (storagePaths : list value) : M artifact :=
  _ ← console_log [item storagePaths 0];
  firstBuffer ← downloadBatch P (item storagePaths 0);
  mergedPdf ← PDFDocument_load P firstBuffer;
  _ ← fill0 P firstBuffer;
  _ ← for_range 1 (length storagePaths) (λ i,
        merge_batch mergedPdf (item storagePaths i));
  mergedBytes ← save P mergedPdf;
  pageCount ← getPageCount mergedPdf;
  (* [mergedPdf = null] *)
  _ ← release_document mergedPdf;
  ret (Artifact mergedBytes pageCount).

(** Lines 33-89, the body of the [try] block: the merge, then the upload
    and the response. *)
Definition merge_and_store (storagePaths : list value) (orderId format : value)
  : M response :=
  _ ← eval (createClient P);
  a ← merge_inline storagePaths;
  outputPath ← outputPath_of orderId format;
  uploadError ← call (storage_upload P outputPath (mergedBytes a) true)
                     (Upload outputPath (mergedBytes a) true);
  match uploadError with
  | Some msg => throw (Error ("Failed to upload merged PDF: " +:+ msg))
  | None =>
      ret (Response 200
             (MergedBody outputPath (length (mergedBytes a)) (pageCount a)))
  end.

(** [app.post("/merge", async (req, res) => ...)] *)
Definition post_merge (req : request) : M response :=
  if unauthorized P (x_api_secret req)
  then ret (Response 401 (ErrorBody "Unauthorized"))
  else
    let storagePaths := assoc "storagePaths" (body req) in
    let orderId := assoc "orderId" (body req) in
    let format := assoc "format" (body req) in
    if invalid_storagePaths storagePaths
    then ret (Response 400
                (ErrorBody "storagePaths is required and must be a non-empty array"))
    else
      _ ← console_log [orderId; format];
      try_catch (merge_and_store (elements storagePaths) orderId format)
        (λ err,
          _ ← emit (ConsoleError "Merge failed:" err);
          ret (Response 500 (ErrorBody (message_or_string err)))).

End Handlers.
End IndexJs.

(** ** The second source file: version 2.1.0 *)

Module Service.
Section Handlers.
Context {W Page : Type} (P : Platform W Page).
Local Abbreviation M := (M W Page).

(** [function checkAuth(req, res, next)] *)
Definition checkAuth (req : request) (next : M response) : M response :=
  if unauthorized P (x_api_secret req)
  then ret (Response 401 (ErrorBody "Unauthorized"))
  else next.

(** Lines 149-158, the body of the loop of [mergeBatches]: one more batch
    is fetched, parsed, and its pages appended to [mergedPdf]; the buffer
    is not zero-filled. *)
Definition merge_batch (mergedPdf : handle) (storagePath : value) : M unit :=
  batchBuffer ← downloadBatch P storagePath;
  batchPdf ← PDFDocument_load P batchBuffer;
  indices ← getPageIndices batchPdf;
  pages ← copyPages mergedPdf batchPdf indices;
  for_each pages (addPage mergedPdf).

(** [async function mergeBatches(supabase, storagePaths)] *)
Definition mergeBatches (storagePaths : list value) : M artifact :=
  firstBuffer ← downloadBatch P (item storagePaths 0);
  mergedPdf ← PDFDocument_load P firstBuffer;
  _ ← for_range 1 (length storagePaths) (λ i,
        merge_batch mergedPdf (item storagePaths i));
  mergedBytes ← save P mergedPdf;
  pageCount ← getPageCount mergedPdf;
  (* [mergedPdf = null] *)
  _ ← release_document mergedPdf;
  ret (Artifact mergedBytes pageCount).

(** [app.post("/merge", checkAuth, async (req, res) => ...)] *)
Definition merge_handler (req : request) : M response :=
  let storagePaths := assoc "storagePaths" (body req) in
  let orderId := assoc "orderId" (body req) in
  let format := assoc "format" (body req) in
  if invalid_storagePaths storagePaths
  then ret (Response 400 (ErrorBody "storagePaths is required"))
  else
    _ ← console_log [orderId; format];
    try_catch
      (_ ← eval (createClient P);
       a ← mergeBatches (elements storagePaths);
       outputPath ← outputPath_of orderId format;
       uploadError ← call (storage_upload P outputPath (mergedBytes a) true)
                          (Upload outputPath (mergedBytes a) true);
       match uploadError with
       | Some msg => throw (Error ("Upload failed: " +:+ msg))
       | None =>
           ret (Response 200
                  (MergedBody outputPath (length (mergedBytes a)) (pageCount a)))
       end)
      (λ err,
        _ ← emit (ConsoleError "[merge] Failed:" err);
        ret (Response 500 (ErrorBody (message_or_string err)))).

Definition post_merge (req : request) : M response :=
  checkAuth req (merge_handler req).

(** [client.close()] *)
Definition close : M unit :=
  call (λ w, (ftp_close P w, Returned ())) (λ _, FtpClose).

(** Lines 83-130: the FTP session, the cleanup and the response, with the
    [catch (ftpErr)] that closes the client and rethrows. *)
Definition deliver (storagePaths : list value) (a : artifact)
    (ftpConfig xmlContent xmlFilename pdfFilename : value) : M response :=
  let host := get ftpConfig "host" in
  let user := get ftpConfig "user" in
  let password := get ftpConfig "password" in
  try_catch
    (_ ← call (ftp_access P host user password) (FtpAccess host user password);
     _ ← console_log [pdfFilename];
     _ ← call (ftp_uploadFrom P (mergedBytes a) pdfFilename)
              (FtpUploadFrom (mergedBytes a) pdfFilename);
     _ ← console_log [pdfFilename];
     xmlUploaded ←
       (if truthy xmlContent && truthy xmlFilename
        then
          _ ← console_log [xmlFilename];
          xml ← eval (Buffer_from_utf8 P xmlContent);
          _ ← call (ftp_uploadFrom P xml xmlFilename) (FtpUploadFrom xml xmlFilename);
          _ ← console_log [xmlFilename];
          ret true
        else ret false) : M bool;
     _ ← close;
     _ ← try_catch
           (_ ← call (storage_remove P storagePaths) (Remove storagePaths);
            ret ())
           (λ cleanupErr,
             emit (ConsoleWarn "[merge-and-upload] Cleanup warning:"
                     (exn_message cleanupErr)));
     ret (Response 200
            (DeliveredBody (length (mergedBytes a)) (pageCount a) true pdfFilename
               (if (xmlUploaded : bool) then xmlFilename else Null))))
    (λ ftpErr,
      _ ← close;
      throw (Error ("FTP upload failed: " +:+ exn_message ftpErr))).

(** [!ftpConfig || !ftpConfig.host || !ftpConfig.user || !ftpConfig.password] *)
Definition invalid_ftpConfig (ftpConfig : value) : bool :=
  negb (truthy ftpConfig) || negb (truthy (get ftpConfig "host"))
  || negb (truthy (get ftpConfig "user"))
  || negb (truthy (get ftpConfig "password")).

(** [app.post("/merge-and-upload", checkAuth, async (req, res) => ...)] *)
Definition merge_and_upload_handler (req : request) : M response :=
  let storagePaths := assoc "storagePaths" (body req) in
  let orderId := assoc "orderId" (body req) in
  let format := assoc "format" (body req) in
  let ftpConfig := assoc "ftp" (body req) in
  let xmlContent := assoc "xmlContent" (body req) in
  let xmlFilename := assoc "xmlFilename" (body req) in
  let pdfFilename := assoc "pdfFilename" (body req) in
  if invalid_storagePaths storagePaths
  then ret (Response 400 (ErrorBody "storagePaths is required"))
  else if invalid_ftpConfig ftpConfig
  then ret (Response 400 (ErrorBody "ftp config (host, user, password) is required"))
  else if negb (truthy pdfFilename)
  then ret (Response 400 (ErrorBody "pdfFilename is required"))
  else
    _ ← console_log [orderId; format; pdfFilename];
    try_catch
      (_ ← eval (createClient P);
       a ← mergeBatches (elements storagePaths);
       _ ← console_log [get ftpConfig "host"];
       deliver (elements storagePaths) a ftpConfig xmlContent xmlFilename pdfFilename)
      (λ err,
        _ ← emit (ConsoleError "[merge-and-upload] Failed:" err);
        ret (Response 500 (ErrorBody (message_or_string err)))).

Definition post_merge_and_upload (req : request) : M response :=
  checkAuth req (merge_and_upload_handler req).

End Handlers.
End Service.

(** ** The shape of a merge run *)

Inductive source_file : Type := index_js | service_js.

Section Shapes.
Context {W Page : Type} (P : Platform W Page).

(** The pages of a document as they are read when it is serialized.  In
    [index.js] every buffer has been zero-filled by then, and the pages are
    read through the zeros; version 2.1.0 leaves the buffers alone. *)
Definition serialized (f : source_file) (ps : list Page) : list Page :=
  match f with
  | index_js => pdf_wiped P <$> ps
  | service_js => ps
  end.

(** [index.js] interpolates the path of a batch in a log line before it
    fetches the batch. *)
Definition names_batches (f : source_file) : bool :=
  match f with index_js => true | service_js => false end.

(** What [downloadBatch] keeps of a resolved download: the blob, when there
    is one and no error came with it. *)
Definition fetched (r : download_result) : option bytes :=
  match error r, data r with
  | None, Some blob => Some blob
  | _, _ => None
  end.

(** The exception of [downloadBatch] for a download that resolved to [r]. *)
Definition download_error (path : value) (r : download_result) : exn :=
  match toString path with
  | Some p =>
      Error ("Failed to download " +:+ p +:+ ": " +:+ default "undefined" (error r))
  | None => not_primitive
  end.

(** A batch that was fetched and parsed: its path, the bytes fetched and
    the pages parsed from them. *)
Record batch : Type :=
  Batch { batch_path : value; batch_raw : bytes; batch_pages : list Page }.

Definition downloaded (b : bytes) : outcome download_result :=
  Returned (DownloadResult (Some b) None).

Definition batch_events (x : batch) : list (event Page) :=
  [Download (batch_path x) (downloaded (batch_raw x));
   Load (batch_raw x) (Returned (batch_pages x))].

(** [r] is what a call of the download of [path] came back with. *)
Definition served (path : value) (r : outcome download_result) : Prop :=
  ∃ w, (storage_download P path w).2 = r.

(** The bytes of the batch are what its download gave, and its pages what
    they parse to. *)
Definition parsed (x : batch) : Prop :=
  served (batch_path x) (downloaded (batch_raw x)) ∧
  pdf_load P (batch_raw x) = Returned (batch_pages x).

(** The pages of the batches, batch after batch. *)
Definition merged_pages (bs : list batch) : list Page :=
  concat (batch_pages <$> bs).

(** A fetch fails when the call throws, resolves with an error, or
    resolves without data. *)
Definition fetch_failed (r : outcome download_result) : Prop :=
  match r with
  | Returned dr => fetched dr = None
  | Threw _ => True
  end.

Definition fetch_error (path : value) (r : outcome download_result) : exn :=
  match r with
  | Returned dr => download_error path dr
  | Threw e => e
  end.

(** How a merge ends, after the batches that went through. *)
Inductive ending : Type :=
| Merged (out : bytes)
| SaveFailed (e : exn)
| FetchFailed (path : value) (r : outcome download_result)
| ParseFailed (path : value) (raw : bytes) (e : exn)
| RenderFailed (path : value).

Definition ending_events (acc : list Page) (x : ending) : list (event Page) :=
  match x with
  | Merged out => [Save acc (Returned out)]
  | SaveFailed e => [Save acc (Threw e)]
  | FetchFailed path r => [Download path r]
  | ParseFailed path raw e => [Download path (downloaded raw); Load raw (Threw e)]
  | RenderFailed _ => []
  end.

Definition ending_result (acc : list Page) (x : ending) : outcome artifact :=
  match x with
  | Merged out => Returned (Artifact out (length acc))
  | SaveFailed e => Threw e
  | FetchFailed path r => Threw (fetch_error path r)
  | ParseFailed _ _ e => Threw e
  | RenderFailed _ => Threw not_primitive
  end.

Definition ending_ok (f : source_file) (paths : list value) (bs : list batch)
    (x : ending) : Prop :=
  match x with
  | Merged out =>
      batch_path <$> bs = paths ∧
      pdf_save P (serialized f (merged_pages bs)) = Returned out
  | SaveFailed e =>
      batch_path <$> bs = paths ∧
      pdf_save P (serialized f (merged_pages bs)) = Threw e
  | FetchFailed path r =>
      (batch_path <$> bs) ++ [path] `prefix_of` paths ∧
      served path r ∧ fetch_failed r
  | ParseFailed path raw e =>
      (batch_path <$> bs) ++ [path] `prefix_of` paths ∧
      served path (downloaded raw) ∧ pdf_load P raw = Threw e
  | RenderFailed path =>
      (batch_path <$> bs) ++ [path] `prefix_of` paths ∧ toString path = None
  end.

(** The trace and the result of a merge over [paths], as file [f] has it:
    some batches went through, in order, then the run ended. *)
Definition merge_run (f : source_file) (paths : list value)
    (tr : list (event Page)) (res : outcome artifact) : Prop :=
  ∃ bs x,
    Forall parsed bs ∧ ending_ok f paths bs x ∧
    tr = (bs ≫= batch_events) ++ ending_events (serialized f (merged_pages bs)) x ∧
    res = ending_result (serialized f (merged_pages bs)) x.

(** The fetches and the parses of the batches of [paths], one after the
    other from the state [w] of the collaborators, up to the first that
    fails: the state reached, the batches that went through, and how it
    stopped, if it did. *)
Fixpoint gather (f : source_file) (paths : list value) (w : W)
  : W * list batch * option ending :=
  match paths with
  | [] => (w, [], None)
  | path :: paths' =>
      if names_batches f && bool_decide (toString path = None)
      then (w, [], Some (RenderFailed path))
      else
        let '(w1, r) := storage_download P path w in
        match r with
        | Threw _ => (w1, [], Some (FetchFailed path r))
        | Returned dr =>
            match fetched dr with
            | None => (w1, [], Some (FetchFailed path r))
            | Some b =>
                match pdf_load P b with
                | Threw e => (w1, [], Some (ParseFailed path b e))
                | Returned qs =>
                    let '(w2, bs, x) := gather f paths' w1 in
                    (w2, Batch path b qs :: bs, x)
                end
            end
        end
  end.

(** The events and the outcome of a loop over batches that stopped as
    [x] says, or did not stop. *)
Definition stop_events (x : option ending) : list (event Page) :=
  match x with Some y => ending_events [] y | None => [] end.

Definition stop_result (x : option ending) : outcome unit :=
  match x with
  | Some (FetchFailed path r) => Threw (fetch_error path r)
  | Some (ParseFailed _ _ e) | Some (SaveFailed e) => Threw e
  | Some (RenderFailed _) => Threw not_primitive
  | Some (Merged _) | None => Returned ()
  end.

(** The merge of [paths] without its store: the state of the
    collaborators, the trace and the result. *)
Definition merge_ref (f : source_file) (paths : list value) (w : W)
  : W * list (event Page) * outcome artifact :=
  let '(w', bs, x) := gather f paths w in
  let acc := serialized f (merged_pages bs) in
  let y :=
    match x with
    | Some y => y
    | None =>
        match pdf_save P acc with
        | Returned out => Merged out
        | Threw e => SaveFailed e
        end
    end in
  (w', (bs ≫= batch_events) ++ ending_events acc y, ending_result acc y).

(** The buffer a document was parsed from is still resident and still
    holds the bytes that were parsed: parsing them gives the document's
    first pages. *)
Definition source_intact (m : memory Page) (d : document Page) : Prop :=
  ∃ raw qs, buffers m !! source d = Some raw ∧
            pdf_load P raw = Returned qs ∧ qs `prefix_of` content <$> pages d.

(** Every resident document still has its buffer, intact. *)
Definition sources_intact (m : memory Page) : Prop :=
  ∀ h d, documents m !! h = Some d → source_intact m d.

(** No buffer and no document has a handle that is yet to be given out. *)
Definition fresh (m : memory Page) : Prop :=
  ∀ k, next m ≤ k → buffers m !! k = None ∧ documents m !! k = None.

(** The events of a merge: fetches, parses and the serialization. *)
Definition merge_event (e : event Page) : Prop :=
  match e with
  | Download _ _ | Load _ _ | Save _ _ => True
  | _ => False
  end.

(** The fetches of a trace, in order. *)
Definition fetches (tr : list (event Page)) : list (value * outcome download_result) :=
  omap (λ e, match e with Download path r => Some (path, r) | _ => None end) tr.

(** *** The shape of a run of [/merge] *)

(** [res.status(500).json({ error: err.message || String(err) })] *)
Definition failure_response (e : exn) : response :=
  Response 500 (ErrorBody (message_or_string e)).

(** The destination of the merged artifact in the bucket. *)
Definition destination (o f : string) : string :=
  "temp/" +:+ o +:+ "/merged_" +:+ f +:+ ".pdf".

(** What follows the merge in [/merge], for the outcome [r] of the upload:
    the events and the response.  [label] and [prefix] are the texts of
    the log line and of the error, which differ between the two files. *)
Definition upload_events (label prefix path : string) (a : artifact)
    (r : outcome error_result) : list (event Page) :=
  Upload path (mergedBytes a) true r ::
  match r with
  | Returned None => []
  | Returned (Some msg) => [ConsoleError label (Error (prefix +:+ msg))]
  | Threw e => [ConsoleError label e]
  end.

Definition upload_response (prefix path : string) (a : artifact)
    (r : outcome error_result) : response :=
  match r with
  | Returned None =>
      Response 200 (MergedBody path (length (mergedBytes a)) (pageCount a))
  | Returned (Some msg) => failure_response (Error (prefix +:+ msg))
  | Threw e => failure_response e
  end.

Definition store_run (file : source_file) (label prefix : string)
    (paths : list value) (orderId format : value) (tr : list (event Page))
    (res : outcome response) : Prop :=
  match toString orderId, toString format with
  | Some o, Some f =>
      (∃ e, createClient P = Threw e ∧
            tr = [ConsoleError label e] ∧ res = Returned (failure_response e)) ∨
      (∃ tr_m e, merge_run file paths tr_m (Threw e) ∧
            tr = tr_m ++ [ConsoleError label e] ∧
            res = Returned (failure_response e)) ∨
      (∃ tr_m a r, merge_run file paths tr_m (Returned a) ∧
            tr = tr_m ++ upload_events label prefix (destination o f) a r ∧
            res = Returned (upload_response prefix (destination o f) a r))
  | _, _ => tr = [] ∧ res = Threw not_primitive
  end.

(** *** The shape of a run of [/merge-and-upload] *)

(** [new Error(`FTP upload failed: ${ftpErr.message}`)] *)
Definition ftp_failed (e : exn) : exn :=
  Error ("FTP upload failed: " +:+ exn_message e).

(** How the FTP session went. *)
Inductive transfer : Type :=
| AccessFailed (e : exn)
| PdfNameFailed
| PdfFailed (e : exn)
| XmlNameFailed
| XmlEncodingFailed (e : exn)
| XmlFailed (xml : bytes) (e : exn)
| Delivered (xml : option bytes) (cleanup : outcome error_result).

Section Transfer.
Context (storagePaths : list value) (a : artifact)
  (ftpConfig xmlContent xmlFilename pdfFilename : value).

(** [xmlContent && xmlFilename] *)
Definition sidecar_requested : bool := truthy xmlContent && truthy xmlFilename.

Definition access_event (r : outcome unit) : event Page :=
  FtpAccess (get ftpConfig "host") (get ftpConfig "user")
    (get ftpConfig "password") r.

Definition pdf_event (r : outcome unit) : event Page :=
  FtpUploadFrom (mergedBytes a) pdfFilename r.

Definition xml_event (xml : bytes) (r : outcome unit) : event Page :=
  FtpUploadFrom xml xmlFilename r.

Definition cleanup_events (r : outcome error_result) : list (event Page) :=
  Remove storagePaths r ::
  match r with
  | Threw e => [ConsoleWarn "[merge-and-upload] Cleanup warning:" (exn_message e)]
  | Returned _ => []
  end.

Definition transfer_events (t : transfer) : list (event Page) :=
  match t with
  | AccessFailed e => [access_event (Threw e); FtpClose]
  | PdfNameFailed => [access_event (Returned ()); FtpClose]
  | PdfFailed e => [access_event (Returned ()); pdf_event (Threw e); FtpClose]
  | XmlNameFailed | XmlEncodingFailed _ =>
      [access_event (Returned ()); pdf_event (Returned ()); FtpClose]
  | XmlFailed xml e =>
      [access_event (Returned ()); pdf_event (Returned ());
       xml_event xml (Threw e); FtpClose]
  | Delivered xml r =>
      [access_event (Returned ()); pdf_event (Returned ())]
      ++ match xml with Some x => [xml_event x (Returned ())] | None => [] end
      ++ FtpClose :: cleanup_events r
  end.

(** The exception the [catch (ftpErr)] clause caught, if any. *)
Definition transfer_error (t : transfer) : option exn :=
  match t with
  | AccessFailed e | PdfFailed e | XmlEncodingFailed e | XmlFailed _ e => Some e
  | PdfNameFailed | XmlNameFailed => Some not_primitive
  | Delivered _ _ => None
  end.

Definition delivered_response (xml : option bytes) : response :=
  Response 200
    (DeliveredBody (length (mergedBytes a)) (pageCount a) true pdfFilename
       (match xml with Some _ => xmlFilename | None => Null end)).

Definition transfer_result (t : transfer) : outcome response :=
  match t with
  | Delivered xml _ => Returned (delivered_response xml)
  | _ => Threw (ftp_failed (default not_primitive (transfer_error t)))
  end.

Definition transfer_ok (t : transfer) : Prop :=
  match t with
  | AccessFailed _ => True
  | PdfNameFailed => toString pdfFilename = None
  | PdfFailed _ => True
  | XmlNameFailed => sidecar_requested = true ∧ toString xmlFilename = None
  | XmlEncodingFailed e =>
      sidecar_requested = true ∧ Buffer_from_utf8 P xmlContent = Threw e
  | XmlFailed xml _ | Delivered (Some xml) _ =>
      sidecar_requested = true ∧ Buffer_from_utf8 P xmlContent = Returned xml
  | Delivered None _ => sidecar_requested = false
  end.

End Transfer.

(** A run of [/merge-and-upload] that got past the validation of the
    request: it stopped before the FTP session, with nothing but the
    events of the merge behind it, or it went into the session. *)
Definition delivery_run (req : request) (tr : list (event Page))
    (res : outcome response) : Prop :=
  let field k := assoc k (body req) in
  let label := "[merge-and-upload] Failed:" in
  match toString (field "orderId"), toString (field "format"),
        toString (field "pdfFilename") with
  | Some _, Some _, Some _ =>
      (∃ tr_m e, Forall merge_event tr_m ∧
            tr = tr_m ++ [ConsoleError label e] ∧
            res = Returned (failure_response e)) ∨
      (∃ tr_m a t,
            merge_run service_js (elements (field "storagePaths")) tr_m
              (Returned a) ∧
            transfer_ok (field "xmlContent") (field "xmlFilename")
              (field "pdfFilename") t ∧
            let events :=
              transfer_events (elements (field "storagePaths")) a (field "ftp")
                (field "xmlFilename") (field "pdfFilename") t in
            match transfer_error t with
            | Some e =>
                tr = tr_m ++ events ++ [ConsoleError label (ftp_failed e)] ∧
                res = Returned (failure_response (ftp_failed e))
            | None =>
                tr = tr_m ++ events ∧
                res = transfer_result a (field "xmlFilename")
                        (field "pdfFilename") t
            end)
  | _, _, _ => tr = [] ∧ res = Threw not_primitive
  end.

(** *** The two files side by side *)

(** The merge of a list of batches, as each file has it. *)
Definition merge_of (f : source_file) (storagePaths : list value)
  : M W Page artifact :=
  match f with
  | index_js => IndexJs.merge_inline P storagePaths
  | service_js => Service.mergeBatches P storagePaths
  end.

(** The [/merge] route, as each file has it. *)
Definition post_merge_of (f : source_file) (req : request) : M W Page response :=
  match f with
  | index_js => IndexJs.post_merge P req
  | service_js => Service.post_merge P req
  end.

Definition storagePaths_message (f : source_file) : string :=
  match f with
  | index_js => "storagePaths is required and must be a non-empty array"
  | service_js => "storagePaths is required"
  end.

Definition failure_label (f : source_file) : string :=
  match f with
  | index_js => "Merge failed:"
  | service_js => "[merge] Failed:"
  end.

Definition upload_prefix (f : source_file) : string :=
  match f with
  | index_js => "Failed to upload merged PDF: "
  | service_js => "Upload failed: "
  end.

(** The response of a request that is turned away before the [try] block
    of [/merge], if it is. *)
Definition merge_rejection (f : source_file) (req : request) : option response :=
  if unauthorized P (x_api_secret req)
  then Some (Response 401 (ErrorBody "Unauthorized"))
  else if invalid_storagePaths (assoc "storagePaths" (body req))
  then Some (Response 400 (ErrorBody (storagePaths_message f)))
  else None.

(** The same for [/merge-and-upload]. *)
Definition upload_rejection (req : request) : option response :=
  if unauthorized P (x_api_secret req)
  then Some (Response 401 (ErrorBody "Unauthorized"))
  else if invalid_storagePaths (assoc "storagePaths" (body req))
  then Some (Response 400 (ErrorBody "storagePaths is required"))
  else if Service.invalid_ftpConfig (assoc "ftp" (body req))
  then Some (Response 400
               (ErrorBody "ftp config (host, user, password) is required"))
  else if negb (truthy (assoc "pdfFilename" (body req)))
  then Some (Response 400 (ErrorBody "pdfFilename is required"))
  else None.

(** *** The properties of the merge *)

(** The batches of [paths] were fetched and parsed one after the other, in
    the order of the list, and the artifact is the serialization of their
    pages, batch after batch, as file [f] reads them when it serializes. *)
Definition merged_in_order (f : source_file) (paths : list value)
    (tr : list (event Page)) (a : artifact) : Prop :=
  ∃ bs,
    batch_path <$> bs = paths ∧ Forall parsed bs ∧
    tr = (bs ≫= batch_events)
         ++ [Save (serialized f (merged_pages bs)) (Returned (mergedBytes a))] ∧
    pdf_save P (serialized f (merged_pages bs)) = Returned (mergedBytes a) ∧
    pageCount a = length (merged_pages bs) ∧
    pageCount a = sum_list (length <$> (batch_pages <$> bs)).


(** The collaborators go along with a merge of [paths] by file [f]: in
    every state that satisfies [Inv], which the fetches preserve, the fetch
    of a batch gives its bytes [raw]; these parse to its pages [pgs]; the
    paths print as strings; and the pages of all batches, as [f] reads
    them when it serializes, serialize to [out]. *)
Definition cooperative (f : source_file) (Inv : W → Prop) (paths : list value)
    (raw : value → bytes) (pgs : value → list Page) (out : bytes) : Prop :=
  (∀ p w, p ∈ paths → Inv w →
     ∃ w', storage_download P p w = (w', downloaded (raw p)) ∧ Inv w') ∧
  (∀ p, p ∈ paths → pdf_load P (raw p) = Returned (pgs p)) ∧
  (∀ p, p ∈ paths → is_Some (toString p)) ∧
  pdf_save P (serialized f (concat (pgs <$> paths))) = Returned out.

(** Read on a run of [/merge-and-upload]: whenever the request supplies
    sidecar content and the delivery succeeds, the sidecar was uploaded
    under the requested filename and the response names that file. *)
Definition sidecar_delivered_when_supplied (w : W) (req : request) : Prop :=
  ∀ s' size pages uploaded pdf flag,
    Service.post_merge_and_upload P req (start w)
    = (s', Returned (Response 200 (DeliveredBody size pages uploaded pdf flag))) →
    assoc "xmlContent" (body req) ≠ Undefined →
    flag = assoc "xmlFilename" (body req) ∧
    ∃ xml, FtpUploadFrom xml (assoc "xmlFilename" (body req)) (Returned ())
           ∈ trace s'.

End Shapes.
Arguments batch : clear implicits.
Arguments ending : clear implicits.

(** ** Further vocabulary: the secret, the calls of a run, the FTP session *)

Section Reading.
Context {W Page : Type} (P : Platform W Page).

(** The request presents the configured secret: the header is there, it is
    not the empty string, and it is the value of [MERGE_API_SECRET]. *)
Definition presents_secret (req : request) : Prop :=
  ∃ s, x_api_secret req = Some s ∧ s ≠ "" ∧ MERGE_API_SECRET P = Some s.

(** [res.status(401).json({ error: "Unauthorized" })] *)
Definition denied : outcome response :=
  Returned (Response 401 (ErrorBody "Unauthorized")).

(** The values a handler interpolates in the log line it writes before its
    [try] block. *)
Definition logged_first (upload : bool) (req : request) : list value :=
  [assoc "orderId" (body req); assoc "format" (body req)]
  ++ if upload then [assoc "pdfFilename" (body req)] else [].

(** A call to a collaborator, as opposed to a line on the console. *)
Definition is_call (e : event Page) : bool :=
  match e with
  | ConsoleWarn _ _ | ConsoleError _ _ => false
  | _ => true
  end.

(** The collaborator calls of a trace, in order. *)
Definition calls (tr : list (event Page)) : list (event Page) :=
  List.filter is_call tr.

Definition is_ftp (e : event Page) : bool :=
  match e with
  | FtpAccess _ _ _ _ | FtpUploadFrom _ _ _ | FtpClose => true
  | _ => false
  end.

Definition is_remove (e : event Page) : bool :=
  match e with Remove _ _ => true | _ => false end.

Definition is_upload (e : event Page) : bool :=
  match e with Upload _ _ _ _ => true | _ => false end.

(** The life of the FTP client of a request. *)
Inductive phase : Type := NoClient | Open | Closed.

(** One FTP event, read against the life of the client: [access] comes
    first and once, [uploadFrom] only on a client that [access] was called
    on and that is not closed, [close] once.  [None] is a call out of
    place. *)
Definition session_step (ph : phase) (e : event Page) : option phase :=
  match e, ph with
  | FtpAccess _ _ _ _, NoClient => Some Open
  | FtpUploadFrom _ _ _, Open => Some Open
  | FtpClose, Open => Some Closed
  | (FtpAccess _ _ _ _ | FtpUploadFrom _ _ _ | FtpClose), _ => None
  | _, _ => Some ph
  end.

Fixpoint session (ph : phase) (tr : list (event Page)) : option phase :=
  match tr with
  | [] => Some ph
  | e :: tr' =>
      match session_step ph e with
      | Some ph' => session ph' tr'
      | None => None
      end
  end.

(** The buffer a document was parsed from is resident and holds only zero
    bytes. *)
Definition zero_filled (m : memory Page) (d : document Page) : Prop :=
  ∃ n, buffers m !! source d = Some (replicate n x00).

(** Read on the stores a run went through: a document that is resident in
    two consecutive stores has, in the second, a zero-filled buffer. *)
Definition zero_filled_once_parsed (hist : list (memory Page)) : Prop :=
  ∀ i m m' h d d',
    hist !! i = Some m → hist !! S i = Some m' →
    documents m !! h = Some d → documents m' !! h = Some d' →
    zero_filled m' d'.

(** Every resident document has a zero-filled buffer. *)
Definition all_zero (m : memory Page) : Prop :=
  ∀ h d, documents m !! h = Some d → zero_filled m d.

End Reading.

(** ** A small concrete platform, to run the handlers on

    An in-memory bucket and FTP server.  A document is one byte per page;
    a buffer that starts with [xff] does not parse; a page read through a
    zero-filled buffer is the zero byte. *)

Module Demo.

Inductive remove_fault : Type := RemoveThrows | RemoveReturnsError.

Record server : Type := Server {
  bucket : gmap string bytes;
  ftp_files : list (value * bytes);
  ftp_refused : list value;
  remove_faults : option remove_fault;
}.

Definition download (path : value) (w : server) : server * outcome download_result :=
  match path with
  | Str p =>
      match bucket w !! p with
      | Some b => (w, Returned (DownloadResult (Some b) None))
      | None => (w, Returned (DownloadResult None (Some "Object not found")))
      end
  | _ => (w, Returned (DownloadResult None (Some "Invalid key")))
  end.

Definition upload (path : string) (b : bytes) (upsert : bool) (w : server)
  : server * outcome error_result :=
  match bucket w !! path with
  | Some _ =>
      if upsert
      then (Server (<[path := b]> (bucket w)) (ftp_files w) (ftp_refused w)
              (remove_faults w), Returned None)
      else (w, Returned (Some "The resource already exists"))
  | None =>
      (Server (<[path := b]> (bucket w)) (ftp_files w) (ftp_refused w)
         (remove_faults w), Returned None)
  end.

Definition key_of (v : value) : string :=
  match v with Str p => p | _ => "" end.

Definition remove (paths : list value) (w : server) : server * outcome error_result :=
  match remove_faults w with
  | Some RemoveThrows => (w, Threw (Error "fetch failed"))
  | Some RemoveReturnsError => (w, Returned (Some "new row violates row-level security policy"))
  | None =>
      (Server (foldr (λ p m, delete (key_of p) m) (bucket w) paths) (ftp_files w)
         (ftp_refused w) (remove_faults w), Returned None)
  end.

Definition is_str (a b : value) : bool :=
  match a, b with Str x, Str y => String.eqb x y | _, _ => false end.

Definition access (host user password : value) (w : server) : server * outcome unit :=
  if is_str host (Str "down")
  then (w, Threw (Error "connect ECONNREFUSED"))
  else (w, Returned ()).

Definition uploadFrom (b : bytes) (name : value) (w : server) : server * outcome unit :=
  if existsb (is_str name) (ftp_refused w)
  then (w, Threw (Exn "FTPError" "550 Permission denied"))
  else (Server (bucket w) (ftp_files w ++ [(name, b)]) (ftp_refused w)
          (remove_faults w), Returned ()).

Definition load (b : bytes) : outcome (list byte) :=
  match b with
  | xff :: _ => Threw (Error "Failed to parse PDF document")
  | _ => Returned b
  end.

Definition from_utf8 (v : value) : outcome bytes :=
  match v with
  | Str s => Returned (String.list_byte_of_string s)
  | _ => Threw (TypeError "The first argument must be of type string")
  end.

Definition platform : Platform server byte := {|
  MERGE_API_SECRET := Some "s3cret";
  createClient := Returned ();
  storage_download := download;
  storage_upload := upload;
  storage_remove := remove;
  pdf_load := load;
  pdf_save := λ ps, Returned ps;
  pdf_wiped := λ _, x00;
  ftp_access := access;
  ftp_uploadFrom := uploadFrom;
  ftp_close := λ w, w;
  Buffer_from_utf8 := from_utf8;
|}.

(** Two batches, of three pages and of two. *)
Definition two_batches : server :=
  Server (<["a.pdf" := [x01; x02; x03]]> (<["b.pdf" := [x04; x05]]> ∅)) [] [] None.

(** The same bucket; the FTP server refuses the sidecar [order.xml]. *)
Definition refusing_sidecar : server :=
  Server (bucket two_batches) [] [Str "order.xml"] None.

(** The same bucket; [remove] resolves with an error. *)
Definition failing_cleanup : server :=
  Server (bucket two_batches) [] [] (Some RemoveReturnsError).

Definition both : value := Arr [Str "a.pdf"; Str "b.pdf"].

Definition merge_request (paths : value) : request :=
  Request (Some "s3cret")
    [("storagePaths", paths); ("orderId", Num "42"); ("format", Str "A4")].

Definition upload_request (paths xmlContent xmlFilename : value) : request :=
  Request (Some "s3cret")
    [("storagePaths", paths); ("orderId", Num "42"); ("format", Str "A4");
     ("ftp", Obj [("host", Str "ftp.example"); ("user", Str "u"); ("password", Str "p")]);
     ("pdfFilename", Str "out.pdf");
     ("xmlContent", xmlContent); ("xmlFilename", xmlFilename)].

End Demo.

(** ** More requests and servers for the concrete platform *)

Module Cases.
Import Demo.

(** A bucket in which the second batch is not a PDF. *)
Definition broken_batch : server :=
  Server (<["a.pdf" := [x01; x02; x03]]> (<["bad.pdf" := [xff; x00]]> ∅)) [] [] None.

Definition working_ftp : value :=
  Obj [("host", Str "ftp.example"); ("user", Str "u"); ("password", Str "p")].

(** The host that the FTP server of [Demo] refuses. *)
Definition unreachable_ftp : value :=
  Obj [("host", Str "down"); ("user", Str "u"); ("password", Str "p")].

Definition without_password : value :=
  Obj [("host", Str "ftp.example"); ("user", Str "u"); ("password", Str "")].

(** A request to [/merge-and-upload] for the two batches of [Demo]. *)
Definition delivery_request (ftp pdfFilename : value) : request :=
  Request (Some "s3cret")
    [("storagePaths", both); ("orderId", Num "42"); ("format", Str "A4");
     ("ftp", ftp); ("pdfFilename", pdfFilename)].

(** A request to [/merge] with neither [orderId] nor [format]. *)
Definition anonymous_request : request :=
  Request (Some "s3cret") [("storagePaths", both)].

Definition with_missing_batch : value := Arr [Str "a.pdf"; Str "missing.pdf"].

Definition with_broken_batch : value := Arr [Str "a.pdf"; Str "bad.pdf"; Str "a.pdf"].

Definition not_found : download_result :=
  DownloadResult None (Some "Object not found").

(** The platform of [Demo] with a bucket that refuses every upload. *)
Definition read_only : Platform server byte := {|
  MERGE_API_SECRET := Some "s3cret";
  createClient := Returned ();
  storage_download := download;
  storage_upload := λ _ _ _ w, (w, Returned (Some "Bucket is read-only"));
  storage_remove := remove;
  pdf_load := load;
  pdf_save := λ ps, Returned ps;
  pdf_wiped := λ _, x00;
  ftp_access := access;
  ftp_uploadFrom := uploadFrom;
  ftp_close := λ w, w;
  Buffer_from_utf8 := from_utf8;
|}.

End Cases.


(** ** Running the primitive steps *)

(** Unfolds the monad and the primitive steps, and projects the states
    that become explicit. *)
Ltac run :=
  cbv [mbind mret M_bind M_ret bind ret throw eval emit call call_pure try_catch
       get_heap set_heap mutate_heap read_buffer read_document
       alloc_buffer alloc_document release_document];
  cbn [world trace heap history buffers documents next pages source
       data error mergedBytes pageCount fst snd].

(** Destructs the outcome the next step of a run depends on. *)
Ltac step :=
  match goal with
  | |- context [match toString ?v with _ => _ end] => destruct (toString v) eqn:?
  | |- context [ftp_access ?P ?h ?u ?p ?w] =>
      destruct (ftp_access P h u p w) as [? [[]|?]] eqn:?
  | |- context [ftp_uploadFrom ?P ?b ?n ?w] =>
      destruct (ftp_uploadFrom P b n w) as [? [[]|?]] eqn:?
  | |- context [storage_remove ?P ?l ?w] =>
      destruct (storage_remove P l w) as [? [?|?]] eqn:?
  | |- context [match Buffer_from_utf8 ?P ?v with _ => _ end] =>
      destruct (Buffer_from_utf8 P v) eqn:?
  | |- context [if ?b then _ else _] => destruct b eqn:?
  end; run.

Section Runs.
Context {W Page : Type} (P : Platform W Page).
Implicit Types (s : state W Page) (m : memory Page) (d : document Page).

Lemma run_bind {A B} (c : M W Page A) (f : A → M W Page B) s :
  (c ≫= f) s =
  match c s with
  | (s', Returned a) => f a s'
  | (s', Threw e) => (s', Threw e)
  end.
Proof. reflexivity. Qed.

Lemma run_ret {A} (a : A) s : (mret a : M W Page A) s = (s, Returned a).
Proof. reflexivity. Qed.

Lemma run_for_each_cons {A} (x : A) l (body : A → M W Page unit) s :
  for_each (x :: l) body s =
  match body x s with
  | (s', Returned _) => for_each l body s'
  | (s', Threw e) => (s', Threw e)
  end.
Proof. reflexivity. Qed.

(** The counted loop over the indices of an array is the loop over its
    elements. *)
Lemma for_each_items (f : value → M W Page unit) (l : list value) k i :
  i + k ≤ length l →
  for_each (seq i k) (λ j, f (item l j)) = for_each (take k (drop i l)) f.
Proof.
  revert i. induction k as [|k IH]; intros i Hi; [done|].
  destruct (lookup_lt_is_Some_2 l i) as [x Hx]; [lia|].
  rewrite (drop_S _ _ _ Hx). cbn [seq take for_each].
  unfold item at 1. rewrite Hx. cbn [default].
  rewrite IH by lia. done.
Qed.

Lemma for_range_items (f : value → M W Page unit) (l : list value) :
  for_range 1 (length l) (λ i, f (item l i)) = for_each (drop 1 l) f.
Proof.
  unfold for_range. destruct l as [|x l]; [done|].
  rewrite for_each_items by (cbn; lia).
  cbn [length]. replace (S (length l) - 1) with (length l) by lia.
  cbn [drop]. rewrite drop_0. by rewrite firstn_all.
Qed.

(** [copyPages] over [getPageIndices] copies every page, in order. *)
Lemma mapM_lookup_seq {A} (l1 l2 : list A) :
  mapM (λ i, (l1 ++ l2) !! i) (seq (length l1) (length l2)) = Some l2.
Proof.
  revert l1. induction l2 as [|x l2 IH]; intros l1; [done|].
  cbn [length seq mapM].
  rewrite lookup_app_r, Nat.sub_diag by lia. cbn.
  specialize (IH (l1 ++ [x])). rewrite <- app_assoc, length_app in IH.
  cbn in IH. rewrite Nat.add_1_r in IH. by rewrite IH.
Qed.

Lemma mapM_lookup_all {A} (l : list A) :
  mapM (λ i, l !! i) (seq 0 (length l)) = Some l.
Proof. apply (mapM_lookup_seq [] l). Qed.

(** A run of [addPage]s appends the pages, in order. *)
Lemma run_addPages acc (qs : list (view Page)) s d :
  documents (heap s) !! acc = Some d →
  for_each qs (addPage acc) s =
  (State (world s) (trace s)
     (Memory (buffers (heap s))
        (<[acc := Document (pages d ++ qs) (source d)]> (documents (heap s)))
        (next (heap s)))
     (history s), Returned ()).
Proof.
  revert s d. induction qs as [|q qs IH]; intros s d Hd.
  - cbn. rewrite app_nil_r. destruct s as [w t [B D n] h], d as [ps src].
    cbn in *. by rewrite insert_id.
  - rewrite run_for_each_cons. unfold addPage at 1. run. rewrite Hd. run.
    erewrite IH; [|run; apply lookup_insert_eq].
    run. by rewrite insert_insert_eq, <- app_assoc.
Qed.

Lemma run_downloadBatch path s :
  downloadBatch P path s =
  let '(w', r) := storage_download P path (world s) in
  let t1 := trace s ++ [Download path r] in
  match r with
  | Threw e => (State w' t1 (heap s) (history s), Threw e)
  | Returned dr =>
      match fetched dr with
      | None => (State w' t1 (heap s) (history s), Threw (download_error path dr))
      | Some b =>
          let m1 := Memory (<[next (heap s) := b]> (buffers (heap s)))
                      (documents (heap s)) (S (next (heap s))) in
          (State w' t1 m1 (history s ++ [m1]), Returned (next (heap s)))
      end
  end.
Proof.
  unfold downloadBatch, fetched, download_error, to_string. run.
  destruct (storage_download P path (world s)) as [w' [[[b|] [msg|]]|e]];
    run; try done; by destruct (toString path).
Qed.

Lemma run_PDFDocument_load h b s :
  buffers (heap s) !! h = Some b →
  PDFDocument_load P h s =
  let t1 := trace s ++ [Load b (pdf_load P b)] in
  match pdf_load P b with
  | Threw e => (State (world s) t1 (heap s) (history s), Threw e)
  | Returned qs =>
      let m1 := Memory (buffers (heap s))
                  (<[next (heap s) := Document (viewing h qs) h]> (documents (heap s)))
                  (S (next (heap s))) in
      (State (world s) t1 m1 (history s ++ [m1]), Returned (next (heap s)))
  end.
Proof.
  intros Hb. unfold PDFDocument_load. run. rewrite Hb. run.
  by destruct (pdf_load P b).
Qed.

(** The pages of [src] reach the end of [acc], in their order. *)
Lemma run_copy_and_add acc src s d qs h :
  documents (heap s) !! acc = Some d →
  documents (heap s) !! src = Some (Document qs h) →
  (indices ← getPageIndices src;
   pages ← copyPages acc src indices;
   for_each pages (addPage acc)) s =
  (State (world s) (trace s)
     (Memory (buffers (heap s))
        (<[acc := Document (pages d ++ qs) (source d)]> (documents (heap s)))
        (next (heap s)))
     (history s), Returned ()).
Proof.
  intros Hacc Hsrc. unfold getPageIndices, getPageCount, copyPages. run.
  rewrite Hsrc. run. rewrite Hacc. run. rewrite Hsrc. run.
  rewrite mapM_lookup_all. by rewrite (run_addPages _ _ _ d).
Qed.

Lemma run_merge_batch acc path s B D n vs src :
  heap s = Memory B D n → D !! S n = None →
  D !! acc = Some (Document vs src) →
  Service.merge_batch P acc path s =
  let '(w', r) := storage_download P path (world s) in
  let t1 := trace s ++ [Download path r] in
  match r with
  | Threw e => (State w' t1 (heap s) (history s), Threw e)
  | Returned dr =>
      match fetched dr with
      | None => (State w' t1 (heap s) (history s), Threw (download_error path dr))
      | Some b =>
          let m1 := Memory (<[n := b]> B) D (S n) in
          match pdf_load P b with
          | Threw e =>
              (State w' (t1 ++ [Load b (Threw e)]) m1 (history s ++ [m1]), Threw e)
          | Returned qs =>
              let T := <[S n := Document (viewing n qs) n]> D in
              (State w' (t1 ++ [Load b (Returned qs)])
                 (Memory (<[n := b]> B)
                    (<[acc := Document (vs ++ viewing n qs) src]> T) (S (S n)))
                 (history s ++ [m1; Memory (<[n := b]> B) T (S (S n))]),
               Returned ())
          end
      end
  end.
Proof.
  intros Hs HD Hacc. unfold Service.merge_batch.
  rewrite run_bind, run_downloadBatch, Hs.
  destruct (storage_download P path (world s)) as [w' [dr|e]]; [|done].
  cbn zeta. destruct (fetched dr) as [b|]; [|done].
  cbn [next buffers documents].
  rewrite run_bind, (run_PDFDocument_load _ b) by apply lookup_insert_eq.
  cbn [world trace heap history buffers documents next].
  destruct (pdf_load P b) as [qs|e]; [|by rewrite <- app_assoc].
  assert (acc ≠ S n) as Hne by (intros ->; congruence).
  erewrite run_copy_and_add;
    [|cbn; rewrite lookup_insert_ne by done; exact Hacc|cbn; apply lookup_insert_eq].
  run. by rewrite <- !app_assoc.
Qed.

Lemma fetched_Some dr b : fetched dr = Some b → Returned dr = downloaded b.
Proof.
  destruct dr as [[b'|] [msg|]]; unfold fetched; cbn; try done.
  by intros [= ->].
Qed.

Lemma bind_snoc {A B} (f : A → list B) (l : list A) (x : A) :
  (l ++ [x]) ≫= f = (l ≫= f) ++ f x.
Proof. rewrite bind_app. cbn. by rewrite app_nil_r. Qed.

Lemma content_viewing h (qs : list Page) : content <$> viewing h qs = qs.
Proof.
  unfold viewing. rewrite <- list_fmap_compose. apply list_fmap_id.
Qed.

(** *** The stores of [mergeBatches] *)

Lemma source_intact_mono m m' d d' :
  source_intact P m d → source d' = source d →
  content <$> pages d `prefix_of` content <$> pages d' →
  (∀ raw, buffers m !! source d = Some raw → buffers m' !! source d = Some raw) →
  source_intact P m' d'.
Proof.
  intros (raw & qs & Hraw & Hload & Hpre) Hsrc Hpages Hkept.
  exists raw, qs. rewrite Hsrc. split_and!; [by apply Hkept|done|].
  by etrans.
Qed.

Lemma source_intact_parsed (B : gmap handle bytes) (D : gmap handle (document Page))
    k n b qs :
  B !! n = Some b → pdf_load P b = Returned qs →
  source_intact P (Memory B D k) (Document (viewing n qs) n).
Proof.
  intros Hb Hload. exists b, qs. cbn. by rewrite content_viewing.
Qed.

Lemma buffer_kept (B : gmap handle bytes) (D : gmap handle (document Page))
    n b h raw :
  fresh (Memory B D n) → B !! h = Some raw → <[n := b]> B !! h = Some raw.
Proof.
  intros Hfresh Hraw. rewrite lookup_insert_ne; [done|].
  intros Heq. destruct (Hfresh n) as [Hnone _]; [done|].
  cbn in Hnone. congruence.
Qed.

(** The stores one iteration of [mergeBatches] goes through. *)
Lemma service_step_stores B D n vs b qs :
  2 ≤ n → D !! 1 = Some (Document vs 0) →
  fresh (Memory B D n) → sources_intact P (Memory B D n) →
  pdf_load P b = Returned qs →
  let T := <[S n := Document (viewing n qs) n]> D in
  let m' := Memory (<[n := b]> B)
              (<[1 := Document (vs ++ viewing n qs) 0]> T) (S (S n)) in
  sources_intact P (Memory (<[n := b]> B) D (S n)) ∧
  sources_intact P (Memory (<[n := b]> B) T (S (S n))) ∧
  sources_intact P m' ∧ fresh m'.
Proof.
  intros Hn Hacc Hfresh Hintact Hload T m'.
  assert (∀ h d, D !! h = Some d →
            ∀ k D', source_intact P (Memory (<[n := b]> B) D' k) d) as Hold.
  { intros h d Hd k D'. apply (source_intact_mono (Memory B D n) _ d d);
      [by apply (Hintact h)|done|done|].
    intros raw Hraw. by apply (buffer_kept B D n). }
  assert (∀ k D', source_intact P (Memory (<[n := b]> B) D' k)
                    (Document (viewing n qs) n)) as Hnew.
  { intros k D'. apply (source_intact_parsed _ _ _ _ b); [|done].
    apply lookup_insert_eq. }
  split_and!.
  - intros h d Hd. by apply (Hold h).
  - intros h d. cbn. unfold T. rewrite lookup_insert_Some.
    intros [[<- <-]|[_ Hd]]; [apply Hnew|by apply (Hold h)].
  - intros h d. cbn. unfold T. rewrite !lookup_insert_Some.
    intros [[<- <-]|[_ [[<- <-]|[_ Hd]]]]; [|apply Hnew|by apply (Hold h)].
    apply (source_intact_mono (Memory (<[n := b]> B) D n) _ (Document vs 0));
      [by apply (Hold 1)|done| |done].
    cbn. rewrite fmap_app. by apply prefix_app_r.
  - intros k Hk. cbn in *. destruct (Hfresh k) as [HB HD]; [cbn; lia|].
    cbn in HB, HD. unfold T. rewrite !lookup_insert_ne by lia. done.
Qed.

(** The loop of [mergeBatches], against the batches gathered. *)
Lemma service_loop (l : list value) : ∀ s B D n vs,
  heap s = Memory B D n → 2 ≤ n → D !! 1 = Some (Document vs 0) →
  fresh (heap s) → sources_intact P (heap s) →
  Forall (sources_intact P) (history s) →
  ∃ s',
    for_each l (Service.merge_batch P 1) s
    = (s', stop_result (gather P service_js l (world s)).2) ∧
    world s' = (gather P service_js l (world s)).1.1 ∧
    trace s' = trace s ++ ((gather P service_js l (world s)).1.2 ≫= batch_events)
                       ++ stop_events (gather P service_js l (world s)).2 ∧
    Forall (sources_intact P) (history s') ∧
    ((gather P service_js l (world s)).2 = None →
     sources_intact P (heap s') ∧
     ∃ vs', documents (heap s') !! 1 = Some (Document vs' 0) ∧
            content <$> vs' =
            (content <$> vs)
            ++ merged_pages (gather P service_js l (world s)).1.2).
Proof.
  induction l as [|p l IH]; intros s B D n vs Hheap Hn Hacc Hfresh Hintact Hhist.
  { exists s. cbn. rewrite !app_nil_r. split_and!; try done.
    intros _. split; [done|]. exists vs. by rewrite Hheap. }
  rewrite run_for_each_cons, (run_merge_batch 1 p s B D n vs 0 Hheap);
    [|rewrite Hheap in Hfresh; by apply (Hfresh (S n)); cbn; lia|done].
  cbn [gather names_batches andb].
  destruct (storage_download P p (world s)) as [w1 [dr|e]]; cbn zeta.
  2:{ eexists. split_and!; try done. }
  destruct (fetched dr) as [b|] eqn:Hdr.
  2:{ eexists. split_and!; try done. }
  apply fetched_Some in Hdr. rewrite Hdr.
  rewrite Hheap in Hfresh, Hintact.
  destruct (pdf_load P b) as [qs|e] eqn:Hload.
  2:{ eexists. cbn. split_and!; try done.
      - by rewrite <- app_assoc.
      - apply Forall_app. split; [done|]. apply Forall_singleton.
        intros h d Hd. apply (source_intact_mono (Memory B D n) _ d d);
          [by apply (Hintact h)|done|done|].
        intros raw Hraw. by apply (buffer_kept B D n). }
  destruct (service_step_stores B D n vs b qs Hn Hacc Hfresh Hintact Hload)
    as (Hm1 & Hm2 & Hm3 & Hfresh').
  match goal with |- context [for_each l _ ?t] => set (s1 := t) end.
  destruct (IH s1 _ _ _ (vs ++ viewing n qs) eq_refl) as (s' & Hrun & Hw & Htr & Hh & Hend);
    [lia|apply lookup_insert_eq|done|done| |].
  { unfold s1. cbn. apply Forall_app. split; [done|].
    apply Forall_cons_2; [done|]. by apply Forall_singleton. }
  exists s'. rewrite Hrun. unfold s1 in Hw, Htr, Hend |- *. cbn [world trace] in *.
  destruct (gather P service_js l w1) as [[w2 bs] x]. cbn [fst snd] in *.
  split_and!; try done.
  - rewrite Htr, bind_cons, <- !app_assoc. done.
  - intros Hx. destruct (Hend Hx) as (Hs' & vs' & Hdoc & Hvs').
    split; [done|]. exists vs'. split; [done|].
    rewrite Hvs', fmap_app, content_viewing, <- app_assoc. done.
Qed.

(** *** The batches gathered *)

(** A loop stops at a fetch, at a parse, or at the log line that names
    the batch. *)
Lemma gather_early f (paths : list value) : ∀ w y,
  (gather P f paths w).2 = Some y →
  match y with
  | FetchFailed _ _ | ParseFailed _ _ _ | RenderFailed _ => True
  | Merged _ | SaveFailed _ => False
  end.
Proof.
  induction paths as [|p paths IH]; intros w y; [done|]. cbn [gather].
  destruct (names_batches f && bool_decide (toString p = None)).
  { by intros [= <-]. }
  destruct (storage_download P p w) as [w1 [dr|e]]; [|by intros [= <-]].
  destruct (fetched dr) as [b|]; [|by intros [= <-]].
  destruct (pdf_load P b) as [qs|e]; [|by intros [= <-]].
  specialize (IH w1 y). destruct (gather P f paths w1) as [[w2 bs] x].
  exact IH.
Qed.

(** A loop that stopped threw, and what it left in the trace does not
    depend on the pages merged so far. *)
Lemma gather_stop f (paths : list value) w y :
  (gather P f paths w).2 = Some y →
  ∃ e, stop_result (Some y) = Threw e ∧
       ∀ acc : list Page,
         ending_events acc y = stop_events (Some y) ∧
         ending_result acc y = Threw e.
Proof.
  intros Hy%gather_early. destruct y; try done; by eexists.
Qed.

Lemma gather_spec f (paths : list value) : ∀ w,
  Forall (parsed P) (gather P f paths w).1.2 ∧
  match (gather P f paths w).2 with
  | None => batch_path <$> (gather P f paths w).1.2 = paths
  | Some y => ending_ok P f paths (gather P f paths w).1.2 y
  end.
Proof.
  induction paths as [|p paths IH]; intros w; [done|]. cbn [gather].
  destruct (names_batches f && bool_decide (toString p = None)) eqn:Hp.
  { split; [constructor|]. cbn. split; [apply prefix_cons, prefix_nil|].
    apply andb_true_iff in Hp as [_ Hp]. by apply bool_decide_eq_true in Hp. }
  destruct (storage_download P p w) as [w1 r] eqn:Hd.
  assert (served P p r) as Hserved by (exists w; by rewrite Hd).
  destruct r as [dr|e].
  2:{ split; [constructor|]. cbn. split; [apply prefix_cons, prefix_nil|done]. }
  destruct (fetched dr) as [b|] eqn:Hdr.
  2:{ split; [constructor|]. cbn. split; [apply prefix_cons, prefix_nil|done]. }
  apply fetched_Some in Hdr. rewrite Hdr in Hserved.
  destruct (pdf_load P b) as [qs|e] eqn:Hload.
  2:{ split; [constructor|]. cbn. split; [apply prefix_cons, prefix_nil|done]. }
  specialize (IH w1). destruct (gather P f paths w1) as [[w2 bs] x] eqn:Hg.
  cbn [fst snd] in *. destruct IH as [Hbs Hx]. split; [by constructor|].
  destruct x as [y|]; [|by rewrite fmap_cons, Hx].
  pose proof (gather_early f paths w1 y) as Hy. rewrite Hg in Hy.
  specialize (Hy eq_refl).
  destruct y; try done; cbn in Hx |- *; destruct Hx as [Hpre Hx];
    (split; [|done]); by apply prefix_cons.
Qed.

(** The reference merge has the shape of a merge run. *)
Lemma merge_ref_run f paths w :
  merge_run P f paths (merge_ref P f paths w).1.2 (merge_ref P f paths w).2.
Proof.
  unfold merge_ref. pose proof (gather_spec f paths w) as [Hbs Hx].
  destruct (gather P f paths w) as [[w' bs] x]. cbn [fst snd] in *.
  destruct x as [y|].
  - by exists bs, y.
  - destruct (pdf_save P (serialized P f (merged_pages bs))) as [out|e] eqn:Hsave.
    + by exists bs, (Merged out).
    + by exists bs, (SaveFailed e).
Qed.

(** With collaborators that go along, every batch is gathered. *)
Lemma gather_cooperative f (Inv : W → Prop) raw pgs (paths : list value) : ∀ w,
  (∀ p w, p ∈ paths → Inv w →
     ∃ w', storage_download P p w = (w', downloaded (raw p)) ∧ Inv w') →
  (∀ p, p ∈ paths → pdf_load P (raw p) = Returned (pgs p)) →
  (∀ p, p ∈ paths → is_Some (toString p)) →
  Inv w →
  ∃ w', gather P f paths w
        = (w', (λ p, Batch p (raw p) (pgs p)) <$> paths, None) ∧ Inv w'.
Proof.
  induction paths as [|p paths IH]; intros w Hfetch Hload Hstr Hinv.
  { by exists w. }
  cbn [gather]. destruct (Hstr p) as [t Ht]; [by left|].
  rewrite bool_decide_eq_false_2, andb_false_r by (by rewrite Ht).
  destruct (Hfetch p w) as (w1 & -> & Hinv1); [by left|done|].
  cbn [downloaded fetched error data]. rewrite (Hload p) by (by left).
  destruct (IH w1) as (w2 & -> & Hinv2);
    [intros; apply Hfetch; [by right|done]|intros; apply Hload; by right
    |intros; apply Hstr; by right|done|].
  by exists w2.
Qed.

Lemma merged_pages_batches (raw : value → bytes) (pgs : value → list Page)
    (paths : list value) :
  merged_pages ((λ p, Batch p (raw p) (pgs p)) <$> paths) = concat (pgs <$> paths).
Proof. unfold merged_pages. by rewrite <- list_fmap_compose. Qed.

Lemma length_serialized f (ps : list Page) : length (serialized P f ps) = length ps.
Proof. destruct f; [apply length_fmap|done]. Qed.

(** With collaborators that go along, the reference merge returns the
    serialization of all the pages. *)
Lemma merge_ref_returns f (Inv : W → Prop) raw pgs out paths w :
  Inv w → cooperative P f Inv paths raw pgs out →
  ∃ w', Inv w' ∧
    merge_ref P f paths w =
    (w',
     (((λ p, Batch p (raw p) (pgs p)) <$> paths) ≫= batch_events)
     ++ [Save (serialized P f (concat (pgs <$> paths))) (Returned out)],
     Returned (Artifact out (length (concat (pgs <$> paths))))).
Proof.
  intros Hinv (Hfetch & Hload & Hstr & Hsave).
  destruct (gather_cooperative f Inv raw pgs paths w Hfetch Hload Hstr Hinv)
    as (w' & Hg & Hinv').
  exists w'. split; [done|]. unfold merge_ref. rewrite Hg.
  rewrite merged_pages_batches, Hsave. cbn. by rewrite length_serialized.
Qed.

(** *** [mergeBatches] against the reference *)

Lemma fresh_two (b : bytes) (d : document Page) :
  fresh (Memory {[0 := b]} {[1 := d]} 2).
Proof.
  intros k Hk. cbn in *. by rewrite !lookup_singleton_ne by lia.
Qed.

Lemma mergeBatches_ref p0 rest w :
  let '(s', res) := Service.mergeBatches P (p0 :: rest) (start w) in
  (world s', trace s', res) = merge_ref P service_js (p0 :: rest) w ∧
  Forall (sources_intact P) (history s').
Proof.
  unfold Service.mergeBatches, merge_ref. change (item (p0 :: rest) 0) with p0.
  rewrite run_bind, run_downloadBatch. cbn [start world trace heap history].
  cbn [gather names_batches andb].
  destruct (storage_download P p0 w) as [w1 [dr|e]]; cbn zeta; [|done].
  destruct (fetched dr) as [b0|] eqn:Hdr; [|done].
  apply fetched_Some in Hdr. rewrite Hdr. clear Hdr dr.
  cbn [empty_memory next buffers documents]. rewrite insert_empty.
  rewrite run_bind, (run_PDFDocument_load 0 b0) by apply lookup_singleton_eq.
  cbn [world trace heap history buffers documents next].
  assert (sources_intact P (Memory {[0 := b0]} ∅ 1)) as Hm1 by (by intros h d).
  destruct (pdf_load P b0) as [ps0|e] eqn:Hb0.
  2:{ split; [done|]. by apply Forall_singleton. }
  rewrite insert_empty.
  assert (sources_intact P (Memory {[0 := b0]} {[1 := Document (viewing 0 ps0) 0]} 2))
    as Hm2.
  { intros h d Hd. cbn in Hd. apply lookup_singleton_Some in Hd as [<- <-].
    by apply (source_intact_parsed _ _ _ _ b0). }
  rewrite run_bind, (for_range_items (Service.merge_batch P 1)). cbn [drop].
  rewrite drop_0.
  match goal with |- context [for_each rest _ ?t] => set (s2 := t) end.
  destruct (service_loop rest s2 _ _ 2 (viewing 0 ps0) eq_refl)
    as (s3 & Hrun & Hw & Htr & Hhist & Hend);
    [lia|apply lookup_singleton_eq|apply fresh_two|done
    |by apply Forall_cons_2; [|apply Forall_singleton]|].
  rewrite Hrun. clear Hrun. subst s2. cbn [world trace] in *.
  pose proof (gather_stop service_js rest w1) as Hstop.
  destruct (gather P service_js rest w1) as [[w2 bs] x]. cbn [fst snd] in *.
  destruct x as [y|].
  { destruct (Hstop y eq_refl) as (e & -> & Hacc). split; [|done].
    destruct (Hacc (serialized P service_js
                      (merged_pages (Batch p0 b0 ps0 :: bs)))) as [-> ->].
    rewrite Hw, Htr, bind_cons, <- !app_assoc. done. }
  destruct (Hend eq_refl) as (Hs3 & vs' & Hdoc & Hvs'). clear Hend Hstop.
  rewrite content_viewing in Hvs'.
  assert (length vs' = length (ps0 ++ merged_pages bs)) as Hlen
    by (by rewrite <- Hvs', length_fmap).
  unfold save, getPageCount. run. rewrite Hdoc. run. rewrite Hvs'.
  change (ps0 ++ merged_pages bs) with (merged_pages (Batch p0 b0 ps0 :: bs)) in *.
  cbn [serialized].
  destruct (pdf_save P (merged_pages (Batch p0 b0 ps0 :: bs))) as [out|e]; run.
  - rewrite Hdoc. run. rewrite Hlen. split.
    + by rewrite Hw, Htr, bind_cons, app_nil_r, <- !app_assoc.
    + apply Forall_app. split; [done|]. apply Forall_singleton.
      intros h d. cbn. intros [_ Hd]%lookup_delete_Some.
      destruct (Hs3 h d Hd) as (raw & qs & ? & ? & ?). by exists raw, qs.
  - split; [|done]. by rewrite Hw, Htr, bind_cons, app_nil_r, <- !app_assoc.
Qed.

(** *** The inline merge of [index.js] *)

Lemma run_console_log_one (v : value) s :
  console_log (W := W) (Page := Page) [v] s =
  match toString v with
  | Some _ => (s, Returned ())
  | None => (s, Threw not_primitive)
  end.
Proof. unfold console_log, to_string. cbn [for_each]. run. by destruct (toString v). Qed.

Lemma run_fill0 h b s :
  buffers (heap s) !! h = Some b →
  fill0 P h s =
  let m1 := Memory (<[h := replicate (length b) x00]> (buffers (heap s)))
              (wiped P h <$> documents (heap s)) (next (heap s)) in
  (State (world s) (trace s) m1 (history s ++ [m1]), Returned ()).
Proof. intros Hb. unfold fill0. run. by rewrite Hb. Qed.

(** Zero-filling a buffer wipes the pages that view it, and no other. *)
Lemma wiped_viewing h (qs : list Page) :
  wiped P h (Document (viewing h qs) h)
  = Document (viewing h (pdf_wiped P <$> qs)) h.
Proof.
  unfold wiped, viewing. cbn. f_equal. rewrite <- !list_fmap_compose.
  apply list_fmap_ext. intros i p _. cbn. unfold wiped_view. cbn.
  by rewrite decide_True.
Qed.

Lemma wiped_elsewhere h (vs : list (view Page)) src :
  Forall (λ v, backing v ≠ h) vs → wiped P h (Document vs src) = Document vs src.
Proof.
  intros Hvs. unfold wiped. cbn. f_equal.
  rewrite <- (list_fmap_id vs) at 2. apply Forall_fmap_ext_1.
  eapply Forall_impl; [exact Hvs|]. intros v Hv. unfold wiped_view.
  by rewrite decide_False.
Qed.

Lemma run_merge_batch_filled acc path s B D n vs src :
  heap s = Memory B D n → D !! S n = None →
  D !! acc = Some (Document vs src) → Forall (λ v, backing v ≠ n) vs →
  IndexJs.merge_batch P acc path s =
  match toString path with
  | None => (s, Threw not_primitive)
  | Some _ =>
      let '(w', r) := storage_download P path (world s) in
      let t1 := trace s ++ [Download path r] in
      match r with
      | Threw e => (State w' t1 (heap s) (history s), Threw e)
      | Returned dr =>
          match fetched dr with
          | None =>
              (State w' t1 (heap s) (history s), Threw (download_error path dr))
          | Some b =>
              let m1 := Memory (<[n := b]> B) D (S n) in
              match pdf_load P b with
              | Threw e =>
                  (State w' (t1 ++ [Load b (Threw e)]) m1 (history s ++ [m1]),
                   Threw e)
              | Returned qs =>
                  let Z := <[n := replicate (length b) x00]> B in
                  let T := <[S n := Document (viewing n qs) n]> D in
                  let new := viewing n (pdf_wiped P <$> qs) in
                  (State w' (t1 ++ [Load b (Returned qs)])
                     (Memory Z
                        (<[acc := Document (vs ++ new) src]> (wiped P n <$> T))
                        (S (S n)))
                     (history s ++
                      [m1; Memory (<[n := b]> B) T (S (S n));
                       Memory Z (wiped P n <$> T) (S (S n))]),
                   Returned ())
              end
          end
      end
  end.
Proof.
  intros Hs HD Hacc Hvs. unfold IndexJs.merge_batch.
  rewrite run_bind, run_console_log_one.
  destruct (toString path) as [p|]; [|done].
  rewrite run_bind, run_downloadBatch, Hs.
  destruct (storage_download P path (world s)) as [w' [dr|e]]; [|done].
  cbn zeta. destruct (fetched dr) as [b|]; [|done].
  cbn [next buffers documents].
  rewrite run_bind, (run_PDFDocument_load _ b) by apply lookup_insert_eq.
  cbn [world trace heap history buffers documents next].
  destruct (pdf_load P b) as [qs|e]; [|by rewrite <- app_assoc].
  assert (acc ≠ S n) as Hne by (intros ->; congruence).
  rewrite run_bind, (run_fill0 _ b) by apply lookup_insert_eq.
  cbn [world trace heap history buffers documents next].
  rewrite (run_copy_and_add acc (S n) _ (Document vs src)
             (viewing n (pdf_wiped P <$> qs)) n);
    cbn [world trace heap history buffers documents next].
  - cbn [pages source]. by rewrite insert_insert_eq, <- !app_assoc.
  - rewrite lookup_fmap, lookup_insert_ne, Hacc by done. cbn.
    by rewrite wiped_elsewhere.
  - rewrite lookup_fmap, lookup_insert_eq. cbn. by rewrite wiped_viewing.
Qed.

(** Adding one store to a history. *)
Lemma zero_filled_snoc (hist : list (memory Page)) m' :
  zero_filled_once_parsed hist →
  (∀ m h d d', last hist = Some m →
     documents m !! h = Some d → documents m' !! h = Some d' →
     zero_filled m' d') →
  zero_filled_once_parsed (hist ++ [m']).
Proof.
  intros Hhist Hlast i m1 m2 h d d' Hi HSi Hd Hd'.
  destruct (decide (S i < length hist)) as [Hlt|Hge].
  - rewrite lookup_app_l in Hi, HSi by lia.
    exact (Hhist i m1 m2 h d d' Hi HSi Hd Hd').
  - apply lookup_lt_Some in HSi as Hlen. rewrite length_app in Hlen. cbn in Hlen.
    assert (S i = length hist) as Heq by lia.
    rewrite lookup_app_r in HSi by lia. rewrite Heq, Nat.sub_diag in HSi.
    injection HSi as <-.
    rewrite lookup_app_l in Hi by lia.
    apply (Hlast m1 h d d'); [|done..].
    rewrite last_lookup. by replace (pred (length hist)) with i by lia.
Qed.

Lemma zero_filled_snoc_all (hist : list (memory Page)) m' :
  zero_filled_once_parsed hist → all_zero m' →
  zero_filled_once_parsed (hist ++ [m']).
Proof.
  intros Hhist Hzero. apply zero_filled_snoc; [done|].
  intros m h d d' _ _ Hd'. by apply (Hzero h).
Qed.

Lemma zero_filled_kept (B : gmap handle bytes) (D D' : gmap handle (document Page))
    n k b d :
  fresh (Memory B D n) → zero_filled (Memory B D n) d →
  zero_filled (Memory (<[n := b]> B) D' k) d.
Proof.
  intros Hfresh [len Hd]. exists len. by apply (buffer_kept B D n).
Qed.

(** The stores one iteration of the loop of [index.js] goes through. *)
Lemma index_step_stores B D n vs b qs hist :
  2 ≤ n → D !! 1 = Some (Document vs 0) →
  fresh (Memory B D n) → all_zero (Memory B D n) →
  zero_filled_once_parsed hist →
  let Z := <[n := replicate (length b) x00]> B in
  let T := <[S n := Document (viewing n qs) n]> D in
  let new := viewing n (pdf_wiped P <$> qs) in
  let m' := Memory Z (<[1 := Document (vs ++ new) 0]> (wiped P n <$> T)) (S (S n)) in
  zero_filled_once_parsed (hist ++ [Memory (<[n := b]> B) D (S n)]) ∧
  zero_filled_once_parsed
    (hist ++ [Memory (<[n := b]> B) D (S n); Memory (<[n := b]> B) T (S (S n));
              Memory Z (wiped P n <$> T) (S (S n))]) ∧
  all_zero m' ∧ fresh m'.
Proof.
  intros Hn Hacc Hfresh Hzero Hhist Z T new m'.
  assert (∀ h d, D !! h = Some d →
            ∀ c k D', zero_filled (Memory (<[n := c]> B) D' k) d) as Hold.
  { intros h d Hd c k D'. apply (zero_filled_kept B D); [done|by apply (Hzero h)]. }
  assert (zero_filled_once_parsed (hist ++ [Memory (<[n := b]> B) D (S n)])) as H1.
  { apply zero_filled_snoc_all; [done|]. intros h d Hd. by apply (Hold h). }
  assert (all_zero (Memory Z (wiped P n <$> T) (S (S n)))) as H3.
  { intros h d. cbn. rewrite lookup_fmap. unfold T.
    destruct (decide (h = S n)) as [->|Hne].
    - rewrite lookup_insert_eq. cbn. intros [= <-].
      exists (length b). cbn. apply lookup_insert_eq.
    - rewrite lookup_insert_ne by done.
      destruct (D !! h) as [d0|] eqn:Hd0; [|done]. cbn. intros [= <-].
      destruct (Hold h d0 Hd0 (replicate (length b) x00) 0 D) as [len Hlen].
      by exists len. }
  split_and!; [done| | |].
  - match goal with
    | |- zero_filled_once_parsed (hist ++ [?a; ?b; ?c]) =>
        replace (hist ++ [a; b; c]) with (((hist ++ [a]) ++ [b]) ++ [c])
          by (by rewrite <- !app_assoc)
    end.
    apply zero_filled_snoc_all; [|done].
    apply zero_filled_snoc; [done|].
    intros m h d d'. rewrite last_snoc. intros [= <-]. cbn. intros Hd.
    unfold T. rewrite lookup_insert_ne; [intros Hd'; by apply (Hold h)|].
    intros <-. destruct (Hfresh (S n)) as [_ Hnone]; [cbn; lia|].
    cbn in Hnone. congruence.
  - intros h d. cbn. destruct (decide (h = 1)) as [->|Hne].
    + rewrite lookup_insert_eq. intros [= <-]. cbn.
      destruct (Hold 1 _ Hacc (replicate (length b) x00) 0 D) as [len Hlen].
      by exists len.
    + rewrite lookup_insert_ne by done. intros Hd.
      destruct (H3 h d Hd) as [len Hlen]. by exists len.
  - intros k Hk. cbn in *. destruct (Hfresh k) as [HB HD]; [cbn; lia|].
    cbn in HB, HD. unfold Z, T.
    rewrite !lookup_insert_ne, lookup_fmap, lookup_insert_ne by lia.
    by rewrite HB, HD.
Qed.

Lemma backing_viewing h k (qs : list Page) :
  h < k → Forall (λ v, backing v < k) (viewing h qs).
Proof. intros Hlt. unfold viewing. by apply Forall_fmap, Forall_true. Qed.

(** The loop of [index.js], against the batches gathered. *)
Lemma index_loop (l : list value) : ∀ s B D n vs,
  heap s = Memory B D n → 2 ≤ n → D !! 1 = Some (Document vs 0) →
  Forall (λ v, backing v < n) vs →
  fresh (heap s) → all_zero (heap s) →
  zero_filled_once_parsed (history s) →
  ∃ s',
    for_each l (IndexJs.merge_batch P 1) s
    = (s', stop_result (gather P index_js l (world s)).2) ∧
    world s' = (gather P index_js l (world s)).1.1 ∧
    trace s' = trace s ++ ((gather P index_js l (world s)).1.2 ≫= batch_events)
                       ++ stop_events (gather P index_js l (world s)).2 ∧
    zero_filled_once_parsed (history s') ∧
    ((gather P index_js l (world s)).2 = None →
     all_zero (heap s') ∧
     ∃ vs', documents (heap s') !! 1 = Some (Document vs' 0) ∧
            content <$> vs' =
            (content <$> vs)
            ++ (pdf_wiped P <$> merged_pages (gather P index_js l (world s)).1.2)).
Proof.
  induction l as [|p l IH];
    intros s B D n vs Hheap Hn Hacc Hvs Hfresh Hzero Hhist.
  { exists s. cbn. rewrite !app_nil_r. split_and!; try done.
    intros _. split; [done|]. exists vs. by rewrite Hheap. }
  rewrite Hheap in Hfresh, Hzero.
  rewrite run_for_each_cons, (run_merge_batch_filled 1 p s B D n vs 0 Hheap);
    [|by apply (Hfresh (S n)); cbn; lia|done
     |eapply Forall_impl; [exact Hvs|]; cbn; lia].
  cbn [gather names_batches andb].
  destruct (toString p) as [t|] eqn:Hp.
  2:{ rewrite bool_decide_eq_true_2 by done. exists s. cbn.
      rewrite !app_nil_r. by split_and!. }
  rewrite bool_decide_eq_false_2 by done.
  destruct (storage_download P p (world s)) as [w1 [dr|e]]; cbn zeta.
  2:{ eexists. split_and!; try done. }
  destruct (fetched dr) as [b|] eqn:Hdr.
  2:{ eexists. split_and!; try done. }
  apply fetched_Some in Hdr. rewrite Hdr.
  destruct (pdf_load P b) as [qs|e] eqn:Hload.
  2:{ destruct (index_step_stores B D n vs b [] (history s) Hn Hacc Hfresh Hzero Hhist)
        as (Hm1 & _).
      eexists. cbn. split_and!; try done. by rewrite <- app_assoc. }
  destruct (index_step_stores B D n vs b qs (history s) Hn Hacc Hfresh Hzero Hhist)
    as (_ & Hm3 & Hzero' & Hfresh').
  match goal with |- context [for_each l _ ?t] => set (s1 := t) end.
  destruct (IH s1 _ _ _ (vs ++ viewing n (pdf_wiped P <$> qs)) eq_refl)
    as (s' & Hrun & Hw & Htr & Hh & Hend);
    [lia|apply lookup_insert_eq| |done|done|done|].
  { apply Forall_app. split; [|apply backing_viewing; lia].
    eapply Forall_impl; [exact Hvs|]. cbn. lia. }
  exists s'. rewrite Hrun. clear Hrun. subst s1. cbn [world trace] in *.
  destruct (gather P index_js l w1) as [[w2 bs] x]. cbn [fst snd] in *.
  split_and!; try done.
  - rewrite Htr, bind_cons, <- !app_assoc. done.
  - intros Hx. destruct (Hend Hx) as (Hs' & vs' & Hdoc & Hvs').
    split; [done|]. exists vs'. split; [done|].
    rewrite Hvs', fmap_app, content_viewing, <- app_assoc.
    unfold merged_pages. cbn. by rewrite fmap_app.
Qed.

Lemma merge_inline_ref p0 rest w :
  let '(s', res) := IndexJs.merge_inline P (p0 :: rest) (start w) in
  (world s', trace s', res) = merge_ref P index_js (p0 :: rest) w ∧
  zero_filled_once_parsed (history s').
Proof.
  assert (zero_filled_once_parsed (Page := Page) []) as Hnil by (by intros i).
  unfold IndexJs.merge_inline, merge_ref. change (item (p0 :: rest) 0) with p0.
  cbn [gather names_batches andb].
  rewrite run_bind, run_console_log_one.
  destruct (toString p0) as [t|] eqn:Hp0.
  2:{ by rewrite bool_decide_eq_true_2 by done. }
  rewrite bool_decide_eq_false_2 by done.
  rewrite run_bind, run_downloadBatch. cbn [start world trace heap history].
  destruct (storage_download P p0 w) as [w1 [dr|e]]; cbn zeta; [|done].
  destruct (fetched dr) as [b0|] eqn:Hdr; [|done].
  apply fetched_Some in Hdr. rewrite Hdr. clear Hdr dr.
  cbn [empty_memory next buffers documents]. rewrite insert_empty.
  rewrite run_bind, (run_PDFDocument_load 0 b0) by apply lookup_singleton_eq.
  cbn [world trace heap history buffers documents next].
  assert (zero_filled_once_parsed [Memory (Page := Page) {[0 := b0]} ∅ 1]) as Hm1.
  { apply (zero_filled_snoc_all []); [done|]. by intros h d. }
  destruct (pdf_load P b0) as [ps0|e] eqn:Hb0; [|done].
  rewrite insert_empty.
  rewrite run_bind, (run_fill0 0 b0) by apply lookup_singleton_eq.
  cbn [world trace heap history buffers documents next].
  rewrite insert_singleton_eq, map_fmap_singleton, wiped_viewing.
  set (zeros := replicate (length b0) x00).
  set (first := Document (viewing 0 (pdf_wiped P <$> ps0)) 0).
  assert (all_zero (Memory {[0 := zeros]} {[1 := first]} 2)) as Hzero.
  { intros h d Hd. cbn in Hd. apply lookup_singleton_Some in Hd as [<- <-].
    exists (length b0). apply lookup_singleton_eq. }
  assert (zero_filled_once_parsed
            [Memory {[0 := b0]} ∅ 1;
             Memory {[0 := b0]} {[1 := Document (viewing 0 ps0) 0]} 2;
             Memory {[0 := zeros]} {[1 := first]} 2]) as Hm3.
  { apply (zero_filled_snoc_all [_; _]); [|done].
    apply (zero_filled_snoc [_]); [done|].
    intros m h d d' [= <-]. by cbn. }
  rewrite run_bind, (for_range_items (IndexJs.merge_batch P 1)). cbn [drop].
  rewrite drop_0.
  match goal with |- context [for_each rest _ ?t] => set (s2 := t) end.
  destruct (index_loop rest s2 _ _ 2 (viewing 0 (pdf_wiped P <$> ps0)) eq_refl)
    as (s3 & Hrun & Hw & Htr & Hhist & Hend);
    [lia|apply lookup_singleton_eq|apply backing_viewing; lia
    |apply fresh_two|done|done|].
  rewrite Hrun. clear Hrun. subst s2. cbn [world trace] in *.
  pose proof (gather_stop index_js rest w1) as Hstop.
  destruct (gather P index_js rest w1) as [[w2 bs] x]. cbn [fst snd] in *.
  destruct x as [y|].
  { destruct (Hstop y eq_refl) as (e & -> & Hacc). split; [|done].
    destruct (Hacc (serialized P index_js
                      (merged_pages (Batch p0 b0 ps0 :: bs)))) as [-> ->].
    rewrite Hw, Htr, bind_cons, <- !app_assoc. done. }
  destruct (Hend eq_refl) as (Hs3 & vs' & Hdoc & Hvs'). clear Hend Hstop.
  rewrite content_viewing, <- fmap_app in Hvs'.
  change (ps0 ++ merged_pages bs) with (merged_pages (Batch p0 b0 ps0 :: bs)) in *.
  assert (length vs' = length (pdf_wiped P <$> merged_pages (Batch p0 b0 ps0 :: bs)))
    as Hlen by (by rewrite <- Hvs', length_fmap).
  unfold save, getPageCount. run. rewrite Hdoc. run. rewrite Hvs'.
  cbn [serialized].
  destruct (pdf_save P (pdf_wiped P <$> merged_pages (Batch p0 b0 ps0 :: bs)))
    as [out|e]; run.
  - rewrite Hdoc. run. rewrite Hlen. split.
    + by rewrite Hw, Htr, bind_cons, app_nil_r, <- !app_assoc.
    + apply zero_filled_snoc_all; [done|].
      intros h d. cbn. intros [_ Hd]%lookup_delete_Some.
      destruct (Hs3 h d Hd) as [len Hlen']. by exists len.
  - split; [|done]. by rewrite Hw, Htr, bind_cons, app_nil_r, <- !app_assoc.
Qed.

(** Every run of [mergeBatches] on a non-empty list has the shape of a
    merge run, and in every store it went through each resident document
    has its buffer, intact. *)
Lemma mergeBatches_run p0 rest w :
  let '(s', res) := Service.mergeBatches P (p0 :: rest) (start w) in
  merge_run P service_js (p0 :: rest) (trace s') res ∧
  Forall (sources_intact P) (history s').
Proof.
  pose proof (mergeBatches_ref p0 rest w) as H.
  destruct (Service.mergeBatches P (p0 :: rest) (start w)) as [s' res].
  destruct H as [H Hhist]. split; [|done].
  pose proof (merge_ref_run service_js (p0 :: rest) w) as Hrun.
  by rewrite <- H in Hrun.
Qed.

(** Every run of the inline merge of [index.js] on a non-empty list has
    the shape of a merge run, and each buffer is zero-filled once its
    batch is parsed. *)
Lemma merge_inline_run p0 rest w :
  let '(s', res) := IndexJs.merge_inline P (p0 :: rest) (start w) in
  merge_run P index_js (p0 :: rest) (trace s') res ∧
  zero_filled_once_parsed (history s').
Proof.
  pose proof (merge_inline_ref p0 rest w) as H.
  destruct (IndexJs.merge_inline P (p0 :: rest) (start w)) as [s' res].
  destruct H as [H Hhist]. split; [|done].
  pose proof (merge_ref_run index_js (p0 :: rest) w) as Hrun.
  by rewrite <- H in Hrun.
Qed.

(** The merge of either file is the reference merge. *)
Lemma merge_of_ref f p0 rest w :
  let '(s', res) := merge_of P f (p0 :: rest) (start w) in
  (world s', trace s', res) = merge_ref P f (p0 :: rest) w.
Proof.
  destruct f; cbn [merge_of].
  - pose proof (merge_inline_ref p0 rest w) as H.
    destruct (IndexJs.merge_inline P (p0 :: rest) (start w)). apply H.
  - pose proof (mergeBatches_ref p0 rest w) as H.
    destruct (Service.mergeBatches P (p0 :: rest) (start w)). apply H.
Qed.

(** *** The [/merge] handlers *)

Lemma run_console_log_two (u v : value) s :
  console_log (W := W) (Page := Page) [u; v] s =
  match toString u, toString v with
  | Some _, Some _ => (s, Returned ())
  | _, _ => (s, Threw not_primitive)
  end.
Proof.
  unfold console_log, to_string. cbn [for_each]. run.
  by destruct (toString u), (toString v).
Qed.

Lemma run_outputPath_of (orderId format : value) s :
  outputPath_of (W := W) (Page := Page) orderId format s =
  match toString orderId, toString format with
  | Some o, Some f => (s, Returned (destination o f))
  | _, _ => (s, Threw not_primitive)
  end.
Proof.
  unfold outputPath_of, to_string. run.
  by destruct (toString orderId), (toString format).
Qed.

Lemma merge_handler_run req p0 rest w :
  assoc "storagePaths" (body req) = Arr (p0 :: rest) →
  let '(s', res) := Service.merge_handler P req (start w) in
  store_run P service_js "[merge] Failed:" "Upload failed: " (p0 :: rest)
    (assoc "orderId" (body req)) (assoc "format" (body req)) (trace s') res.
Proof.
  intros Hpaths. unfold Service.merge_handler, store_run. rewrite Hpaths.
  cbn [invalid_storagePaths truthy isArray elements length negb orb Nat.eqb].
  rewrite run_bind, run_console_log_two.
  destruct (toString (assoc "orderId" (body req))) as [o|] eqn:Ho; [|done].
  destruct (toString (assoc "format" (body req))) as [f|] eqn:Hf; [|done].
  unfold try_catch. rewrite run_bind. unfold eval at 1.
  destruct (createClient P) as [[]|e] eqn:Hc.
  2:{ run. left. by exists e. }
  rewrite run_bind.
  pose proof (mergeBatches_run p0 rest w) as Hrun.
  destruct (Service.mergeBatches P (p0 :: rest) (start w)) as [s1 [a|e]];
    destruct Hrun as [Hrun _].
  2:{ run. right. left. by exists (trace s1), e. }
  rewrite run_bind, run_outputPath_of, Ho, Hf. run.
  destruct (storage_upload P (destination o f) (mergedBytes a) true (world s1))
    as [w2 [[msg|]|e]]; run; right; right;
    [exists (trace s1), a, (Returned (Some msg))
    |exists (trace s1), a, (Returned None)
    |exists (trace s1), a, (Threw e)]; cbn; by rewrite <- ?app_assoc.
Qed.

Lemma index_post_merge_run req p0 rest w :
  unauthorized P (x_api_secret req) = false →
  assoc "storagePaths" (body req) = Arr (p0 :: rest) →
  let '(s', res) := IndexJs.post_merge P req (start w) in
  store_run P index_js "Merge failed:" "Failed to upload merged PDF: " (p0 :: rest)
    (assoc "orderId" (body req)) (assoc "format" (body req)) (trace s') res.
Proof.
  intros Hauth Hpaths. unfold IndexJs.post_merge, store_run.
  rewrite Hauth, Hpaths.
  cbn [invalid_storagePaths truthy isArray elements length negb orb Nat.eqb].
  rewrite run_bind, run_console_log_two.
  destruct (toString (assoc "orderId" (body req))) as [o|] eqn:Ho; [|done].
  destruct (toString (assoc "format" (body req))) as [f|] eqn:Hf; [|done].
  unfold try_catch, IndexJs.merge_and_store. rewrite run_bind. unfold eval at 1.
  destruct (createClient P) as [[]|e] eqn:Hc.
  2:{ run. left. by exists e. }
  rewrite run_bind.
  pose proof (merge_inline_run p0 rest w) as Hrun.
  destruct (IndexJs.merge_inline P (p0 :: rest) (start w)) as [s1 [a|e]];
    destruct Hrun as [Hrun _].
  2:{ run. right. left. by exists (trace s1), e. }
  rewrite run_bind, run_outputPath_of, Ho, Hf. run.
  destruct (storage_upload P (destination o f) (mergedBytes a) true (world s1))
    as [w2 [[msg|]|e]]; run; right; right;
    [exists (trace s1), a, (Returned (Some msg))
    |exists (trace s1), a, (Returned None)
    |exists (trace s1), a, (Threw e)]; cbn; by rewrite <- ?app_assoc.
Qed.

(** *** The [/merge-and-upload] handler *)

Lemma merge_run_events f paths tr res :
  merge_run P f paths tr res → Forall merge_event tr.
Proof.
  intros (bs & x & _ & _ & -> & _). apply Forall_app. split.
  - induction bs as [|b bs IH]; [constructor|].
    rewrite bind_cons. apply Forall_app. split; [|done]. by repeat constructor.
  - destruct x; by repeat constructor.
Qed.

Lemma deliver_run paths a ftpConfig xmlContent xmlFilename pdfFilename s :
  ∃ t w',
    transfer_ok P xmlContent xmlFilename pdfFilename t ∧
    Service.deliver P paths a ftpConfig xmlContent xmlFilename pdfFilename s =
    (State w' (trace s ++ transfer_events paths a ftpConfig xmlFilename pdfFilename t)
       (heap s) (history s),
     transfer_result a xmlFilename pdfFilename t).
Proof.
  unfold Service.deliver, Service.close, console_log, to_string.
  cbn [for_each]. run. repeat step.
  all: rewrite <- ?app_assoc; cbn [app].
  all: first
    [ match goal with
      | |- context [Remove _ ?r] =>
          first
            [ solve [eexists (Delivered (Some _) r), _; split; [|reflexivity];
                     by split]
            | solve [eexists (Delivered None r), _; split; [|reflexivity]; done] ]
      end
    | solve [eexists (XmlFailed _ _), _; split; [|reflexivity]; by split]
    | solve [eexists (XmlEncodingFailed _), _; split; [|reflexivity]; by split]
    | solve [eexists XmlNameFailed, _; split; [|reflexivity]; by split]
    | solve [eexists (PdfFailed _), _; split; [|reflexivity]; done]
    | solve [eexists PdfNameFailed, _; split; [|reflexivity]; done]
    | solve [eexists (AccessFailed _), _; split; [|reflexivity]; done] ].
Qed.

(** The validation accepts exactly the non-empty arrays. *)
Lemma valid_storagePaths (v : value) :
  invalid_storagePaths v = false ↔ ∃ p0 rest, v = Arr (p0 :: rest).
Proof.
  split.
  - destruct v as [| |[]|r|t|[|p0 rest]|fs]; unfold invalid_storagePaths;
      cbn; rewrite ?orb_true_r; try done.
    by exists p0, rest.
  - by intros (p0 & rest & ->).
Qed.

Lemma run_console_log_three (u v x : value) s :
  console_log (W := W) (Page := Page) [u; v; x] s =
  match toString u, toString v, toString x with
  | Some _, Some _, Some _ => (s, Returned ())
  | _, _, _ => (s, Threw not_primitive)
  end.
Proof.
  unfold console_log, to_string. cbn [for_each]. run.
  by destruct (toString u), (toString v), (toString x).
Qed.

Lemma merge_and_upload_handler_run req w :
  invalid_storagePaths (assoc "storagePaths" (body req)) = false →
  Service.invalid_ftpConfig (assoc "ftp" (body req)) = false →
  truthy (assoc "pdfFilename" (body req)) = true →
  let '(s', res) := Service.merge_and_upload_handler P req (start w) in
  delivery_run P req (trace s') res.
Proof.
  intros Hpaths Hftp Hpdf. unfold Service.merge_and_upload_handler, delivery_run.
  rewrite Hpaths, Hftp, Hpdf. cbn [negb].
  apply valid_storagePaths in Hpaths as (p0 & rest & Hpaths). rewrite Hpaths.
  cbn [elements].
  rewrite run_bind, run_console_log_three.
  destruct (toString (assoc "orderId" (body req))) as [o|]; [|done].
  destruct (toString (assoc "format" (body req))) as [f|]; [|done].
  destruct (toString (assoc "pdfFilename" (body req))) as [n|]; [|done].
  unfold try_catch. rewrite run_bind. unfold eval at 1.
  destruct (createClient P) as [[]|e] eqn:Hc.
  2:{ run. left. by exists [], e. }
  rewrite run_bind.
  pose proof (mergeBatches_run p0 rest w) as Hrun.
  destruct (Service.mergeBatches P (p0 :: rest) (start w)) as [s1 [a|e]];
    destruct Hrun as [Hrun _].
  2:{ run. left. exists (trace s1), e. split; [|done].
      by eapply merge_run_events. }
  rewrite run_bind, run_console_log_one.
  destruct (toString (get (assoc "ftp" (body req)) "host")) as [h|].
  2:{ run. left. exists (trace s1), not_primitive. split; [|done].
      by eapply merge_run_events. }
  destruct (deliver_run (p0 :: rest) a (assoc "ftp" (body req))
              (assoc "xmlContent" (body req)) (assoc "xmlFilename" (body req))
              (assoc "pdfFilename" (body req)) s1) as (t & w' & Hok & ->).
  destruct t; run; right; exists (trace s1), a; eexists;
    (split; [done|]); (split; [exact Hok|]); cbn; by rewrite <- ?app_assoc.
Qed.

(** *** Every request, through either route *)

Lemma post_merge_of_cases f req w :
  let '(s', res) := post_merge_of P f req (start w) in
  match merge_rejection P f req with
  | Some r => s' = start w ∧ res = Returned r
  | None =>
      store_run P f (failure_label f) (upload_prefix f)
        (elements (assoc "storagePaths" (body req)))
        (assoc "orderId" (body req)) (assoc "format" (body req)) (trace s') res
  end.
Proof.
  unfold merge_rejection.
  destruct (unauthorized P (x_api_secret req)) eqn:Hauth.
  { destruct f; cbn; unfold IndexJs.post_merge, Service.post_merge,
      Service.checkAuth; by rewrite Hauth. }
  destruct (invalid_storagePaths (assoc "storagePaths" (body req))) eqn:Hpaths.
  { destruct f; cbn; unfold IndexJs.post_merge, Service.post_merge,
      Service.checkAuth, Service.merge_handler; by rewrite Hauth, Hpaths. }
  apply valid_storagePaths in Hpaths as (p0 & rest & Hpaths). rewrite Hpaths.
  destruct f; cbn [post_merge_of failure_label upload_prefix elements].
  - pose proof (index_post_merge_run req p0 rest w Hauth Hpaths) as Hrun.
    destruct (IndexJs.post_merge P req (start w)) as [s' res]. apply Hrun.
  - unfold Service.post_merge, Service.checkAuth. rewrite Hauth.
    apply (merge_handler_run req p0 rest w Hpaths).
Qed.

Lemma post_merge_and_upload_cases req w :
  let '(s', res) := Service.post_merge_and_upload P req (start w) in
  match upload_rejection P req with
  | Some r => s' = start w ∧ res = Returned r
  | None => delivery_run P req (trace s') res
  end.
Proof.
  unfold upload_rejection, Service.post_merge_and_upload, Service.checkAuth.
  destruct (unauthorized P (x_api_secret req)) eqn:Hauth; [done|].
  destruct (invalid_storagePaths (assoc "storagePaths" (body req))) eqn:Hpaths.
  { unfold Service.merge_and_upload_handler. by rewrite Hpaths. }
  destruct (Service.invalid_ftpConfig (assoc "ftp" (body req))) eqn:Hftp.
  { unfold Service.merge_and_upload_handler. by rewrite Hpaths, Hftp. }
  destruct (truthy (assoc "pdfFilename" (body req))) eqn:Hpdf; cbn [negb].
  2:{ unfold Service.merge_and_upload_handler. by rewrite Hpaths, Hftp, Hpdf. }
  by apply merge_and_upload_handler_run.
Qed.

Lemma unauthorized_missing_or_different (secret : option string) :
  secret = None ∨ secret ≠ MERGE_API_SECRET P → unauthorized P secret = true.
Proof.
  unfold unauthorized. intros [->|Hne]; [done|].
  rewrite bool_decide_eq_false_2 by done. apply orb_true_r.
Qed.

(** *** A merge with collaborators that go along *)

(** With collaborators that go along, the merge of either file returns
    the serialization of all the pages, as the file reads them. *)
Lemma merge_of_returns f (Inv : W → Prop) raw pgs out p0 rest w :
  Inv w → cooperative P f Inv (p0 :: rest) raw pgs out →
  ∃ s', merge_of P f (p0 :: rest) (start w)
        = (s', Returned (Artifact out (length (concat (pgs <$> p0 :: rest))))) ∧
        Inv (world s') ∧
        trace s' =
        (((λ p, Batch p (raw p) (pgs p)) <$> p0 :: rest) ≫= batch_events)
        ++ [Save (serialized P f (concat (pgs <$> p0 :: rest))) (Returned out)].
Proof.
  intros Hinv Hcoop.
  destruct (merge_ref_returns f Inv raw pgs out (p0 :: rest) w Hinv Hcoop)
    as (w' & Hinv' & Href).
  pose proof (merge_of_ref f p0 rest w) as H.
  destruct (merge_of P f (p0 :: rest) (start w)) as [s' res].
  rewrite Href in H. injection H as Hw Htr ->. exists s'.
  by rewrite Hw, Htr.
Qed.

(** *** Facts about the shape of a merge run *)

Lemma merge_of_run f p0 rest w :
  let '(s', res) := merge_of P f (p0 :: rest) (start w) in
  merge_run P f (p0 :: rest) (trace s') res.
Proof.
  pose proof (merge_of_ref f p0 rest w) as H.
  destruct (merge_of P f (p0 :: rest) (start w)) as [s' res].
  pose proof (merge_ref_run f (p0 :: rest) w) as Hrun.
  by rewrite <- H in Hrun.
Qed.

(** With collaborators that go along, a request to [/merge] that passes
    the checks is answered 200, after the upload of the merge. *)
Lemma post_merge_of_stores f (Inv : W → Prop) raw pgs out o fm req w :
  merge_rejection P f req = None →
  toString (assoc "orderId" (body req)) = Some o →
  toString (assoc "format" (body req)) = Some fm →
  createClient P = Returned () →
  Inv w →
  cooperative P f Inv (elements (assoc "storagePaths" (body req))) raw pgs out →
  (∀ w', Inv w' →
     ∃ w'', storage_upload P (destination o fm) out true w' = (w'', Returned None)) →
  ∃ s' tr_m,
    post_merge_of P f req (start w)
    = (s', Returned (Response 200
                       (MergedBody (destination o fm) (length out)
                          (length (concat
                             (pgs <$> elements (assoc "storagePaths" (body req)))))))) ∧
    trace s' = tr_m ++ [Upload (destination o fm) out true (Returned None)].
Proof.
  intros Hpass Ho Hf Hclient Hinv Hcoop Hupload. unfold merge_rejection in Hpass.
  destruct (unauthorized P (x_api_secret req)) eqn:Hauth; [done|].
  destruct (invalid_storagePaths (assoc "storagePaths" (body req))) eqn:Hpaths;
    [done|].
  apply valid_storagePaths in Hpaths as Hlist. destruct Hlist as (p0 & rest & Hlist).
  rewrite Hlist in Hcoop |- *. cbn [elements] in Hcoop |- *.
  destruct (merge_of_returns f Inv raw pgs out p0 rest w Hinv Hcoop)
    as (s1 & Hmerge & Hinv1 & _).
  destruct (Hupload (world s1) Hinv1) as (w2 & Hup).
  exists (State w2 (trace s1 ++ [Upload (destination o fm) out true (Returned None)])
            (heap s1) (history s1)), (trace s1).
  split; [|done].
  destruct f; cbn [post_merge_of merge_of] in Hmerge |- *.
  - unfold IndexJs.post_merge. rewrite Hauth, Hpaths, Hlist. cbn [elements].
    rewrite run_bind, run_console_log_two, Ho, Hf.
    unfold try_catch, IndexJs.merge_and_store. rewrite run_bind. unfold eval at 1.
    rewrite Hclient, run_bind, Hmerge, run_bind, run_outputPath_of, Ho, Hf.
    run. by rewrite Hup.
  - unfold Service.post_merge, Service.checkAuth, Service.merge_handler.
    rewrite Hauth, Hpaths, Hlist. cbn [elements].
    rewrite run_bind, run_console_log_two, Ho, Hf.
    unfold try_catch. rewrite run_bind. unfold eval at 1.
    rewrite Hclient, run_bind, Hmerge, run_bind, run_outputPath_of, Ho, Hf.
    run. by rewrite Hup.
Qed.

Lemma length_concat_sum {A} (l : list (list A)) :
  length (concat l) = sum_list (length <$> l).
Proof. induction l as [|x l IH]; [done|]. cbn. by rewrite length_app, IH. Qed.

Lemma length_merged_pages (bs : list (batch Page)) :
  length (merged_pages bs) = sum_list (length <$> (batch_pages <$> bs)).
Proof. apply length_concat_sum. Qed.

Lemma fetches_batches (bs : list (batch Page)) :
  fetches (bs ≫= batch_events) =
  (λ b, (batch_path b, downloaded (batch_raw b))) <$> bs.
Proof.
  unfold fetches. induction bs as [|b bs IH]; [done|].
  rewrite bind_cons, omap_app, IH. done.
Qed.

Lemma downloaded_not_failed (raw : bytes) : ¬ fetch_failed (downloaded raw).
Proof. done. Qed.

Lemma no_save_in_batches (bs : list (batch Page)) ps o :
  Save ps o ∉ bs ≫= batch_events.
Proof.
  intros (b & Hin & _)%list_elem_of_bind.
  by repeat (apply elem_of_cons in Hin as [?|Hin]; [done|]); apply elem_of_nil in Hin.
Qed.

(** A merge run in which some fetch failed. *)
Lemma merge_run_fetch_failed f paths tr res k path r :
  merge_run P f paths tr res →
  fetches tr !! k = Some (path, r) → fetch_failed r →
  paths !! k = Some path ∧ (fetches tr).*1 = take (S k) paths ∧
  res = Threw (fetch_error path r) ∧ (∀ ps o, Save ps o ∉ tr).
Proof.
  intros (bs & x & Hbs & Hok & -> & ->) Hk Hfailed.
  unfold fetches in Hk. rewrite omap_app in Hk. fold (fetches (bs ≫= batch_events)) in Hk.
  rewrite fetches_batches in Hk.
  apply lookup_app_Some in Hk as [Hk|[Hlen Hk]].
  { apply list_lookup_fmap_Some in Hk as (b & [= -> ->] & _).
    by destruct (downloaded_not_failed _ Hfailed). }
  rewrite length_fmap in Hlen, Hk.
  destruct x as [out|e|p q|p raw e|p]; cbn in Hk; try done.
  2:{ apply list_lookup_singleton_Some in Hk as [_ [= <- <-]].
      by destruct (downloaded_not_failed _ Hfailed). }
  apply list_lookup_singleton_Some in Hk as [Hk [= <- <-]].
  assert (k = length bs) as -> by lia. clear Hk Hlen.
  destruct Hok as [[after Hpaths] _]. subst paths.
  split_and!.
  - rewrite <- app_assoc, lookup_app_r by (by rewrite length_fmap).
    by rewrite length_fmap, Nat.sub_diag.
  - unfold fetches. rewrite omap_app. fold (fetches (bs ≫= batch_events)).
    rewrite fetches_batches. cbn. rewrite fmap_app, <- list_fmap_compose. cbn.
    rewrite take_app_length'; [done|].
    rewrite length_app, length_fmap. cbn. lia.
  - done.
  - intros ps o [Hin|Hin]%elem_of_app.
    + by apply no_save_in_batches in Hin.
    + cbn in Hin. apply elem_of_cons in Hin as [?|Hin]; [done|].
      by apply elem_of_nil in Hin.
Qed.

(** A merge run that returned. *)
Lemma merge_run_returned f paths tr a :
  merge_run P f paths tr (Returned a) → merged_in_order P f paths tr a.
Proof.
  intros (bs & x & Hbs & Hok & -> & Hres).
  destruct x as [out|e|p q|p raw e|p]; try done.
  cbn in Hres. injection Hres as ->. destruct Hok as [Hpaths Hsave].
  exists bs. cbn [mergedBytes pageCount]. rewrite length_serialized.
  split_and!; try done. apply length_merged_pages.
Qed.

(** *** Facts about the shape of a delivery *)

Lemma merge_event_elem (tr : list (event Page)) e :
  Forall merge_event tr → e ∈ tr → merge_event e.
Proof. intros Htr He. by eapply Forall_forall in Htr. Qed.

(** A run of [/merge] that answered 200. *)
Lemma stored_run f req w s' b :
  post_merge_of P f req (start w) = (s', Returned (Response 200 b)) →
  ∃ o fm tr_m a,
    toString (assoc "orderId" (body req)) = Some o ∧
    toString (assoc "format" (body req)) = Some fm ∧
    merge_run P f (elements (assoc "storagePaths" (body req))) tr_m
      (Returned a) ∧
    trace s' = tr_m
               ++ [Upload (destination o fm) (mergedBytes a) true (Returned None)] ∧
    b = MergedBody (destination o fm) (length (mergedBytes a)) (pageCount a).
Proof.
  intros Hrun. pose proof (post_merge_of_cases f req w) as H. rewrite Hrun in H.
  unfold merge_rejection in H.
  destruct (unauthorized P (x_api_secret req)); [by destruct H|].
  destruct (invalid_storagePaths _); [by destruct H|].
  unfold store_run in H.
  destruct (toString (assoc "orderId" (body req))) as [o|]; [|by destruct H].
  destruct (toString (assoc "format" (body req))) as [fm|]; [|by destruct H].
  unfold failure_response in H.
  destruct H as [(e & _ & _ & Hres)|[(tr_m & e & _ & _ & Hres)
                |(tr_m & a & r & Hm & Htr & Hres)]]; [by simplify_eq..|].
  exists o, fm, tr_m, a.
  destruct r as [[msg|]|e]; cbn in Hres, Htr; unfold failure_response in Hres;
    by simplify_eq.
Qed.

(** A run of [/merge-and-upload] that answered 200. *)
Lemma delivered_run req w s' b :
  Service.post_merge_and_upload P req (start w) = (s', Returned (Response 200 b)) →
  ∃ tr_m a xml r,
    merge_run P service_js (elements (assoc "storagePaths" (body req))) tr_m
      (Returned a) ∧
    transfer_ok P (assoc "xmlContent" (body req)) (assoc "xmlFilename" (body req))
      (assoc "pdfFilename" (body req)) (Delivered xml r) ∧
    trace s' = tr_m ++ transfer_events (elements (assoc "storagePaths" (body req)))
                         a (assoc "ftp" (body req)) (assoc "xmlFilename" (body req))
                         (assoc "pdfFilename" (body req)) (Delivered xml r) ∧
    Response 200 b = delivered_response a (assoc "xmlFilename" (body req))
                       (assoc "pdfFilename" (body req)) xml.
Proof.
  intros Hrun. pose proof (post_merge_and_upload_cases req w) as H.
  rewrite Hrun in H. unfold upload_rejection in H.
  destruct (unauthorized P (x_api_secret req)); [by destruct H|].
  destruct (invalid_storagePaths _); [by destruct H|].
  destruct (Service.invalid_ftpConfig _); [by destruct H|].
  destruct (negb _); [by destruct H|].
  unfold delivery_run in H.
  destruct (toString (assoc "orderId" (body req))); [|by destruct H].
  destruct (toString (assoc "format" (body req))); [|by destruct H].
  destruct (toString (assoc "pdfFilename" (body req))); [|by destruct H].
  unfold failure_response in H.
  destruct H as [(tr_m & e & _ & _ & Hres)|(tr_m & a & t & Hm & Hok & H)];
    [by simplify_eq|].
  destruct t; cbn in H; destruct H as [Htr Hres]; try by simplify_eq.
  exists tr_m, a, xml, cleanup. split_and!; try done. by simplify_eq.
Qed.

(** A run of [/merge-and-upload] in which an FTP upload failed. *)
Lemma failed_upload_run req w s' res payload name e :
  Service.post_merge_and_upload P req (start w) = (s', res) →
  FtpUploadFrom payload name (Threw e) ∈ trace s' →
  (∃ before,
     trace s' = before ++ [FtpUploadFrom payload name (Threw e); FtpClose;
                           ConsoleError "[merge-and-upload] Failed:" (ftp_failed e)]) ∧
  res = Returned (Response 500 (ErrorBody ("FTP upload failed: " +:+ exn_message e))) ∧
  (∀ paths r, Remove paths r ∉ trace s').
Proof.
  intros Hrun Hin. pose proof (post_merge_and_upload_cases req w) as H.
  rewrite Hrun in H.
  destruct (upload_rejection P req).
  { destruct H as [-> _]. by apply elem_of_nil in Hin. }
  unfold delivery_run in H.
  destruct (toString (assoc "orderId" (body req)));
    [|destruct H as [Htr _]; rewrite Htr in Hin; by apply elem_of_nil in Hin].
  destruct (toString (assoc "format" (body req)));
    [|destruct H as [Htr _]; rewrite Htr in Hin; by apply elem_of_nil in Hin].
  destruct (toString (assoc "pdfFilename" (body req)));
    [|destruct H as [Htr _]; rewrite Htr in Hin; by apply elem_of_nil in Hin].
  destruct H as [(tr_m & e' & Hm & Htr & _)|(tr_m & a & t & Hm & Hok & H)].
  { rewrite Htr in Hin. apply elem_of_app in Hin as [Hin|Hin].
    - by apply (merge_event_elem _ _ Hm) in Hin.
    - apply elem_of_cons in Hin as [?|Hin]; [done|]. by apply elem_of_nil in Hin. }
  apply merge_run_events in Hm.
  assert (∀ ev, ev ∈ tr_m → merge_event ev) as Hmerge
    by (intros ev; apply merge_event_elem, Hm).
  destruct t as [e'| |e'| |e'|xml e'|[xml|] [c|e']]; cbn in H;
    unfold access_event, pdf_event, xml_event, cleanup_events in H; cbn in H;
    destruct H as [Htr Hres]; rewrite Htr in Hin |- *;
    rewrite ?elem_of_app, ?elem_of_cons, ?elem_of_nil in Hin;
    destruct_or?; try done; try (by apply Hmerge in Hin);
    simplify_eq; (split_and!; [| |intros paths r Hr]).
  all: try (rewrite ?elem_of_app, ?elem_of_cons, ?elem_of_nil in Hr;
            destruct_or?; try done; by apply Hmerge in Hr).
  all: try done.
  - eexists (tr_m ++ [_]). by rewrite <- !app_assoc.
  - eexists (tr_m ++ [_; _]). by rewrite <- !app_assoc.
Qed.

(** A run of [/merge-and-upload] that called [remove]: the session had
    gone through, and the response is the one of a delivery, whatever
    [remove] came back with. *)
Lemma cleanup_run req w s' res paths r :
  Service.post_merge_and_upload P req (start w) = (s', res) →
  Remove paths r ∈ trace s' →
  ∃ tr_m a xml,
    Forall merge_event tr_m ∧
    transfer_ok P (assoc "xmlContent" (body req)) (assoc "xmlFilename" (body req))
      (assoc "pdfFilename" (body req)) (Delivered xml r) ∧
    paths = elements (assoc "storagePaths" (body req)) ∧
    trace s' = tr_m ++ transfer_events paths a (assoc "ftp" (body req))
                         (assoc "xmlFilename" (body req))
                         (assoc "pdfFilename" (body req)) (Delivered xml r) ∧
    res = Returned (delivered_response a (assoc "xmlFilename" (body req))
                      (assoc "pdfFilename" (body req)) xml).
Proof.
  intros Hrun Hin. pose proof (post_merge_and_upload_cases req w) as H.
  rewrite Hrun in H.
  destruct (upload_rejection P req).
  { destruct H as [-> _]. by apply elem_of_nil in Hin. }
  unfold delivery_run in H.
  destruct (toString (assoc "orderId" (body req)));
    [|destruct H as [Htr _]; rewrite Htr in Hin; by apply elem_of_nil in Hin].
  destruct (toString (assoc "format" (body req)));
    [|destruct H as [Htr _]; rewrite Htr in Hin; by apply elem_of_nil in Hin].
  destruct (toString (assoc "pdfFilename" (body req)));
    [|destruct H as [Htr _]; rewrite Htr in Hin; by apply elem_of_nil in Hin].
  destruct H as [(tr_m & e' & Hm & Htr & _)|(tr_m & a & t & Hm & Hok & H)].
  { rewrite Htr in Hin. apply elem_of_app in Hin as [Hin|Hin].
    - by apply (merge_event_elem _ _ Hm) in Hin.
    - apply elem_of_cons in Hin as [?|Hin]; [done|]. by apply elem_of_nil in Hin. }
  apply merge_run_events in Hm.
  assert (∀ ev, ev ∈ tr_m → merge_event ev) as Hmerge
    by (intros ev; apply merge_event_elem, Hm).
  destruct t as [e'| |e'| |e'|xml e'|xml r']; cbn in H;
    [destruct H as [Htr Hres]; rewrite Htr in Hin;
     unfold access_event, pdf_event, xml_event in Hin;
     rewrite ?elem_of_app, ?elem_of_cons, ?elem_of_nil in Hin;
     destruct_or?; try done; by apply Hmerge in Hin ..|].
  destruct H as [Htr Hres]. exists tr_m, a, xml.
  assert (paths = elements (assoc "storagePaths" (body req)) ∧ r = r') as [-> ->].
  { rewrite Htr in Hin. unfold access_event, pdf_event, xml_event, cleanup_events in Hin.
    destruct xml, r'; cbn in Hin;
      rewrite ?elem_of_app, ?elem_of_cons, ?elem_of_nil in Hin;
      destruct_or?; try done; try (by apply Hmerge in Hin); by simplify_eq. }
  done.
Qed.

End Runs.

(** ** Requests at the gate, and the status of an answer *)

Section Gate.
Context {W Page : Type} (P : Platform W Page).

Lemma authorized_presents_secret (req : request) :
  unauthorized P (x_api_secret req) = false ↔ presents_secret P req.
Proof.
  unfold unauthorized, presents_secret. destruct (x_api_secret req) as [s|].
  - destruct (String.eqb_spec s "") as [->|Hs]; cbn.
    + split; [done|]. by intros (s & [= <-] & ? & _).
    + rewrite negb_false_iff, bool_decide_eq_true. split.
      * intros <-. by exists s.
      * by intros (s' & [= <-] & _ & ->).
  - cbn. split; [done|]. by intros (s & ? & _).
Qed.

Lemma store_run_status f label prefix paths orderId format tr res r :
  store_run P f label prefix paths orderId format tr res →
  res = Returned r → status r = 200 ∨ status r = 500.
Proof.
  unfold store_run. intros H ->.
  destruct (toString orderId); [|by destruct H].
  destruct (toString format); [|by destruct H].
  destruct H as [(e & _ & _ & [= ->])|[(tr_m & e & _ & _ & [= ->])
                |(tr_m & a & u & _ & _ & [= ->])]]; [by right..|].
  destruct u as [[msg|]|e]; cbn; auto.
Qed.

Lemma delivery_run_status req tr res r :
  delivery_run P req tr res →
  res = Returned r → status r = 200 ∨ status r = 500.
Proof.
  unfold delivery_run. intros H ->.
  destruct (toString (assoc "orderId" (body req))); [|by destruct H].
  destruct (toString (assoc "format" (body req))); [|by destruct H].
  destruct (toString (assoc "pdfFilename" (body req))); [|by destruct H].
  destruct H as [(tr_m & e & _ & _ & [= ->])|(tr_m & a & t & _ & _ & H)];
    [by right|].
  destruct t; cbn in H; destruct H as [_ H]; injection H as ->; auto.
Qed.

(** The log line a handler writes before its [try] block throws when a
    value it interpolates does not convert to a string. *)
Lemma merge_crash f req w :
  merge_rejection P f req = None →
  (∃ v, v ∈ logged_first false req ∧ toString v = None) →
  post_merge_of P f req (start w) = (start w, Threw not_primitive).
Proof.
  unfold merge_rejection. intros Hacc (v & Hv & Hnone).
  destruct (unauthorized P (x_api_secret req)) eqn:Hauth; [done|].
  destruct (invalid_storagePaths (assoc "storagePaths" (body req))) eqn:Hpaths;
    [done|].
  assert (match toString (assoc "orderId" (body req)),
                toString (assoc "format" (body req)) with
          | Some _, Some _ => False
          | _, _ => True
          end) as Hlog.
  { cbn in Hv. rewrite !elem_of_cons, elem_of_nil in Hv.
    destruct Hv as [->|[->|[]]]; rewrite Hnone; [done|].
    by destruct (toString (assoc "orderId" (body req))). }
  destruct f; cbn [post_merge_of];
    unfold IndexJs.post_merge, Service.post_merge, Service.checkAuth,
      Service.merge_handler;
    rewrite Hauth, Hpaths, run_bind, run_console_log_two;
    by destruct (toString (assoc "orderId" (body req))),
                (toString (assoc "format" (body req))).
Qed.

Lemma upload_crash req w :
  upload_rejection P req = None →
  (∃ v, v ∈ logged_first true req ∧ toString v = None) →
  Service.post_merge_and_upload P req (start w) = (start w, Threw not_primitive).
Proof.
  unfold upload_rejection. intros Hacc (v & Hv & Hnone).
  destruct (unauthorized P (x_api_secret req)) eqn:Hauth; [done|].
  destruct (invalid_storagePaths (assoc "storagePaths" (body req))) eqn:Hpaths;
    [done|].
  destruct (Service.invalid_ftpConfig (assoc "ftp" (body req))) eqn:Hftp; [done|].
  destruct (negb (truthy (assoc "pdfFilename" (body req)))) eqn:Hpdf; [done|].
  assert (match toString (assoc "orderId" (body req)),
                toString (assoc "format" (body req)),
                toString (assoc "pdfFilename" (body req)) with
          | Some _, Some _, Some _ => False
          | _, _, _ => True
          end) as Hlog.
  { cbn in Hv. rewrite !elem_of_cons, elem_of_nil in Hv.
    destruct Hv as [->|[->|[->|[]]]]; rewrite Hnone; try done;
      destruct (toString (assoc "orderId" (body req))); try done;
      by destruct (toString (assoc "format" (body req))). }
  unfold Service.post_merge_and_upload, Service.checkAuth,
    Service.merge_and_upload_handler.
  rewrite Hauth, Hpaths, Hftp, Hpdf, run_bind, run_console_log_three.
  by destruct (toString (assoc "orderId" (body req))),
              (toString (assoc "format" (body req))),
              (toString (assoc "pdfFilename" (body req))).
Qed.

End Gate.

(** ** More on the shape of a merge run *)

Section Failures.
Context {W Page : Type} (P : Platform W Page).

Lemma batch_events_merge (bs : list (batch Page)) :
  Forall merge_event (bs ≫= batch_events).
Proof.
  induction bs as [|b bs IH]; [constructor|].
  rewrite bind_cons. apply Forall_app. split; [|done]. by repeat constructor.
Qed.

Lemma batch_event_cases (bs : list (batch Page)) e :
  e ∈ bs ≫= batch_events →
  ∃ b, b ∈ bs ∧ (e = Download (batch_path b) (downloaded (batch_raw b)) ∨
                 e = Load (batch_raw b) (Returned (batch_pages b))).
Proof.
  intros (b & Hin & Hb)%list_elem_of_bind. exists b. split; [done|].
  unfold batch_events in Hin. rewrite !elem_of_cons, elem_of_nil in Hin.
  destruct Hin as [->|[->|[]]]; auto.
Qed.

(** A merge run with a failed fetch: it is the last event, and its error
    is the merge's. *)
Lemma merge_run_failed_fetch f paths tr res path r :
  merge_run P f paths tr res → Download path r ∈ tr → fetch_failed r →
  res = Threw (fetch_error path r) ∧
  ∃ before, Forall merge_event before ∧ tr = before ++ [Download path r].
Proof.
  intros (bs & x & Hbs & Hok & -> & ->) Hin Hfailed.
  apply elem_of_app in Hin as [Hin|Hin].
  { apply batch_event_cases in Hin as (b & _ & [[= -> ->]|?]); [|done].
    by destruct (downloaded_not_failed _ Hfailed). }
  destruct x as [out|e|p q|p raw e|p]; cbn in Hin;
    rewrite ?elem_of_cons, ?elem_of_nil in Hin; destruct_or?; simplify_eq.
  - split; [done|]. exists (bs ≫= batch_events). split; [|done].
    apply batch_events_merge.
  - by destruct (downloaded_not_failed _ Hfailed).
Qed.

(** A merge run with a batch that did not parse. *)
Lemma merge_run_failed_parse f paths tr res raw e :
  merge_run P f paths tr res → Load raw (Threw e) ∈ tr →
  res = Threw e ∧
  (∃ k path, paths !! k = Some path ∧
             (fetches tr).*1 = take (S k) paths ∧
             fetches tr !! k = Some (path, downloaded raw)) ∧
  (∃ before, Forall merge_event before ∧
             tr = before ++ [Load raw (Threw e)]) ∧
  (∀ ps o, Save ps o ∉ tr).
Proof.
  intros (bs & x & Hbs & Hok & -> & ->) Hin.
  apply elem_of_app in Hin as [Hin|Hin].
  { by apply batch_event_cases in Hin as (b & _ & [?|?]). }
  destruct x as [out|e'|p q|p raw' e'|p]; cbn in Hin;
    rewrite ?elem_of_cons, ?elem_of_nil in Hin; destruct_or?; simplify_eq.
  rename raw' into raw, e' into e.
  destruct Hok as ([after Hpaths] & _ & _). subst paths.
  assert (fetches ((bs ≫= batch_events)
                   ++ ending_events (serialized P f (merged_pages bs))
                        (ParseFailed p raw e))
          = ((λ b, (batch_path b, downloaded (batch_raw b))) <$> bs)
            ++ [(p, downloaded raw)]) as Hf.
  { unfold fetches. rewrite omap_app. fold (fetches (bs ≫= batch_events)).
    by rewrite fetches_batches. }
  split_and!.
  - done.
  - exists (length bs), p. rewrite Hf. split_and!.
    + rewrite <- app_assoc, lookup_app_r by (by rewrite length_fmap).
      by rewrite length_fmap, Nat.sub_diag.
    + rewrite fmap_app, <- list_fmap_compose. cbn.
      rewrite take_app_length'; [done|].
      rewrite length_app, length_fmap. cbn. lia.
    + rewrite lookup_app_r by (by rewrite length_fmap).
      by rewrite length_fmap, Nat.sub_diag.
  - exists ((bs ≫= batch_events) ++ [Download p (downloaded raw)]).
    split; [|by rewrite <- app_assoc].
    apply Forall_app. split; [apply batch_events_merge|by repeat constructor].
  - intros ps o [Hs|Hs]%elem_of_app.
    + by apply no_save_in_batches in Hs.
    + cbn in Hs. rewrite !elem_of_cons, elem_of_nil in Hs. by destruct_or?.
Qed.

(** The message of the error of a failed fetch names the batch. *)
Lemma fetch_error_text path dr p :
  fetched dr = None → toString path = Some p →
  message_or_string (fetch_error path (Returned dr)) =
  "Failed to download " +:+ p +:+ ": " +:+ default "undefined" (error dr).
Proof. intros _ Hp. cbn. unfold download_error. by rewrite Hp. Qed.

End Failures.

(** ** The [/merge-and-upload] route, step by step *)

Section Delivery.
Context {W Page : Type} (P : Platform W Page).

(** A request that got past the checks and the first log line: the client
    could not be created, the merge threw, the host of the FTP server does
    not print, or the run went into the FTP session. *)
Lemma upload_route_run req w :
  upload_rejection P req = None →
  (∀ v, v ∈ logged_first true req → is_Some (toString v)) →
  let field k := assoc k (body req) in
  let paths := elements (field "storagePaths") in
  let label := "[merge-and-upload] Failed:" in
  let '(s', res) := Service.post_merge_and_upload P req (start w) in
  (∃ e, createClient P = Threw e ∧ trace s' = [ConsoleError label e] ∧
        res = Returned (failure_response e)) ∨
  (∃ tr_m e, merge_run P service_js paths tr_m (Threw e) ∧
        trace s' = tr_m ++ [ConsoleError label e] ∧
        res = Returned (failure_response e)) ∨
  (∃ tr_m a, merge_run P service_js paths tr_m (Returned a) ∧
        toString (get (field "ftp") "host") = None ∧
        trace s' = tr_m ++ [ConsoleError label not_primitive] ∧
        res = Returned (failure_response not_primitive)) ∨
  (∃ tr_m a t, merge_run P service_js paths tr_m (Returned a) ∧
        transfer_ok P (field "xmlContent") (field "xmlFilename")
          (field "pdfFilename") t ∧
        trace s' = tr_m
                   ++ transfer_events paths a (field "ftp") (field "xmlFilename")
                        (field "pdfFilename") t
                   ++ match transfer_error t with
                      | Some e => [ConsoleError label (ftp_failed e)]
                      | None => []
                      end ∧
        res = match transfer_error t with
              | Some e => Returned (failure_response (ftp_failed e))
              | None => transfer_result a (field "xmlFilename")
                          (field "pdfFilename") t
              end).
Proof.
  intros Hacc Hlog field paths label. unfold upload_rejection in Hacc.
  destruct (unauthorized P (x_api_secret req)) eqn:Hauth; [done|].
  destruct (invalid_storagePaths (assoc "storagePaths" (body req))) eqn:Hpaths;
    [done|].
  destruct (Service.invalid_ftpConfig (assoc "ftp" (body req))) eqn:Hftp; [done|].
  destruct (negb (truthy (assoc "pdfFilename" (body req)))) eqn:Hpdf; [done|].
  unfold Service.post_merge_and_upload, Service.checkAuth,
    Service.merge_and_upload_handler.
  rewrite Hauth, Hpaths, Hftp, Hpdf.
  apply valid_storagePaths in Hpaths as (p0 & rest & Hpaths).
  subst paths field. cbv beta zeta. rewrite Hpaths. cbn [elements].
  rewrite run_bind, run_console_log_three.
  destruct (Hlog (assoc "orderId" (body req))) as [o ->]; [set_solver|].
  destruct (Hlog (assoc "format" (body req))) as [fm ->]; [set_solver|].
  destruct (Hlog (assoc "pdfFilename" (body req))) as [pn ->]; [set_solver|].
  unfold try_catch. rewrite run_bind. unfold eval at 1.
  destruct (createClient P) as [[]|e] eqn:Hc.
  2:{ run. left. by exists e. }
  rewrite run_bind.
  pose proof (mergeBatches_run P p0 rest w) as Hrun.
  destruct (Service.mergeBatches P (p0 :: rest) (start w)) as [s1 [a|e]];
    destruct Hrun as [Hrun _].
  2:{ run. right. left. by exists (trace s1), e. }
  rewrite run_bind, run_console_log_one.
  destruct (toString (get (assoc "ftp" (body req)) "host")) as [h|] eqn:Hh.
  2:{ run. right. right. left. by exists (trace s1), a. }
  destruct (deliver_run P (p0 :: rest) a (assoc "ftp" (body req))
              (assoc "xmlContent" (body req)) (assoc "xmlFilename" (body req))
              (assoc "pdfFilename" (body req)) s1) as (t & w' & Hok & ->).
  destruct t; run; right; right; right; exists (trace s1), a; eexists;
    (split; [done|]); (split; [exact Hok|]); cbn;
    rewrite <- ?app_assoc, ?app_nil_r; split; reflexivity.
Qed.

End Delivery.

(** ** Which calls a run makes *)

Section Calls.
Context {W Page : Type} (P : Platform W Page).

Lemma filter_merge_events (f : event Page → bool) (tr : list (event Page)) :
  (∀ e, merge_event e → f e = false) →
  Forall merge_event tr → List.filter f tr = [].
Proof.
  intros Hf. induction 1 as [|e tr He _ IH]; [done|].
  cbn. by rewrite (Hf e He).
Qed.

Lemma session_app ph (tr1 tr2 : list (event Page)) :
  session ph (tr1 ++ tr2) =
  match session ph tr1 with
  | Some ph' => session ph' tr2
  | None => None
  end.
Proof.
  revert ph. induction tr1 as [|e tr1 IH]; intros ph; [done|].
  cbn. destruct (session_step ph e); [apply IH|done].
Qed.

Lemma session_merge_events ph (tr : list (event Page)) :
  Forall merge_event tr → session ph tr = Some ph.
Proof.
  induction 1 as [|e tr He _ IH]; [done|].
  cbn. by destruct e, ph.
Qed.

(** The trace of every run of [/merge]. *)
Lemma merge_route_trace f req w :
  let tr := trace (post_merge_of P f req (start w)).1 in
  ∃ tr_m rest,
    Forall merge_event tr_m ∧ tr = tr_m ++ rest ∧
    (rest = [] ∨ (∃ e, rest = [ConsoleError (failure_label f) e]) ∨
     ∃ path body r,
       rest = Upload path body true r ::
              match r with
              | Returned None => []
              | Returned (Some msg) =>
                  [ConsoleError (failure_label f) (Error (upload_prefix f +:+ msg))]
              | Threw e => [ConsoleError (failure_label f) e]
              end).
Proof.
  pose proof (post_merge_of_cases P f req w) as H.
  destruct (post_merge_of P f req (start w)) as [s' res]. cbn [fst].
  destruct (merge_rejection P f req).
  { destruct H as [-> _]. exists [], []. by auto. }
  unfold store_run in H.
  destruct (toString (assoc "orderId" (body req))) as [o|];
    [|destruct H as [-> _]; exists [], []; by auto].
  destruct (toString (assoc "format" (body req))) as [fm|];
    [|destruct H as [-> _]; exists [], []; by auto].
  destruct H as [(e & _ & -> & _)|[(tr_m & e & Hm & -> & _)
                |(tr_m & a & u & Hm & -> & _)]].
  - exists [], [ConsoleError (failure_label f) e].
    split_and!; [constructor|done|right; left; by eexists].
  - exists tr_m, [ConsoleError (failure_label f) e].
    split_and!; [by eapply merge_run_events|done|right; left; by eexists].
  - exists tr_m, (upload_events (failure_label f) (upload_prefix f)
                    (destination o fm) a u).
    split; [by eapply merge_run_events|]. split; [done|].
    right. right. by eexists _, _, u.
Qed.

(** The trace of every run of [/merge-and-upload]. *)
Lemma upload_route_trace req w :
  let field k := assoc k (body req) in
  let tr := trace (Service.post_merge_and_upload P req (start w)).1 in
  ∃ tr_m rest,
    Forall merge_event tr_m ∧ tr = tr_m ++ rest ∧
    (rest = [] ∨ (∃ e, rest = [ConsoleError "[merge-and-upload] Failed:" e]) ∨
     ∃ a t,
       transfer_ok P (field "xmlContent") (field "xmlFilename")
         (field "pdfFilename") t ∧
       rest = transfer_events (elements (field "storagePaths")) a (field "ftp")
                (field "xmlFilename") (field "pdfFilename") t
              ++ match transfer_error t with
                 | Some e =>
                     [ConsoleError "[merge-and-upload] Failed:" (ftp_failed e)]
                 | None => []
                 end).
Proof.
  intros field. pose proof (post_merge_and_upload_cases P req w) as H.
  destruct (Service.post_merge_and_upload P req (start w)) as [s' res]. cbn [fst].
  destruct (upload_rejection P req).
  { destruct H as [-> _]. exists [], []. by auto. }
  unfold delivery_run in H.
  destruct (toString (assoc "orderId" (body req)));
    [|destruct H as [-> _]; exists [], []; by auto].
  destruct (toString (assoc "format" (body req)));
    [|destruct H as [-> _]; exists [], []; by auto].
  destruct (toString (assoc "pdfFilename" (body req)));
    [|destruct H as [-> _]; exists [], []; by auto].
  destruct H as [(tr_m & e & Hm & -> & _)|(tr_m & a & t & Hm & Hok & H)].
  - exists tr_m, [ConsoleError "[merge-and-upload] Failed:" e].
    split_and!; [done|done|right; left; by eexists].
  - exists tr_m. eexists. split; [by eapply merge_run_events|].
    split; [|right; right; exists a, t; split; [exact Hok|reflexivity]].
    destruct t; cbn in H |- *; destruct H as [-> _];
      by rewrite <- ?app_assoc, ?app_nil_r.
Qed.

End Calls.

(** ** The two files, run side by side *)

Section SideBySide.
Context {W Page : Type} (P : Platform W Page).
Implicit Types (s : state W Page).

(** On paths that print as strings the two files gather the same
    batches, from the same fetches and parses. *)
Lemma gather_agree (paths : list value) w :
  Forall (λ p, is_Some (toString p)) paths →
  gather P index_js paths w = gather P service_js paths w.
Proof.
  intros Hpaths. revert w.
  induction Hpaths as [|p paths [t Hp] _ IH]; intros w; [done|].
  cbn [gather names_batches andb].
  rewrite bool_decide_eq_false_2 by (by rewrite Hp).
  destruct (storage_download P p w) as [w1 [dr|e]]; [|done].
  destruct (fetched dr) as [b|]; [|done].
  destruct (pdf_load P b) as [qs|e]; [|done].
  by rewrite IH.
Qed.

End SideBySide.


(** * The properties *)

(** C10.  A request to [/merge] (in either file) or to [/merge-and-upload]
    whose [x-api-secret] header is missing, or is not the configured
    secret, is answered [401 Unauthorized]; the state of the run is the
    one it started in: no collaborator was called, nothing was fetched,
    merged or uploaded. *)
Theorem unauthorized_request_rejected {W Page} (P : Platform W Page)
    (w : W) (req : request) :
  x_api_secret req = None ∨ x_api_secret req ≠ MERGE_API_SECRET P →
  (∀ f, post_merge_of P f req (start w) =
        (start w, Returned (Response 401 (ErrorBody "Unauthorized")))) ∧
  Service.post_merge_and_upload P req (start w) =
    (start w, Returned (Response 401 (ErrorBody "Unauthorized"))).
Proof.
  intros Hsecret. apply unauthorized_missing_or_different in Hsecret.
  split.
  - intros f. pose proof (post_merge_of_cases P f req w) as H.
    unfold merge_rejection in H. rewrite Hsecret in H.
    destruct (post_merge_of P f req (start w)) as [s' res].
    by destruct H as [-> ->].
  - pose proof (post_merge_and_upload_cases P req w) as H.
    unfold upload_rejection in H. rewrite Hsecret in H.
    destruct (Service.post_merge_and_upload P req (start w)) as [s' res].
    by destruct H as [-> ->].
Qed.

(** C5.  A request whose [storagePaths] is not a non-empty array (it is
    missing, not an array, or empty) is turned away before any collaborator
    is called: the state of the run is the one it started in, so nothing
    was fetched, and the response is the validation error, status 400,
    when the request is authorized, and [401 Unauthorized] otherwise. *)
Theorem invalid_batch_list_rejected {W Page} (P : Platform W Page)
    (w : W) (req : request) :
  (∀ p0 rest, assoc "storagePaths" (body req) ≠ Arr (p0 :: rest)) →
  let answer msg :=
    if unauthorized P (x_api_secret req)
    then Response 401 (ErrorBody "Unauthorized")
    else Response 400 (ErrorBody msg) in
  (∀ f, post_merge_of P f req (start w) =
        (start w, Returned (answer (storagePaths_message f)))) ∧
  Service.post_merge_and_upload P req (start w) =
    (start w, Returned (answer "storagePaths is required")).
Proof.
  intros Hpaths answer.
  assert (invalid_storagePaths (assoc "storagePaths" (body req)) = true) as Hbad.
  { destruct (invalid_storagePaths _) eqn:H; [done|].
    apply valid_storagePaths in H as (p0 & rest & H). by destruct (Hpaths p0 rest). }
  split.
  - intros f. pose proof (post_merge_of_cases P f req w) as H.
    unfold merge_rejection in H. rewrite Hbad in H. unfold answer.
    destruct (post_merge_of P f req (start w)) as [s' res].
    by destruct (unauthorized P (x_api_secret req)); destruct H as [-> ->].
  - pose proof (post_merge_and_upload_cases P req w) as H.
    unfold upload_rejection in H. rewrite Hbad in H. unfold answer.
    destruct (Service.post_merge_and_upload P req (start w)) as [s' res].
    by destruct (unauthorized P (x_api_secret req)); destruct H as [-> ->].
Qed.

(** C1.  The merge of a non-empty list of batches, in either file.  When
    it returns, every batch of the list was fetched and parsed, in the
    order of the list; the document that was serialized has the pages of
    the first batch, then those of the second, and so on, each batch's
    pages in their own order; and the page count returned is the sum of
    the page counts of the batches.  In [index.js] the buffers have been
    zero-filled by then, so each page is serialized as it reads through
    the zeros, at the same position.  And the merge does return, with
    that page count, whenever the collaborators go along: every fetch
    gives the bytes of its batch, these parse, and the pages serialize. *)
Theorem merged_pages_in_batch_order {W Page} (P : Platform W Page)
    (f : source_file) (w : W) (p0 : value) (rest : list value)
    (s' : state W Page) (res : outcome artifact) :
  merge_of P f (p0 :: rest) (start w) = (s', res) →
  (∀ a, res = Returned a → merged_in_order P f (p0 :: rest) (trace s') a) ∧
  (∀ Inv raw pgs out,
     Inv w → cooperative P f Inv (p0 :: rest) raw pgs out →
     res = Returned (Artifact out (sum_list (length <$> (pgs <$> p0 :: rest))))).
Proof.
  intros Hrun. split.
  - intros a ->. pose proof (merge_of_run P f p0 rest w) as H.
    rewrite Hrun in H. by apply merge_run_returned.
  - intros Inv raw pgs out Hinv Hcoop.
    destruct (merge_of_returns P f Inv raw pgs out p0 rest w Hinv Hcoop)
      as (s1 & Hs1 & _).
    rewrite Hrun in Hs1. injection Hs1 as _ ->.
    by rewrite <- (length_concat_sum (pgs <$> p0 :: rest)).
Qed.

(** C4.  When the fetch of batch [k] fails (the call throws, or resolves
    with an error or without data), in either file: the batches fetched
    are exactly batches [0] to [k] of the list, each once and in order,
    so no later batch was fetched and none was fetched again; nothing
    was serialized; and the merge throws the error of that fetch. *)
Theorem fetch_failure_aborts {W Page} (P : Platform W Page)
    (f : source_file) (w : W) (p0 : value) (rest : list value)
    (s' : state W Page) (res : outcome artifact)
    (k : nat) (path : value) (r : outcome download_result) :
  merge_of P f (p0 :: rest) (start w) = (s', res) →
  fetches (trace s') !! k = Some (path, r) →
  fetch_failed r →
  (p0 :: rest) !! k = Some path ∧
  (fetches (trace s')).*1 = take (S k) (p0 :: rest) ∧
  res = Threw (fetch_error path r) ∧
  (∀ ps o, Save ps o ∉ trace s').
Proof.
  intros Hrun Hk Hfailed. pose proof (merge_of_run P f p0 rest w) as H.
  rewrite Hrun in H. by eapply merge_run_fetch_failed.
Qed.

(** C8.  [mergeBatches] on a list of one batch: when the fetch gives
    [raw], [raw] parses to the pages [ps] and [ps] serializes to [out], the
    merge returns [out] with the page count of the batch; the trace is the
    fetch, the parse and the serialization of exactly the pages that were
    parsed, none lost and none added. *)
Theorem single_batch_round_trip {W Page} (P : Platform W Page)
    (w w' : W) (p : value) (raw : bytes) (ps : list Page) (out : bytes) :
  storage_download P p w = (w', downloaded raw) →
  pdf_load P raw = Returned ps →
  pdf_save P ps = Returned out →
  ∃ s', Service.mergeBatches P [p] (start w)
        = (s', Returned (Artifact out (length ps))) ∧
        trace s' = [Download p (downloaded raw); Load raw (Returned ps);
                    Save ps (Returned out)] ∧
        world s' = w'.
Proof.
  intros Hfetch Hload Hsave. unfold Service.mergeBatches.
  rewrite run_bind, run_downloadBatch. change (item [p] 0) with p.
  cbn [start world trace heap history]. rewrite Hfetch.
  cbn [fetched downloaded data error empty_memory next buffers documents].
  rewrite insert_empty.
  rewrite run_bind, (run_PDFDocument_load P 0 raw) by apply lookup_singleton_eq.
  rewrite Hload. cbn [world trace heap history buffers documents next].
  rewrite insert_empty. unfold for_range, save, getPageCount. cbn [length seq for_each Nat.sub].
  run. rewrite lookup_singleton_eq. run. rewrite content_viewing, Hsave. run.
  rewrite lookup_singleton_eq. run. unfold viewing. rewrite length_fmap.
  by eexists.
Qed.


(** C3.  In a run of [/merge-and-upload]: when an FTP upload fails, of the
    PDF or of the sidecar, the client is closed right after it, the
    response is the failure (status 500), and [remove] is never called on
    the source batches; and when [remove] was called, it came after the
    upload of the PDF and, when a sidecar was requested, of the sidecar,
    both successful, and after the close of the session. *)
Theorem failed_upload_fails_delivery {W Page} (P : Platform W Page)
    (w : W) (req : request) (s' : state W Page) (res : outcome response) :
  Service.post_merge_and_upload P req (start w) = (s', res) →
  (∀ payload name e,
     FtpUploadFrom payload name (Threw e) ∈ trace s' →
     (∃ before,
        trace s' = before ++ [FtpUploadFrom payload name (Threw e); FtpClose;
                              ConsoleError "[merge-and-upload] Failed:"
                                (ftp_failed e)]) ∧
     res = Returned (Response 500
                       (ErrorBody ("FTP upload failed: " +:+ exn_message e))) ∧
     (∀ paths r, Remove paths r ∉ trace s')) ∧
  (∀ paths r,
     Remove paths r ∈ trace s' →
     ∃ before a xml,
       trace s' =
         before
         ++ [pdf_event a (assoc "pdfFilename" (body req)) (Returned ())]
         ++ match xml with
            | Some x => [xml_event (assoc "xmlFilename" (body req)) x (Returned ())]
            | None => []
            end
         ++ FtpClose :: cleanup_events paths r ∧
       (sidecar_requested (assoc "xmlContent" (body req))
          (assoc "xmlFilename" (body req)) = true → is_Some xml)).
Proof.
  intros Hrun. split.
  - intros payload name e Hin. by eapply failed_upload_run.
  - intros paths r Hin.
    destruct (cleanup_run P req w s' res paths r Hrun Hin)
      as (tr_m & a & xml & _ & Hok & -> & Htr & _).
    exists (tr_m ++ [access_event (assoc "ftp" (body req)) (Returned ())]), a, xml.
    split.
    + rewrite Htr. cbn. by rewrite <- !app_assoc.
    + destruct xml; [by eauto|]. cbn in Hok. by rewrite Hok.
Qed.

(** C6, where the code departs from it.  When [remove] resolves with an
    error, the way the storage client reports a failure, nothing is
    warned: the run has no [console.warn] at all.  The response is the
    successful one. *)
Theorem returned_cleanup_error_not_warned {W Page} (P : Platform W Page)
    (w : W) (req : request) (s' : state W Page) (res : outcome response)
    (paths : list value) (msg : string) :
  Service.post_merge_and_upload P req (start w) = (s', res) →
  Remove paths (Returned (Some msg)) ∈ trace s' →
  (∀ label text, ConsoleWarn label text ∉ trace s') ∧
  ∃ b, res = Returned (Response 200 b).
Proof.
  intros Hrun Hin.
  destruct (cleanup_run P req w s' res paths _ Hrun Hin)
    as (tr_m & a & xml & Hm & _ & -> & Htr & ->).
  split; [|by eexists].
  intros label text Hw. rewrite Htr in Hw.
  destruct xml; cbn in Hw;
    unfold access_event, pdf_event, xml_event, cleanup_events in Hw;
    rewrite ?elem_of_app, ?elem_of_cons, ?elem_of_nil in Hw;
    destruct_or?; try done; by apply (merge_event_elem _ _ Hm) in Hw.
Qed.

(** What the cleanup step does keep: whatever [remove] comes back with,
    the response is the one of the delivery; and when [remove] throws, the
    message of the exception is warned, last in the run. *)
Lemma cleanup_failure_keeps_outcome {W Page} (P : Platform W Page)
    (w : W) (req : request) (s' : state W Page) (res : outcome response)
    (paths : list value) (r : outcome error_result) :
  Service.post_merge_and_upload P req (start w) = (s', res) →
  Remove paths r ∈ trace s' →
  (∃ a xml, res = Returned (delivered_response a (assoc "xmlFilename" (body req))
                              (assoc "pdfFilename" (body req)) xml)) ∧
  (∀ e, r = Threw e →
     ∃ before, trace s' =
       before ++ [Remove paths r;
                  ConsoleWarn "[merge-and-upload] Cleanup warning:" (exn_message e)]).
Proof.
  intros Hrun Hin.
  destruct (cleanup_run P req w s' res paths _ Hrun Hin)
    as (tr_m & a & xml & Hm & _ & -> & Htr & ->).
  split; [by eauto|]. intros e ->. rewrite Htr.
  destruct xml; cbn.
  - eexists (tr_m ++ [_; _; _; _]). by rewrite <- !app_assoc.
  - eexists (tr_m ++ [_; _; _]). by rewrite <- !app_assoc.
Qed.

(** C7, as the code has it.  In a successful run of [/merge-and-upload]
    the PDF is the first upload.  When both the sidecar content and the
    sidecar filename are supplied and truthy, the sidecar is the second
    upload, right after the PDF, under its requested filename, and the
    response names that file.  Otherwise the PDF is the only upload and the
    response has [null] for the sidecar. *)
Theorem sidecar_follows_pdf {W Page} (P : Platform W Page)
    (w : W) (req : request) (s' : state W Page) (b : json_body) :
  Service.post_merge_and_upload P req (start w)
  = (s', Returned (Response 200 b)) →
  let xmlContent := assoc "xmlContent" (body req) in
  let xmlFilename := assoc "xmlFilename" (body req) in
  let pdfFilename := assoc "pdfFilename" (body req) in
  ∃ before a r,
    (∀ payload name o, FtpUploadFrom payload name o ∉ before) ∧
    if sidecar_requested xmlContent xmlFilename
    then
      ∃ xml,
        Buffer_from_utf8 P xmlContent = Returned xml ∧
        trace s' = before
                   ++ [pdf_event a pdfFilename (Returned ());
                       xml_event xmlFilename xml (Returned ()); FtpClose]
                   ++ cleanup_events (elements (assoc "storagePaths" (body req))) r ∧
        b = DeliveredBody (length (mergedBytes a)) (pageCount a) true
              pdfFilename xmlFilename
    else
      trace s' = before
                 ++ [pdf_event a pdfFilename (Returned ()); FtpClose]
                 ++ cleanup_events (elements (assoc "storagePaths" (body req))) r ∧
      b = DeliveredBody (length (mergedBytes a)) (pageCount a) true
            pdfFilename Null.
Proof.
  intros Hrun xmlContent xmlFilename pdfFilename.
  destruct (delivered_run P req w s' b Hrun) as (tr_m & a & xml & r & Hm & Hok & Htr & Hb).
  apply merge_run_events in Hm.
  exists (tr_m ++ [access_event (assoc "ftp" (body req)) (Returned ())]), a, r.
  split.
  { intros payload name o [Hin|Hin]%elem_of_app.
    - by apply (merge_event_elem _ _ Hm) in Hin.
    - apply elem_of_cons in Hin as [?|Hin]; [done|]. by apply elem_of_nil in Hin. }
  injection Hb as ->. fold xmlContent xmlFilename pdfFilename in Hok, Htr |- *.
  destruct xml as [xml|]; cbn in Hok.
  - destruct Hok as [-> Hxml]. exists xml. split_and!; try done.
    rewrite Htr. cbn. by rewrite <- !app_assoc.
  - rewrite Hok. split; [|done]. rewrite Htr. cbn. by rewrite <- !app_assoc.
Qed.

(** C9.  In either file, a run of [/merge] that answers 200 made one
    upload, the last step of the run: of the serialized merge, to the path
    [temp/<orderId>/merged_<format>.pdf], a function of the order
    identifier and the format of the request alone, with [upsert: true];
    the response carries that path, the length of what was uploaded and
    the page count of the merge.  And a request that passes the checks is
    answered so, whether or not the path exists already, when the
    collaborators go along: the client is created, the batches are fetched,
    parse and serialize, and the bucket takes the upload with
    [upsert: true]. *)
Theorem stored_at_destination {W Page} (P : Platform W Page)
    (f : source_file) (w : W) (req : request) :
  (∀ s' b,
     post_merge_of P f req (start w) = (s', Returned (Response 200 b)) →
     ∃ o fm tr_m a,
       toString (assoc "orderId" (body req)) = Some o ∧
       toString (assoc "format" (body req)) = Some fm ∧
       merged_in_order P f (elements (assoc "storagePaths" (body req))) tr_m a ∧
       trace s' = tr_m ++ [Upload ("temp/" +:+ o +:+ "/merged_" +:+ fm +:+ ".pdf")
                             (mergedBytes a) true (Returned None)] ∧
       b = MergedBody ("temp/" +:+ o +:+ "/merged_" +:+ fm +:+ ".pdf")
             (length (mergedBytes a)) (pageCount a)) ∧
  (∀ (Inv : W → Prop) raw pgs out o fm,
     let paths := elements (assoc "storagePaths" (body req)) in
     let path := "temp/" +:+ o +:+ "/merged_" +:+ fm +:+ ".pdf" in
     merge_rejection P f req = None →
     toString (assoc "orderId" (body req)) = Some o →
     toString (assoc "format" (body req)) = Some fm →
     createClient P = Returned () →
     Inv w → cooperative P f Inv paths raw pgs out →
     (∀ w', Inv w' →
        ∃ w'', storage_upload P path out true w' = (w'', Returned None)) →
     ∃ s' tr_m,
       post_merge_of P f req (start w)
       = (s', Returned (Response 200
                          (MergedBody path (length out)
                             (sum_list (length <$> (pgs <$> paths)))))) ∧
       trace s' = tr_m ++ [Upload path out true (Returned None)]).
Proof.
  split.
  - intros s' b Hrun.
    destruct (stored_run P f req w s' b Hrun)
      as (o & fm & tr_m & a & Ho & Hf & Hm & Htr & Hb).
    exists o, fm, tr_m, a. split_and!; try done. by apply merge_run_returned.
  - intros Inv raw pgs out o fm paths path Hpass Ho Hf Hclient Hinv Hcoop Hupload.
    destruct (post_merge_of_stores P f Inv raw pgs out o fm req w
                Hpass Ho Hf Hclient Hinv Hcoop Hupload) as (s' & tr_m & Hrun & Htr).
    exists s', tr_m. split; [|exact Htr].
    unfold paths. by rewrite <- (length_concat_sum (pgs <$> _)).
Qed.

(** * Further properties of the handlers *)

(** X1.  A request to [/merge] (in either file) or to [/merge-and-upload]
    is answered [401 Unauthorized] exactly when it does not present the
    configured secret: its [x-api-secret] header is missing, is the empty
    string, or is not the value of [MERGE_API_SECRET].  So when no secret
    is configured, or an empty one, no request gets past the check. *)
Theorem only_configured_secret_passes {W Page} (P : Platform W Page)
    (w : W) (req : request) :
  (∀ f, (post_merge_of P f req (start w)).2 = denied ↔ ¬ presents_secret P req) ∧
  ((Service.post_merge_and_upload P req (start w)).2 = denied
   ↔ ¬ presents_secret P req) ∧
  (MERGE_API_SECRET P = None ∨ MERGE_API_SECRET P = Some "" →
   ¬ presents_secret P req).
Proof.
  pose proof (authorized_presents_secret P req) as Hiff. split_and!.
  - intros f. pose proof (post_merge_of_cases P f req w) as H.
    destruct (post_merge_of P f req (start w)) as [s' res]. cbn [snd].
    unfold merge_rejection in H.
    destruct (unauthorized P (x_api_secret req)).
    { destruct H as [_ ->]. split; [|done]. by intros _ Hp%Hiff. }
    destruct (invalid_storagePaths _).
    { destruct H as [_ ->]. split; [done|]. intros []. by apply Hiff. }
    split; [|intros []; by apply Hiff]. intros ->.
    by destruct (store_run_status P _ _ _ _ _ _ _ _ _ H eq_refl).
  - pose proof (post_merge_and_upload_cases P req w) as H.
    destruct (Service.post_merge_and_upload P req (start w)) as [s' res].
    cbn [snd]. unfold upload_rejection in H.
    destruct (unauthorized P (x_api_secret req)).
    { destruct H as [_ ->]. split; [|done]. by intros _ Hp%Hiff. }
    destruct (invalid_storagePaths _).
    { destruct H as [_ ->]. split; [done|]. intros []. by apply Hiff. }
    destruct (Service.invalid_ftpConfig _).
    { destruct H as [_ ->]. split; [done|]. intros []. by apply Hiff. }
    destruct (negb _).
    { destruct H as [_ ->]. split; [done|]. intros []. by apply Hiff. }
    split; [|intros []; by apply Hiff]. intros ->.
    by destruct (delivery_run_status P _ _ _ _ H eq_refl).
  - intros [Hnone|Hempty] (s & _ & Hs & Heq); congruence.
Qed.

(** X2.  A request to [/merge-and-upload] that presents the secret and a
    non-empty list of batches, but whose [ftp] member is missing, is not an
    object, or lacks a non-empty [host], [user] or [password], is answered
    400 with the message of the FTP check, whatever else it holds; the
    state of the run is the one it started in: nothing was fetched and no
    connection was opened. *)
Theorem incomplete_ftp_config_rejected {W Page} (P : Platform W Page)
    (w : W) (req : request) (p0 : value) (rest : list value) (k : string) :
  presents_secret P req →
  assoc "storagePaths" (body req) = Arr (p0 :: rest) →
  k ∈ ["host"; "user"; "password"] →
  truthy (get (assoc "ftp" (body req)) k) = false →
  Service.post_merge_and_upload P req (start w) =
  (start w,
   Returned (Response 400
               (ErrorBody "ftp config (host, user, password) is required"))).
Proof.
  intros Hauth%authorized_presents_secret Hpaths Hk Hfalsy.
  pose proof (post_merge_and_upload_cases P req w) as H.
  destruct (Service.post_merge_and_upload P req (start w)) as [s' res].
  unfold upload_rejection in H. rewrite Hauth, Hpaths in H.
  assert (Service.invalid_ftpConfig (assoc "ftp" (body req)) = true) as Hftp.
  { unfold Service.invalid_ftpConfig.
    rewrite !elem_of_cons, elem_of_nil in Hk.
    destruct Hk as [->|[->|[->|[]]]]; rewrite Hfalsy; cbn;
      by rewrite ?orb_true_r. }
  rewrite Hftp in H. cbn in H. by destruct H as [-> ->].
Qed.

(** X3.  A request to [/merge-and-upload] that passes the checks of the
    secret, of the batch list and of the FTP configuration, but has no
    [pdfFilename], or a falsy one (the empty string, [null], [false],
    zero), is answered 400 with the message of that check; the state of
    the run is the one it started in. *)
Theorem missing_pdf_filename_rejected {W Page} (P : Platform W Page)
    (w : W) (req : request) (p0 : value) (rest : list value) :
  presents_secret P req →
  assoc "storagePaths" (body req) = Arr (p0 :: rest) →
  (∀ k, k ∈ ["host"; "user"; "password"] →
        truthy (get (assoc "ftp" (body req)) k) = true) →
  truthy (assoc "pdfFilename" (body req)) = false →
  Service.post_merge_and_upload P req (start w) =
  (start w, Returned (Response 400 (ErrorBody "pdfFilename is required"))).
Proof.
  intros Hauth%authorized_presents_secret Hpaths Hftp Hpdf.
  pose proof (post_merge_and_upload_cases P req w) as H.
  destruct (Service.post_merge_and_upload P req (start w)) as [s' res].
  unfold upload_rejection in H. rewrite Hauth, Hpaths in H.
  assert (Service.invalid_ftpConfig (assoc "ftp" (body req)) = false) as Hok.
  { unfold Service.invalid_ftpConfig.
    rewrite !Hftp by (rewrite !elem_of_cons; auto).
    pose proof (Hftp "host" ltac:(by left)) as Hhost.
    by destruct (assoc "ftp" (body req)). }
  rewrite Hok, Hpdf in H. cbn in H. by destruct H as [-> ->].
Qed.

(** X4.  Every answer of the three routes has status 200, 400, 401 or 500;
    and when it is 400 or 401, the state of the run is the one it started
    in: a request that is turned away has caused no call to the storage,
    to the parser or to the FTP server. *)
Theorem client_errors_change_nothing {W Page} (P : Platform W Page)
    (w : W) (req : request) :
  let harmless (run : state W Page * outcome response) :=
    ∀ r, run.2 = Returned r →
         status r = 200 ∨ status r = 500 ∨
         ((status r = 400 ∨ status r = 401) ∧ run.1 = start w) in
  (∀ f, harmless (post_merge_of P f req (start w))) ∧
  harmless (Service.post_merge_and_upload P req (start w)).
Proof.
  intros harmless. split.
  - intros f r. pose proof (post_merge_of_cases P f req w) as H.
    destruct (post_merge_of P f req (start w)) as [s' res]. cbn [fst snd].
    intros ->. unfold merge_rejection in H.
    destruct (unauthorized P (x_api_secret req)).
    { destruct H as [-> [= ->]]. cbn. auto. }
    destruct (invalid_storagePaths _).
    { destruct H as [-> [= ->]]. cbn. auto. }
    destruct (store_run_status P _ _ _ _ _ _ _ _ _ H eq_refl); auto.
  - intros r. pose proof (post_merge_and_upload_cases P req w) as H.
    destruct (Service.post_merge_and_upload P req (start w)) as [s' res].
    cbn [fst snd]. intros ->. unfold upload_rejection in H.
    destruct (unauthorized P (x_api_secret req)).
    { destruct H as [-> [= ->]]. cbn. auto. }
    destruct (invalid_storagePaths _).
    { destruct H as [-> [= ->]]. cbn. auto. }
    destruct (Service.invalid_ftpConfig _).
    { destruct H as [-> [= ->]]. cbn. auto. }
    destruct (negb _).
    { destruct H as [-> [= ->]]. cbn. auto. }
    destruct (delivery_run_status P _ _ _ _ H eq_refl); auto.
Qed.

(** X5.  The log line that each handler writes before its [try] block is
    the one place where a handler throws instead of answering.  A run ends
    in an exception exactly when the request got past the checks and one
    of the values that line interpolates ([orderId], [format] and, for
    [/merge-and-upload], [pdfFilename]) does not convert to a string; the
    exception is the [TypeError] of that conversion and nothing was done.
    Every other request is answered. *)
Theorem only_the_first_log_line_throws {W Page} (P : Platform W Page)
    (w : W) (req : request) :
  let unprintable upload := ∃ v, v ∈ logged_first upload req ∧ toString v = None in
  (∀ f, let '(s', res) := post_merge_of P f req (start w) in
        ((∃ e, res = Threw e) ↔ merge_rejection P f req = None ∧ unprintable false) ∧
        (∀ e, res = Threw e → e = not_primitive ∧ s' = start w)) ∧
  (let '(s', res) := Service.post_merge_and_upload P req (start w) in
   ((∃ e, res = Threw e) ↔ upload_rejection P req = None ∧ unprintable true) ∧
   (∀ e, res = Threw e → e = not_primitive ∧ s' = start w)).
Proof.
  intros unprintable. split.
  - intros f. pose proof (post_merge_of_cases P f req w) as H.
    pose proof (merge_crash P f req w) as Hcrash.
    destruct (post_merge_of P f req (start w)) as [s' res].
    destruct (merge_rejection P f req) as [r|].
    { destruct H as [-> ->]. split; [|done]. split; [by intros [e ?]|by intros [? _]]. }
    unfold store_run in H.
    destruct (toString (assoc "orderId" (body req))) as [o|] eqn:Ho.
    2:{ destruct H as [_ ->].
        assert (unprintable false) as Hu
          by (eexists; split; [|exact Ho]; set_solver).
        injection (Hcrash eq_refl Hu) as ->.
        split; [|by intros e [= <-]]. split; [by intros _|by eauto]. }
    destruct (toString (assoc "format" (body req))) as [fm|] eqn:Hf.
    2:{ destruct H as [_ ->].
        assert (unprintable false) as Hu
          by (eexists; split; [|exact Hf]; set_solver).
        injection (Hcrash eq_refl Hu) as ->.
        split; [|by intros e [= <-]]. split; [by intros _|by eauto]. }
    assert (∃ r, res = Returned r) as [r ->].
    { destruct H as [(e & _ & _ & ->)|[(tr_m & e & _ & _ & ->)
                    |(tr_m & a & u & _ & _ & ->)]]; by eexists. }
    split; [|done]. split; [by intros [e ?]|].
    intros [_ (v & Hv & Hnone)]. cbn in Hv. rewrite !elem_of_cons, elem_of_nil in Hv.
    destruct Hv as [->|[->|[]]]; congruence.
  - pose proof (post_merge_and_upload_cases P req w) as H.
    pose proof (upload_crash P req w) as Hcrash.
    destruct (Service.post_merge_and_upload P req (start w)) as [s' res].
    destruct (upload_rejection P req) as [r|].
    { destruct H as [-> ->]. split; [|done]. split; [by intros [e ?]|by intros [? _]]. }
    unfold delivery_run in H.
    destruct (toString (assoc "orderId" (body req))) as [o|] eqn:Ho.
    2:{ destruct H as [_ ->].
        assert (unprintable true) as Hu
          by (eexists; split; [|exact Ho]; set_solver).
        injection (Hcrash eq_refl Hu) as ->.
        split; [|by intros e [= <-]]. split; [by intros _|by eauto]. }
    destruct (toString (assoc "format" (body req))) as [fm|] eqn:Hf.
    2:{ destruct H as [_ ->].
        assert (unprintable true) as Hu
          by (eexists; split; [|exact Hf]; set_solver).
        injection (Hcrash eq_refl Hu) as ->.
        split; [|by intros e [= <-]]. split; [by intros _|by eauto]. }
    destruct (toString (assoc "pdfFilename" (body req))) as [pn|] eqn:Hn.
    2:{ destruct H as [_ ->].
        assert (unprintable true) as Hu
          by (eexists; split; [|exact Hn]; set_solver).
        injection (Hcrash eq_refl Hu) as ->.
        split; [|by intros e [= <-]]. split; [by intros _|by eauto]. }
    assert (∃ r, res = Returned r) as [r ->].
    { destruct H as [(tr_m & e & _ & _ & ->)|(tr_m & a & t & _ & _ & H)];
        [by eexists|].
      destruct t; cbn in H; destruct H as [_ ->]; by eexists. }
    split; [|done]. split; [by intros [e ?]|].
    intros [_ (v & Hv & Hnone)]. cbn in Hv. rewrite !elem_of_cons, elem_of_nil in Hv.
    destruct Hv as [->|[->|[->|[]]]]; congruence.
Qed.

(** X6.  A merge that throws fails the request, on each of the three
    routes.  When a request got past the checks and the first log line and
    the storage client was created, and the merge of its batches throws
    [e], the handler logs [e] with [console.error] and answers 500 with the
    message of [e]; the run ends in the very state the merge left, with
    that one line added: after the failure no upload is attempted, no FTP
    session is opened and no batch is removed. *)
Theorem failed_merge_fails_request {W Page} (P : Platform W Page)
    (w : W) (req : request) (s1 : state W Page) (e : exn) :
  createClient P = Returned () →
  let paths := elements (assoc "storagePaths" (body req)) in
  let failed label :=
    (State (world s1) (trace s1 ++ [ConsoleError label e]) (heap s1) (history s1),
     Returned (Response 500 (ErrorBody (message_or_string e)))) in
  (∀ f, merge_rejection P f req = None →
        (∀ v, v ∈ logged_first false req → is_Some (toString v)) →
        merge_of P f paths (start w) = (s1, Threw e) →
        post_merge_of P f req (start w) = failed (failure_label f)) ∧
  (upload_rejection P req = None →
   (∀ v, v ∈ logged_first true req → is_Some (toString v)) →
   Service.mergeBatches P paths (start w) = (s1, Threw e) →
   Service.post_merge_and_upload P req (start w)
   = failed "[merge-and-upload] Failed:").
Proof.
  intros Hclient paths failed. split.
  - intros f Hacc Hlog Hmerge. unfold merge_rejection in Hacc.
    destruct (unauthorized P (x_api_secret req)) eqn:Hauth; [done|].
    destruct (invalid_storagePaths (assoc "storagePaths" (body req))) eqn:Hpaths;
      [done|].
    destruct (Hlog (assoc "orderId" (body req))) as [o Ho]; [set_solver|].
    destruct (Hlog (assoc "format" (body req))) as [fm Hf]; [set_solver|].
    destruct f; cbn [post_merge_of merge_of failure_label] in *;
      unfold IndexJs.post_merge, Service.post_merge, Service.checkAuth,
        Service.merge_handler, IndexJs.merge_and_store;
      rewrite Hauth, Hpaths, run_bind, run_console_log_two, Ho, Hf;
      unfold try_catch; rewrite run_bind; unfold eval at 1; rewrite Hclient;
      rewrite run_bind; fold paths.
    + rewrite Hmerge. by destruct s1.
    + rewrite Hmerge. by destruct s1.
  - intros Hacc Hlog Hmerge. unfold upload_rejection in Hacc.
    destruct (unauthorized P (x_api_secret req)) eqn:Hauth; [done|].
    destruct (invalid_storagePaths (assoc "storagePaths" (body req))) eqn:Hpaths;
      [done|].
    destruct (Service.invalid_ftpConfig (assoc "ftp" (body req))) eqn:Hftp;
      [done|].
    destruct (negb (truthy (assoc "pdfFilename" (body req)))) eqn:Hpdf; [done|].
    destruct (Hlog (assoc "orderId" (body req))) as [o Ho]; [set_solver|].
    destruct (Hlog (assoc "format" (body req))) as [fm Hf]; [set_solver|].
    destruct (Hlog (assoc "pdfFilename" (body req))) as [pn Hn]; [set_solver|].
    unfold Service.post_merge_and_upload, Service.checkAuth,
      Service.merge_and_upload_handler.
    rewrite Hauth, Hpaths, Hftp, Hpdf, run_bind, run_console_log_three, Ho, Hf, Hn.
    unfold try_catch. rewrite run_bind. unfold eval at 1. rewrite Hclient.
    rewrite run_bind. fold paths. rewrite Hmerge. by destruct s1.
Qed.

(** X7.  What the caller is told of a failed fetch, on each of the three
    routes.  When the download of a batch resolves with an error or
    without data, or throws, the answer is 500 and its error text is
    [Failed to download <path>: <message of the storage error>], with
    [undefined] for the message when the storage gave none, or the text of
    the exception thrown; the failed fetch is the last call of the run,
    followed only by the [console.error] line. *)
Theorem failed_fetch_is_reported {W Page} (P : Platform W Page)
    (w : W) (req : request) (path : value) (p : string)
    (r : outcome download_result) :
  fetch_failed r → toString path = Some p →
  let text :=
    match r with
    | Returned dr =>
        "Failed to download " +:+ p +:+ ": " +:+ default "undefined" (error dr)
    | Threw e => message_or_string e
    end in
  let reported (run : state W Page * outcome response) (label : string) :=
    Download path r ∈ trace run.1 →
    run.2 = Returned (Response 500 (ErrorBody text)) ∧
    ∃ before, Forall merge_event before ∧
      trace run.1 = before ++ [Download path r;
                               ConsoleError label (fetch_error path r)] in
  (∀ f, reported (post_merge_of P f req (start w)) (failure_label f)) ∧
  reported (Service.post_merge_and_upload P req (start w))
    "[merge-and-upload] Failed:".
Proof.
  intros Hfailed Hp text reported.
  assert (message_or_string (fetch_error path r) = text) as Htext.
  { destruct r as [dr|e]; [|done]. by apply fetch_error_text. }
  assert (∀ f paths tr_m a, merge_run P f paths tr_m (Returned a) →
            Download path r ∉ tr_m) as Hreturned.
  { intros f paths tr_m a Hm Hin.
    by destruct (merge_run_failed_fetch P _ _ _ _ _ _ Hm Hin Hfailed) as [? _]. }
  split.
  - intros f Hin. pose proof (post_merge_of_cases P f req w) as H.
    destruct (post_merge_of P f req (start w)) as [s' res]. cbn [fst snd] in *.
    destruct (merge_rejection P f req).
    { destruct H as [-> _]. by apply elem_of_nil in Hin. }
    unfold store_run in H.
    destruct (toString (assoc "orderId" (body req)));
      [|destruct H as [Htr _]; rewrite Htr in Hin; by apply elem_of_nil in Hin].
    destruct (toString (assoc "format" (body req)));
      [|destruct H as [Htr _]; rewrite Htr in Hin; by apply elem_of_nil in Hin].
    destruct H as [(e & _ & Htr & _)|[(tr_m & e & Hm & Htr & ->)
                  |(tr_m & a & u & Hm & Htr & _)]]; rewrite Htr in Hin.
    + rewrite elem_of_cons, elem_of_nil in Hin. by destruct_or?.
    + rewrite elem_of_app, elem_of_cons, elem_of_nil in Hin.
      destruct Hin as [Hin|[?|[]]]; [|done].
      destruct (merge_run_failed_fetch P _ _ _ _ _ _ Hm Hin Hfailed)
        as ([= ->] & before & Hbefore & ->).
      unfold failure_response. rewrite Htext. split; [done|].
      exists before. split; [done|]. by rewrite Htr, <- app_assoc.
    + unfold upload_events in Hin.
      rewrite elem_of_app, elem_of_cons in Hin.
      destruct Hin as [Hin|[?|Hin]]; [by apply Hreturned in Hm|done|].
      destruct u as [[msg|]|e]; rewrite ?elem_of_cons, ?elem_of_nil in Hin;
        by destruct_or?.
  - intros Hin. pose proof (post_merge_and_upload_cases P req w) as Hcases.
    pose proof (upload_route_run P req w) as H.
    destruct (Service.post_merge_and_upload P req (start w)) as [s' res].
    cbn [fst snd] in *.
    destruct (upload_rejection P req).
    { destruct Hcases as [-> _]. by apply elem_of_nil in Hin. }
    assert (∀ v, v ∈ logged_first true req → is_Some (toString v)) as Hlog.
    { intros v Hv. destruct (toString v) eqn:Hnone; [done|].
      unfold delivery_run in Hcases. cbn in Hv.
      rewrite !elem_of_cons, elem_of_nil in Hv.
      destruct Hv as [->|[->|[->|[]]]]; rewrite Hnone in Hcases;
        repeat match type of Hcases with
               | context [match toString ?v with _ => _ end] =>
                   destruct (toString v)
               end;
        destruct Hcases as [Htr _]; rewrite Htr in Hin;
        by apply elem_of_nil in Hin. }
    specialize (H eq_refl Hlog). cbv zeta in H.
    destruct H as [(e & _ & Htr & _)|[(tr_m & e & Hm & Htr & ->)
                  |[(tr_m & a & Hm & _ & Htr & _)
                  |(tr_m & a & t & Hm & _ & Htr & _)]]]; rewrite Htr in Hin.
    + rewrite elem_of_cons, elem_of_nil in Hin. by destruct_or?.
    + rewrite elem_of_app, elem_of_cons, elem_of_nil in Hin.
      destruct Hin as [Hin|[?|[]]]; [|done].
      destruct (merge_run_failed_fetch P _ _ _ _ _ _ Hm Hin Hfailed)
        as ([= ->] & before & Hbefore & ->).
      unfold failure_response. rewrite Htext. split; [done|].
      exists before. split; [done|]. by rewrite Htr, <- app_assoc.
    + rewrite elem_of_app, elem_of_cons, elem_of_nil in Hin.
      destruct Hin as [Hin|[?|[]]]; [by apply Hreturned in Hm|done].
    + rewrite !elem_of_app in Hin.
      destruct Hin as [Hin|[Hin|Hin]]; [by apply Hreturned in Hm| |].
      * destruct t as [| | | | | |[xml|] c]; cbn in Hin;
          unfold access_event, pdf_event, xml_event, cleanup_events in Hin;
          try destruct c;
          rewrite ?elem_of_app, ?elem_of_cons, ?elem_of_nil in Hin;
          by destruct_or?.
      * destruct (transfer_error _);
          rewrite ?elem_of_cons, ?elem_of_nil in Hin; by destruct_or?.
Qed.

(** X8.  A batch that does not parse aborts the merge, in either file.
    When the parser throws [e] on the bytes of a batch, the merge throws
    [e]; the failed parse is the last step of the run; the batches
    fetched are the batches of the list up to the one that did not parse,
    each once and in order, so no later batch was fetched; and nothing was
    serialized. *)
Theorem unparsable_batch_aborts {W Page} (P : Platform W Page)
    (f : source_file) (w : W) (p0 : value) (rest : list value)
    (s' : state W Page) (res : outcome artifact) (raw : bytes) (e : exn) :
  merge_of P f (p0 :: rest) (start w) = (s', res) →
  Load raw (Threw e) ∈ trace s' →
  res = Threw e ∧
  (∃ k path, (p0 :: rest) !! k = Some path ∧
             (fetches (trace s')).*1 = take (S k) (p0 :: rest) ∧
             fetches (trace s') !! k = Some (path, downloaded raw)) ∧
  (∃ before, Forall merge_event before ∧
             trace s' = before ++ [Load raw (Threw e)]) ∧
  (∀ ps o, Save ps o ∉ trace s').
Proof.
  intros Hrun Hin. pose proof (merge_of_run P f p0 rest w) as H.
  rewrite Hrun in H. by eapply merge_run_failed_parse.
Qed.

(** X9.  What a route never does.  A run of [/merge], in either file,
    makes no FTP call and never calls [remove]: the batches it merged
    stay in the bucket.  A run of [/merge-and-upload] never uploads to the
    bucket. *)
Theorem routes_keep_to_their_collaborators {W Page} (P : Platform W Page)
    (w : W) (req : request) :
  (∀ f, Forall (λ e, is_ftp e = false ∧ is_remove e = false)
          (trace (post_merge_of P f req (start w)).1)) ∧
  Forall (λ e, is_upload e = false)
    (trace (Service.post_merge_and_upload P req (start w)).1).
Proof.
  split.
  - intros f.
    destruct (merge_route_trace P f req w) as (tr_m & rest & Hm & -> & Hrest).
    apply Forall_app. split.
    + eapply Forall_impl; [exact Hm|]. by intros [].
    + destruct Hrest as [->|[[e ->]|(path & body & r & ->)]];
        [constructor|by repeat constructor|].
      destruct r as [[msg|]|e]; by repeat constructor.
  - destruct (upload_route_trace P req w) as (tr_m & rest & Hm & -> & Hrest).
    apply Forall_app. split.
    + eapply Forall_impl; [exact Hm|]. by intros [].
    + destruct Hrest as [->|[[e ->]|(a & t & _ & ->)]];
        [constructor|by repeat constructor|].
      destruct t as [| | | | | |[xml|] [c|e]]; by repeat constructor.
Qed.

(** X10.  A run of [/merge], in either file, answers 200 exactly when
    the upload of the merged artifact to the bucket resolved without an
    error.  It attempts at most one upload, always with [upsert: true], and
    never retries one that failed. *)
Theorem merge_answers_ok_iff_stored {W Page} (P : Platform W Page)
    (f : source_file) (w : W) (req : request) :
  let '(s', res) := post_merge_of P f req (start w) in
  ((∃ b, res = Returned (Response 200 b)) ↔
   (∃ path body, Upload path body true (Returned None) ∈ trace s')) ∧
  length (List.filter is_upload (trace s')) ≤ 1 ∧
  (∀ path body upsert r, Upload path body upsert r ∈ trace s' → upsert = true).
Proof.
  pose proof (post_merge_of_cases P f req w) as H.
  destruct (post_merge_of P f req (start w)) as [s' res].
  assert (∀ tr_m : list (event Page), Forall merge_event tr_m →
            ∀ path body u r, Upload path body u r ∉ tr_m) as Hnone.
  { intros tr_m Hm path body u r Hin.
    by apply (merge_event_elem _ _ Hm) in Hin. }
  assert (∀ tr_m : list (event Page),
            Forall merge_event tr_m → List.filter is_upload tr_m = [])
    as Hfilter.
  { intros tr_m. apply filter_merge_events. by intros []. }
  destruct (merge_rejection P f req) as [r|] eqn:Hrej.
  { destruct H as [-> ->]. cbn. split_and!; [|lia|by intros ???? ?%elem_of_nil].
    unfold merge_rejection in Hrej. split.
    - intros [b [= ->]]. by repeat case_match.
    - by intros (path & body & ?%elem_of_nil). }
  unfold store_run in H.
  destruct (toString (assoc "orderId" (body req))) as [o|].
  2:{ destruct H as [-> ->]. cbn. split_and!; [|lia|by intros ???? ?%elem_of_nil].
      split; [by intros [b ?]|by intros (path & body & ?%elem_of_nil)]. }
  destruct (toString (assoc "format" (body req))) as [fm|].
  2:{ destruct H as [-> ->]. cbn. split_and!; [|lia|by intros ???? ?%elem_of_nil].
      split; [by intros [b ?]|by intros (path & body & ?%elem_of_nil)]. }
  unfold failure_response in H.
  destruct H as [(e & _ & -> & ->)|[(tr_m & e & Hm%merge_run_events & -> & ->)
                |(tr_m & a & u & Hm%merge_run_events & -> & ->)]].
  - cbn. split_and!; [|lia|].
    + split; [by intros [b ?]|].
      intros (path & body & Hin). rewrite elem_of_cons, elem_of_nil in Hin.
      by destruct_or?.
    + intros ???? Hin. rewrite elem_of_cons, elem_of_nil in Hin. by destruct_or?.
  - rewrite List.filter_app, (Hfilter _ Hm). cbn. split_and!; [|lia|].
    + split; [by intros [b ?]|].
      intros (path & body & Hin).
      rewrite elem_of_app, elem_of_cons, elem_of_nil in Hin.
      destruct Hin as [Hin|[?|[]]]; [by apply Hnone in Hin|done].
    + intros ???? Hin. rewrite elem_of_app, elem_of_cons, elem_of_nil in Hin.
      destruct Hin as [Hin|[?|[]]]; [by apply Hnone in Hin|done].
  - rewrite List.filter_app, (Hfilter _ Hm). unfold upload_events.
    split_and!.
    + destruct u as [[msg|]|e]; cbn; unfold failure_response.
      * split; [by intros [b ?]|]. intros (path & body & Hin).
        rewrite elem_of_app, !elem_of_cons, elem_of_nil in Hin.
        destruct Hin as [Hin|[?|[?|[]]]]; [by apply Hnone in Hin|done..].
      * split; [|by eauto]. intros _. eexists _, _.
        apply elem_of_app. right. by left.
      * split; [by intros [b ?]|]. intros (path & body & Hin).
        rewrite elem_of_app, !elem_of_cons, elem_of_nil in Hin.
        destruct Hin as [Hin|[?|[?|[]]]]; [by apply Hnone in Hin|done..].
    + destruct u as [[msg|]|e]; cbn; lia.
    + intros path body upsert r Hin. rewrite elem_of_app, elem_of_cons in Hin.
      destruct Hin as [Hin|[[= _ _ -> _]|Hin]]; [by apply Hnone in Hin|done|].
      destruct u as [[msg|]|e]; rewrite ?elem_of_cons, ?elem_of_nil in Hin;
        by destruct_or?.
Qed.

(** X11.  A run of [/merge-and-upload] calls [remove] exactly when it
    answers 200: a request that fails, at whatever step, leaves its
    batches in the bucket, and a request that succeeds has tried to remove
    them.  [remove] is called once, on the whole list of the request as it
    was given, and it is the last call of the run. *)
Theorem batches_removed_exactly_on_success {W Page} (P : Platform W Page)
    (w : W) (req : request) :
  let '(s', res) := Service.post_merge_and_upload P req (start w) in
  ((∃ paths r, Remove paths r ∈ trace s') ↔
   (∃ b, res = Returned (Response 200 b))) ∧
  (∀ paths r, Remove paths r ∈ trace s' →
     paths = elements (assoc "storagePaths" (body req)) ∧
     ∃ before, Forall (λ e, is_remove e = false) before ∧
               trace s' = before ++ cleanup_events paths r).
Proof.
  destruct (Service.post_merge_and_upload P req (start w)) as [s' res] eqn:Hrun.
  split.
  - split.
    + intros (paths & r & Hin).
      destruct (cleanup_run P req w s' res paths r Hrun Hin)
        as (tr_m & a & xml & _ & _ & _ & _ & ->).
      by eexists.
    + intros [b ->].
      destruct (delivered_run P req w s' b Hrun)
        as (tr_m & a & xml & r & _ & _ & -> & _).
      exists (elements (assoc "storagePaths" (body req))), r.
      destruct xml; cbn; unfold cleanup_events;
        rewrite elem_of_app, !elem_of_cons; auto 10.
  - intros paths r Hin.
    destruct (cleanup_run P req w s' res paths r Hrun Hin)
      as (tr_m & a & xml & Hm & _ & -> & -> & _).
    split; [done|].
    exists (tr_m ++ [access_event (assoc "ftp" (body req)) (Returned ());
                     pdf_event a (assoc "pdfFilename" (body req)) (Returned ())]
            ++ match xml with
               | Some x => [xml_event (assoc "xmlFilename" (body req)) x
                              (Returned ())]
               | None => []
               end ++ [FtpClose]).
    split.
    + apply Forall_app. split.
      * eapply Forall_impl; [exact Hm|]. by intros [].
      * destruct xml; by repeat constructor.
    + cbn. rewrite <- !app_assoc. by destruct xml.
Qed.

(** X12.  A connection that cannot be opened fails the delivery.  When
    [client.access] throws [e], it had been called with the host, user
    and password of the request's [ftp] member; the client is closed
    right after; nothing was sent and no batch is removed; and the answer
    is 500 with the text [FTP upload failed: <message of e>]. *)
Theorem refused_connection_fails_delivery {W Page} (P : Platform W Page)
    (w : W) (req : request) (s' : state W Page) (res : outcome response)
    (host user password : value) (e : exn) :
  Service.post_merge_and_upload P req (start w) = (s', res) →
  FtpAccess host user password (Threw e) ∈ trace s' →
  (host = get (assoc "ftp" (body req)) "host" ∧
   user = get (assoc "ftp" (body req)) "user" ∧
   password = get (assoc "ftp" (body req)) "password") ∧
  (∃ before,
     Forall merge_event before ∧
     trace s' = before ++ [FtpAccess host user password (Threw e); FtpClose;
                           ConsoleError "[merge-and-upload] Failed:"
                             (ftp_failed e)]) ∧
  res = Returned (Response 500
                    (ErrorBody ("FTP upload failed: " +:+ exn_message e))).
Proof.
  intros Hrun Hin. pose proof (post_merge_and_upload_cases P req w) as H.
  rewrite Hrun in H.
  destruct (upload_rejection P req).
  { destruct H as [-> _]. by apply elem_of_nil in Hin. }
  unfold delivery_run in H.
  destruct (toString (assoc "orderId" (body req)));
    [|destruct H as [Htr _]; rewrite Htr in Hin; by apply elem_of_nil in Hin].
  destruct (toString (assoc "format" (body req)));
    [|destruct H as [Htr _]; rewrite Htr in Hin; by apply elem_of_nil in Hin].
  destruct (toString (assoc "pdfFilename" (body req)));
    [|destruct H as [Htr _]; rewrite Htr in Hin; by apply elem_of_nil in Hin].
  destruct H as [(tr_m & e' & Hm & Htr & _)|(tr_m & a & t & Hm & Hok & H)].
  { rewrite Htr in Hin. apply elem_of_app in Hin as [Hin|Hin].
    - by apply (merge_event_elem _ _ Hm) in Hin.
    - apply elem_of_cons in Hin as [?|Hin]; [done|]. by apply elem_of_nil in Hin. }
  apply merge_run_events in Hm.
  assert (∀ ev, ev ∈ tr_m → merge_event ev) as Hmerge
    by (intros ev; apply merge_event_elem, Hm).
  destruct t as [e'| |e'| |e'|xml e'|[xml|] [c|e']]; cbn in H;
    unfold access_event, pdf_event, xml_event, cleanup_events in H; cbn in H;
    destruct H as [Htr Hres]; rewrite Htr in Hin |- *;
    rewrite ?elem_of_app, ?elem_of_cons, ?elem_of_nil in Hin;
    destruct_or?; try done; try (by apply Hmerge in Hin).
  simplify_eq. split_and!; try done. exists tr_m. split; [done|].
  by rewrite <- ?app_assoc.
Qed.

(** X13.  A delivery can fail after the PDF has been sent, and then the
    PDF stays on the FTP server.  When a run does not answer 200 although
    an FTP upload succeeded, that upload was the one of the merged PDF
    under the requested name, a sidecar had been requested, and the
    failure [e] is the one of the sidecar: its filename does not convert
    to a string, its content cannot be encoded, or its upload threw.  The
    client is closed after the failure, nothing is sent to undo the upload
    of the PDF, no batch is removed, and the answer is 500 with the text
    [FTP upload failed: <message of e>]. *)
Theorem failed_sidecar_leaves_the_pdf {W Page} (P : Platform W Page)
    (w : W) (req : request) (s' : state W Page) (res : outcome response)
    (payload : bytes) (name : value) :
  Service.post_merge_and_upload P req (start w) = (s', res) →
  (∀ b, res ≠ Returned (Response 200 b)) →
  FtpUploadFrom payload name (Returned ()) ∈ trace s' →
  let xmlContent := assoc "xmlContent" (body req) in
  let xmlFilename := assoc "xmlFilename" (body req) in
  ∃ before a e failure,
    Forall (λ ev, is_remove ev = false ∧ ∀ b n o, ev ≠ FtpUploadFrom b n o)
      before ∧
    trace s' = before
               ++ [FtpUploadFrom (mergedBytes a) (assoc "pdfFilename" (body req))
                     (Returned ())]
               ++ failure
               ++ [FtpClose;
                   ConsoleError "[merge-and-upload] Failed:" (ftp_failed e)] ∧
    payload = mergedBytes a ∧ name = assoc "pdfFilename" (body req) ∧
    sidecar_requested xmlContent xmlFilename = true ∧
    ((failure = [] ∧
      ((toString xmlFilename = None ∧ e = not_primitive) ∨
       Buffer_from_utf8 P xmlContent = Threw e)) ∨
     (∃ xml, Buffer_from_utf8 P xmlContent = Returned xml ∧
             failure = [FtpUploadFrom xml xmlFilename (Threw e)])) ∧
    res = Returned (Response 500
                      (ErrorBody ("FTP upload failed: " +:+ exn_message e))).
Proof.
  intros Hrun Hnot Hin xmlContent xmlFilename.
  pose proof (post_merge_and_upload_cases P req w) as H.
  rewrite Hrun in H.
  destruct (upload_rejection P req).
  { destruct H as [-> _]. by apply elem_of_nil in Hin. }
  unfold delivery_run in H.
  destruct (toString (assoc "orderId" (body req)));
    [|destruct H as [Htr _]; rewrite Htr in Hin; by apply elem_of_nil in Hin].
  destruct (toString (assoc "format" (body req)));
    [|destruct H as [Htr _]; rewrite Htr in Hin; by apply elem_of_nil in Hin].
  destruct (toString (assoc "pdfFilename" (body req)));
    [|destruct H as [Htr _]; rewrite Htr in Hin; by apply elem_of_nil in Hin].
  destruct H as [(tr_m & e' & Hm & Htr & _)|(tr_m & a & t & Hm & Hok & H)].
  { rewrite Htr in Hin. apply elem_of_app in Hin as [Hin|Hin].
    - by apply (merge_event_elem _ _ Hm) in Hin.
    - apply elem_of_cons in Hin as [?|Hin]; [done|]. by apply elem_of_nil in Hin. }
  apply merge_run_events in Hm.
  assert (∀ ev, ev ∈ tr_m → merge_event ev) as Hmerge
    by (intros ev; apply merge_event_elem, Hm).
  assert (Forall (λ ev, is_remove ev = false ∧ ∀ b n o, ev ≠ FtpUploadFrom b n o)
            (tr_m ++ [access_event (assoc "ftp" (body req)) (Returned ())]))
    as Hbefore.
  { apply Forall_app. split; [|by repeat constructor].
    eapply Forall_impl; [exact Hm|]. by intros []. }
  fold xmlContent xmlFilename in Hok.
  destruct t as [e'| |e'| |e'|xml e'|xml c]; cbn in H, Hok;
    unfold access_event, pdf_event, xml_event in H; cbn in H;
    destruct H as [Htr Hres]; rewrite Htr in Hin;
    rewrite ?elem_of_app, ?elem_of_cons, ?elem_of_nil in Hin.
  1-3: destruct_or?; try done; by apply Hmerge in Hin.
  4: by destruct (Hnot _ Hres).
  all: assert (payload = mergedBytes a ∧ name = assoc "pdfFilename" (body req))
         as [-> ->]
         by (destruct_or?; try done; try (by apply Hmerge in Hin);
             by simplify_eq).
  - destruct Hok as [Hreq Hname].
    eexists _, a, not_primitive, []. split; [exact Hbefore|].
    split_and!; try done; [|by left; auto].
    rewrite Htr. cbn. by rewrite <- !app_assoc.
  - destruct Hok as [Hreq Henc].
    eexists _, a, e', []. split; [exact Hbefore|].
    split_and!; try done; [|by left; auto].
    rewrite Htr. cbn. by rewrite <- !app_assoc.
  - destruct Hok as [Hreq Henc].
    eexists _, a, e', [_]. split; [exact Hbefore|].
    split_and!; try done; [|by right; eauto].
    rewrite Htr. cbn. by rewrite <- !app_assoc.
Qed.

(** X14.  The FTP client of a request is used in order and never left
    open.  In every run of [/merge-and-upload], [access] is called at most
    once and before any upload, every upload comes before [close], and
    [close] is called exactly once when [access] was called, whether the
    session went through or failed, and never otherwise.  A run of
    [/merge] has no client at all. *)
Theorem ftp_client_closed_once {W Page} (P : Platform W Page)
    (w : W) (req : request) :
  (let tr := trace (Service.post_merge_and_upload P req (start w)).1 in
   session NoClient tr = Some NoClient ∨ session NoClient tr = Some Closed) ∧
  (∀ f, session NoClient (trace (post_merge_of P f req (start w)).1)
        = Some NoClient).
Proof.
  split.
  - destruct (upload_route_trace P req w) as (tr_m & rest & Hm & -> & Hrest).
    cbv zeta. rewrite session_app, (session_merge_events _ _ Hm).
    destruct Hrest as [->|[[e ->]|(a & t & _ & ->)]]; [by left..|].
    right. by destruct t as [| | | | | |[xml|] [c|e]].
  - intros f.
    destruct (merge_route_trace P f req w) as (tr_m & rest & Hm & -> & Hrest).
    rewrite session_app, (session_merge_events _ _ Hm).
    destruct Hrest as [->|[[e ->]|(path & body & r & ->)]]; [done..|].
    by destruct r as [[msg|]|e].
Qed.

(** X15.  What a successful delivery sent.  In a run of
    [/merge-and-upload] that answers 200, the bytes uploaded to the FTP
    server under [pdfFilename] are exactly what the serializer returned for
    the pages of all the batches of the request, batch after batch in the
    order of the list; the upload follows the merge and the opening of the
    connection; and the answer carries the length of those bytes and the
    number of those pages. *)
Theorem delivery_sends_the_merged_pages {W Page} (P : Platform W Page)
    (w : W) (req : request) (s' : state W Page) (b : json_body) :
  Service.post_merge_and_upload P req (start w)
  = (s', Returned (Response 200 b)) →
  let ftp := assoc "ftp" (body req) in
  let pdfFilename := assoc "pdfFilename" (body req) in
  ∃ bs out after xmlname,
    batch_path <$> bs = elements (assoc "storagePaths" (body req)) ∧
    Forall (parsed P) bs ∧
    pdf_save P (merged_pages bs) = Returned out ∧
    trace s' = (bs ≫= batch_events)
               ++ [Save (merged_pages bs) (Returned out);
                   FtpAccess (get ftp "host") (get ftp "user")
                     (get ftp "password") (Returned ());
                   FtpUploadFrom out pdfFilename (Returned ())]
               ++ after ∧
    b = DeliveredBody (length out) (length (merged_pages bs)) true
          pdfFilename xmlname.
Proof.
  intros Hrun ftp pdfFilename.
  destruct (delivered_run P req w s' b Hrun)
    as (tr_m & a & xml & r & Hm & _ & Htr & Hb).
  apply merge_run_returned in Hm
    as (bs & Hpaths & Hbs & -> & Hsave & Hcount & _).
  injection Hb as ->.
  exists bs, (mergedBytes a). eexists _, _.
  split_and!; try done.
  - rewrite Htr. cbn. rewrite <- !app_assoc. cbn. reflexivity.
  - by rewrite Hcount.
Qed.

(** X17.  In [index.js] the buffer of a batch is zero-filled as soon as
    the batch has been parsed, and stays so: whenever a document is
    resident in two consecutive stores of a merge, the buffer it was
    parsed from holds only zero bytes in the second. *)
Theorem parsed_buffers_are_zero_filled {W Page} (P : Platform W Page)
    (w : W) (p0 : value) (rest : list value) :
  zero_filled_once_parsed
    (history (IndexJs.merge_inline P (p0 :: rest) (start w)).1).
Proof.
  pose proof (merge_inline_run P p0 rest w) as H.
  destruct (IndexJs.merge_inline P (p0 :: rest) (start w)) as [s' res].
  apply H.
Qed.

(** X18.  What [index.js] serializes.  On batch paths that convert to
    strings the merge of [index.js] makes the fetches and the parses of
    the merge of version 2.1.0, in the same order, and leaves the
    collaborators in the same state; when a batch fails, the two end
    alike, and nothing is serialized.  When every batch went through,
    version 2.1.0 serializes the pages as they were parsed, and [index.js]
    serializes each of them as it reads through its zero-filled buffer;
    each returns what its own serialization gave, with the same page
    count. *)
Theorem index_js_serializes_wiped_pages {W Page} (P : Platform W Page)
    (w : W) (p0 : value) (rest : list value) :
  Forall (λ p, is_Some (toString p)) (p0 :: rest) →
  let '(s1, r1) := IndexJs.merge_inline P (p0 :: rest) (start w) in
  let '(s2, r2) := Service.mergeBatches P (p0 :: rest) (start w) in
  world s1 = world s2 ∧
  ((trace s1 = trace s2 ∧ r1 = r2 ∧ ∀ ps o, Save ps o ∉ trace s2) ∨
   ∃ tr ps,
     (∀ qs o, Save qs o ∉ tr) ∧
     trace s2 = tr ++ [Save ps (pdf_save P ps)] ∧
     trace s1 = tr ++ [Save (pdf_wiped P <$> ps)
                         (pdf_save P (pdf_wiped P <$> ps))] ∧
     r2 = outcome_map (λ out, Artifact out (length ps)) (pdf_save P ps) ∧
     r1 = outcome_map (λ out, Artifact out (length ps))
            (pdf_save P (pdf_wiped P <$> ps))).
Proof.
  intros Hprintable.
  pose proof (merge_inline_ref P p0 rest w) as H1.
  pose proof (mergeBatches_ref P p0 rest w) as H2.
  destruct (IndexJs.merge_inline P (p0 :: rest) (start w)) as [s1 r1],
           (Service.mergeBatches P (p0 :: rest) (start w)) as [s2 r2].
  destruct H1 as [H1 _], H2 as [H2 _]. unfold merge_ref in H1, H2.
  rewrite (gather_agree P _ w Hprintable) in H1.
  pose proof (gather_stop P service_js (p0 :: rest) w) as Hstop.
  pose proof (gather_early P service_js (p0 :: rest) w) as Hearly.
  destruct (gather P service_js (p0 :: rest) w) as [[w' bs] x].
  cbn [fst snd] in Hstop, Hearly. destruct x as [y|].
  - destruct (Hstop y eq_refl) as (e & _ & Hacc). specialize (Hearly y eq_refl).
    destruct (Hacc (serialized P index_js (merged_pages bs))) as [He1 Hr1].
    destruct (Hacc (serialized P service_js (merged_pages bs))) as [He2 Hr2].
    rewrite He1, Hr1 in H1. rewrite He2, Hr2 in H2.
    injection H1 as -> -> ->. injection H2 as -> -> ->.
    split; [done|]. left. split_and!; try done.
    intros ps o [Hin|Hin]%elem_of_app.
    + by apply no_save_in_batches in Hin.
    + destruct y; try done; cbn in Hin;
        rewrite ?elem_of_cons, ?elem_of_nil in Hin; by destruct_or?.
  - cbn [serialized] in H1, H2.
    injection H1 as -> -> ->. injection H2 as -> -> ->.
    split; [done|]. right.
    exists (bs ≫= batch_events), (merged_pages bs).
    split; [intros qs o; apply no_save_in_batches|].
    destruct (pdf_save P (merged_pages bs)) as [out2|e2],
             (pdf_save P (pdf_wiped P <$> merged_pages bs)) as [out1|e1];
      cbn; by rewrite ?length_fmap.
Qed.

(** X19.  What the caller is told when the merged artifact cannot be
    stored.  When the upload to the bucket resolves with an error, a run
    of [/merge] answers 500 with the text of that file's upload error
    followed by the message of the storage error; the failed upload is
    the last call of the run, followed only by the [console.error] line:
    it is not retried. *)
Theorem failed_store_is_reported {W Page} (P : Platform W Page)
    (f : source_file) (w : W) (req : request) (s' : state W Page)
    (res : outcome response) (path : string) (payload : bytes) (upsert : bool)
    (msg : string) :
  post_merge_of P f req (start w) = (s', res) →
  Upload path payload upsert (Returned (Some msg)) ∈ trace s' →
  res = Returned (Response 500 (ErrorBody (upload_prefix f +:+ msg))) ∧
  ∃ before,
    Forall merge_event before ∧
    trace s' = before ++ [Upload path payload upsert (Returned (Some msg));
                          ConsoleError (failure_label f)
                            (Error (upload_prefix f +:+ msg))].
Proof.
  intros Hrun Hin. pose proof (post_merge_of_cases P f req w) as H.
  rewrite Hrun in H.
  destruct (merge_rejection P f req).
  { destruct H as [-> _]. by apply elem_of_nil in Hin. }
  unfold store_run in H.
  destruct (toString (assoc "orderId" (body req)));
    [|destruct H as [Htr _]; rewrite Htr in Hin; by apply elem_of_nil in Hin].
  destruct (toString (assoc "format" (body req)));
    [|destruct H as [Htr _]; rewrite Htr in Hin; by apply elem_of_nil in Hin].
  destruct H as [(e & _ & Htr & _)|[(tr_m & e & Hm%merge_run_events & Htr & _)
                |(tr_m & a & u & Hm%merge_run_events & Htr & ->)]];
    rewrite Htr in Hin.
  - rewrite elem_of_cons, elem_of_nil in Hin. by destruct_or?.
  - rewrite elem_of_app, elem_of_cons, elem_of_nil in Hin.
    destruct Hin as [Hin|[?|[]]]; [|done].
    by apply (merge_event_elem _ _ Hm) in Hin.
  - unfold upload_events in Hin, Htr. rewrite elem_of_app, elem_of_cons in Hin.
    destruct Hin as [Hin|[Hin|Hin]].
    + by apply (merge_event_elem _ _ Hm) in Hin.
    + injection Hin as -> -> -> <-. cbn. split; [by destruct f|].
      exists tr_m. by split.
    + destruct u as [[m|]|e]; rewrite ?elem_of_cons, ?elem_of_nil in Hin;
        by destruct_or?.
Qed.

(** X20.  The order identifier and the format are not checked.  A request
    to [/merge] that leaves both out is not turned away: if it answers
    200, the merged artifact was stored at
    [temp/undefined/merged_undefined.pdf], with [upsert: true], and the
    answer names that path.  So all such requests write to one and the
    same object of the bucket. *)
Theorem missing_identifiers_share_one_destination {W Page} (P : Platform W Page)
    (f : source_file) (w : W) (req : request) (s' : state W Page) (b : json_body) :
  assoc "orderId" (body req) = Undefined →
  assoc "format" (body req) = Undefined →
  post_merge_of P f req (start w) = (s', Returned (Response 200 b)) →
  ∃ out size pages,
    last (trace s') = Some (Upload "temp/undefined/merged_undefined.pdf" out true
                              (Returned None)) ∧
    b = MergedBody "temp/undefined/merged_undefined.pdf" size pages.
Proof.
  intros Ho Hf Hrun.
  destruct (stored_run P f req w s' b Hrun)
    as (o & fm & tr_m & a & Ho' & Hf' & _ & -> & ->).
  rewrite Ho in Ho'. rewrite Hf in Hf'. injection Ho' as <-. injection Hf' as <-.
  eexists _, _, _. split; [apply last_snoc|reflexivity].
Qed.

(** ** The properties at work on the concrete platform *)

Import Demo.

Lemma unauthorized_request_rejected_witness :
  (x_api_secret (Request (Some "guess") [("storagePaths", both)]) = None ∨
   x_api_secret (Request (Some "guess") [("storagePaths", both)])
   ≠ MERGE_API_SECRET platform) ∧
  Service.post_merge_and_upload platform
    (Request (Some "guess") [("storagePaths", both)]) (start two_batches)
  = (start two_batches, Returned (Response 401 (ErrorBody "Unauthorized"))).
Proof.
  split; [by right|].
  by apply (unauthorized_request_rejected platform two_batches
              (Request (Some "guess") [("storagePaths", both)])); right.
Defined.

Lemma invalid_batch_list_rejected_witness :
  (∀ p0 rest, assoc "storagePaths" (body (merge_request (Arr []))) ≠ Arr (p0 :: rest)) ∧
  post_merge_of platform service_js (merge_request (Arr [])) (start two_batches)
  = (start two_batches,
     Returned (Response 400 (ErrorBody "storagePaths is required"))).
Proof.
  split; [done|].
  by apply (invalid_batch_list_rejected platform two_batches (merge_request (Arr []))).
Defined.

Lemma merged_pages_in_batch_order_witness :
  let paths := [Str "a.pdf"; Str "b.pdf"] in
  let raw p := if is_str p (Str "a.pdf") then [x01; x02; x03] else [x04; x05] in
  let merged f :=
    match f with
    | index_js => [x00; x00; x00; x00; x00]
    | service_js => [x01; x02; x03; x04; x05]
    end in
  let holds f :=
    cooperative platform f (λ w, w = two_batches) paths raw raw (merged f) ∧
    snd (merge_of platform f paths (start two_batches))
    = Returned (Artifact (merged f) 5) ∧
    merged_in_order platform f paths
      (trace (fst (merge_of platform f paths (start two_batches))))
      (Artifact (merged f) 5) in
  holds index_js ∧ holds service_js.
Proof.
  intros paths raw merged holds.
  assert (∀ f, holds f) as Hboth; [|split; apply Hboth].
  intros f.
  assert (cooperative platform f (λ w, w = two_batches) paths raw raw (merged f))
    as Hcoop.
  { split_and!.
    - intros p w [->|[->|[]%elem_of_nil]%elem_of_cons]%elem_of_cons ->;
        exists two_batches; split; reflexivity || (vm_compute; reflexivity).
    - by intros p [->|[->|[]%elem_of_nil]%elem_of_cons]%elem_of_cons.
    - by intros p [->|[->|[]%elem_of_nil]%elem_of_cons]%elem_of_cons; eexists.
    - destruct f; reflexivity. }
  destruct (merged_pages_in_batch_order platform f two_batches
              (Str "a.pdf") [Str "b.pdf"]
              (fst (merge_of platform f paths (start two_batches)))
              (snd (merge_of platform f paths (start two_batches))))
    as [Horder Hreturns]; [apply surjective_pairing|].
  pose proof (Hreturns _ raw raw _ eq_refl Hcoop) as Hres.
  split; [exact Hcoop|]. split; [exact Hres|]. apply Horder. exact Hres.
Defined.

Lemma fetch_failure_aborts_witness :
  let paths := [Str "a.pdf"; Str "gone.pdf"; Str "b.pdf"] in
  let run := merge_of platform service_js paths (start two_batches) in
  let r := Returned (DownloadResult None (Some "Object not found")) in
  (fetches (trace (fst run)) !! 1 = Some (Str "gone.pdf", r) ∧
   fetch_failed r) ∧
  (fetches (trace (fst run))).*1 = take 2 paths ∧
  snd run = Threw (fetch_error (Str "gone.pdf") r) ∧
  (∀ ps o, Save ps o ∉ trace (fst run)).
Proof.
  intros paths run r.
  assert (fetches (trace (fst run)) !! 1 = Some (Str "gone.pdf", r)) as Hk
    by (vm_compute; reflexivity).
  assert (fetch_failed r) as Hr by reflexivity.
  split; [exact (conj Hk Hr)|].
  destruct (fetch_failure_aborts platform service_js two_batches (Str "a.pdf")
              [Str "gone.pdf"; Str "b.pdf"] (fst run) (snd run) 1 (Str "gone.pdf") r)
    as (_ & Hfetched & Hres & Hsave); [vm_compute; reflexivity|exact Hk|exact Hr|].
  exact (conj Hfetched (conj Hres Hsave)).
Defined.

Lemma single_batch_round_trip_witness :
  (storage_download platform (Str "b.pdf") two_batches
   = (two_batches, downloaded [x04; x05]) ∧
   pdf_load platform [x04; x05] = Returned [x04; x05] ∧
   pdf_save platform [x04; x05] = Returned [x04; x05]) ∧
  ∃ s', Service.mergeBatches platform [Str "b.pdf"] (start two_batches)
        = (s', Returned (Artifact [x04; x05] 2)) ∧
        trace s' = [Download (Str "b.pdf") (downloaded [x04; x05]);
                    Load [x04; x05] (Returned [x04; x05]);
                    Save [x04; x05] (Returned [x04; x05])] ∧
        world s' = two_batches.
Proof.
  assert (storage_download platform (Str "b.pdf") two_batches
          = (two_batches, downloaded [x04; x05])) as Hfetch
    by (vm_compute; reflexivity).
  split; [exact (conj Hfetch (conj eq_refl eq_refl))|].
  exact (single_batch_round_trip platform two_batches two_batches (Str "b.pdf")
           [x04; x05] [x04; x05] [x04; x05] Hfetch eq_refl eq_refl).
Defined.

Lemma failed_upload_fails_delivery_witness :
  let req := upload_request both (Str "<order/>") (Str "order.xml") in
  let run := Service.post_merge_and_upload platform req (start refusing_sidecar) in
  let refusal := Exn "FTPError" "550 Permission denied" in
  FtpUploadFrom (String.list_byte_of_string "<order/>") (Str "order.xml")
    (Threw refusal) ∈ trace (fst run) ∧
  snd run = Returned (Response 500
                        (ErrorBody "FTP upload failed: 550 Permission denied")) ∧
  (∀ paths r, Remove paths r ∉ trace (fst run)).
Proof.
  intros req run refusal.
  assert (FtpUploadFrom (String.list_byte_of_string "<order/>") (Str "order.xml")
            (Threw refusal) ∈ trace (fst run)) as Hin.
  { apply list_elem_of_In. vm_compute. tauto. }
  split; [exact Hin|].
  destruct (failed_upload_fails_delivery platform refusing_sidecar req (fst run)
              (snd run)) as [Hfail _]; [vm_compute; reflexivity|].
  destruct (Hfail _ _ _ Hin) as (_ & Hres & Hremove).
  split; [|exact Hremove]. rewrite Hres. reflexivity.
Defined.

Lemma returned_cleanup_error_not_warned_witness :
  let req := upload_request both Undefined Undefined in
  let run := Service.post_merge_and_upload platform req (start failing_cleanup) in
  Remove [Str "a.pdf"; Str "b.pdf"]
    (Returned (Some "new row violates row-level security policy"))
  ∈ trace (fst run) ∧
  (∀ label text, ConsoleWarn label text ∉ trace (fst run)) ∧
  snd run = Returned (Response 200 (DeliveredBody 5 5 true (Str "out.pdf") Null)).
Proof.
  intros req run.
  assert (Remove [Str "a.pdf"; Str "b.pdf"]
            (Returned (Some "new row violates row-level security policy"))
          ∈ trace (fst run)) as Hin.
  { apply list_elem_of_In. vm_compute. tauto. }
  split; [exact Hin|].
  destruct (returned_cleanup_error_not_warned platform failing_cleanup req (fst run)
              (snd run) _ _ ltac:(vm_compute; reflexivity) Hin) as [Hquiet _].
  split; [exact Hquiet|]. vm_compute. reflexivity.
Defined.

Lemma sidecar_follows_pdf_witness :
  let req := upload_request both (Str "<order/>") (Str "order.xml") in
  let run := Service.post_merge_and_upload platform req (start two_batches) in
  snd run = Returned (Response 200
                        (DeliveredBody 5 5 true (Str "out.pdf") (Str "order.xml"))) ∧
  ∃ before a r xml,
    trace (fst run) =
      before ++ [pdf_event a (Str "out.pdf") (Returned ());
                 xml_event (Str "order.xml") xml (Returned ()); FtpClose]
      ++ cleanup_events [Str "a.pdf"; Str "b.pdf"] r.
Proof.
  intros req run.
  assert (snd run = Returned (Response 200
            (DeliveredBody 5 5 true (Str "out.pdf") (Str "order.xml")))) as Hres
    by (vm_compute; reflexivity).
  split; [exact Hres|].
  destruct (sidecar_follows_pdf platform two_batches req (fst run)
              (DeliveredBody 5 5 true (Str "out.pdf") (Str "order.xml")))
    as (before & a & r & _ & xml & _ & Htr & _); [vm_compute; reflexivity|].
  exists before, a, r, xml. exact Htr.
Defined.

Lemma stored_at_destination_witness :
  let req := merge_request both in
  let raw p := if is_str p (Str "a.pdf") then [x01; x02; x03] else [x04; x05] in
  let zeros := [x00; x00; x00; x00; x00] in
  let first := post_merge_of platform index_js req (start two_batches) in
  let stored := world (fst first) in
  let again := post_merge_of platform index_js req (start stored) in
  (bucket stored !! "temp/42/merged_A4.pdf" = Some zeros ∧
   merge_rejection platform index_js req = None ∧
   cooperative platform index_js (λ w, w = stored)
     (elements (assoc "storagePaths" (body req))) raw raw zeros) ∧
  snd again = Returned (Response 200 (MergedBody "temp/42/merged_A4.pdf" 5 5)) ∧
  ∃ tr_m,
    trace (fst again)
    = tr_m ++ [Upload "temp/42/merged_A4.pdf" zeros true (Returned None)].
Proof.
  intros req raw zeros first stored again.
  assert (cooperative platform index_js (λ w, w = stored)
            (elements (assoc "storagePaths" (body req))) raw raw zeros) as Hcoop.
  { split_and!.
    - intros p w [->|[->|[]%elem_of_nil]%elem_of_cons]%elem_of_cons ->;
        exists stored; (split; [vm_compute; reflexivity|reflexivity]).
    - by intros p [->|[->|[]%elem_of_nil]%elem_of_cons]%elem_of_cons.
    - by intros p [->|[->|[]%elem_of_nil]%elem_of_cons]%elem_of_cons; eexists.
    - reflexivity. }
  assert (merge_rejection platform index_js req = None) as Hpass
    by (vm_compute; reflexivity).
  split; [split_and!; [vm_compute; reflexivity|exact Hpass|exact Hcoop]|].
  destruct (stored_at_destination platform index_js stored req) as [_ Hstores].
  destruct (Hstores (λ w, w = stored) raw raw zeros "42" "A4" Hpass
              eq_refl eq_refl eq_refl eq_refl Hcoop)
    as (s' & tr_m & Hrun & Htr).
  { intros w' ->. eexists. vm_compute. reflexivity. }
  split.
  - exact (f_equal snd Hrun).
  - exists tr_m. exact (eq_trans (f_equal (λ x, trace (fst x)) Hrun) Htr).
Defined.


(** The same two batches through [index.js]: every buffer is zero-filled
    right after its batch has been parsed, and what is serialized is the
    five pages as they read through the zeros. *)
Example index_js_output_is_wiped :
  snd (merge_of platform index_js [Str "a.pdf"; Str "b.pdf"] (start two_batches))
  = Returned (Artifact [x00; x00; x00; x00; x00] 5) ∧
  snd (merge_of platform service_js [Str "a.pdf"; Str "b.pdf"] (start two_batches))
  = Returned (Artifact [x01; x02; x03; x04; x05] 5).
Proof. split; vm_compute; reflexivity. Qed.

(** C7, as it is stated, fails: sidecar content without a sidecar filename
    is not uploaded, and the delivery answers 200 with [null] for it. *)
Lemma sidecar_without_filename_counterexample :
  ¬ sidecar_delivered_when_supplied platform two_batches
      (upload_request both (Str "<order/>") Undefined).
Proof.
  intros Hclaim.
  destruct (Hclaim
              (fst (Service.post_merge_and_upload platform
                      (upload_request both (Str "<order/>") Undefined)
                      (start two_batches)))
              5 5 true (Str "out.pdf") Null) as [Hflag _].
  - vm_compute. reflexivity.
  - vm_compute. discriminate.
  - vm_compute in Hflag. discriminate.
Qed.

(** ** The further properties at work on the concrete platform *)

Import Cases.

Lemma incomplete_ftp_config_rejected_witness :
  presents_secret platform (delivery_request without_password (Str "out.pdf")) ∧
  truthy (get (assoc "ftp" (body (delivery_request without_password (Str "out.pdf"))))
            "password") = false ∧
  Service.post_merge_and_upload platform
    (delivery_request without_password (Str "out.pdf")) (start two_batches)
  = (start two_batches,
     Returned (Response 400
                 (ErrorBody "ftp config (host, user, password) is required"))).
Proof.
  assert (presents_secret platform
            (delivery_request without_password (Str "out.pdf"))) as Hsecret
    by (exists "s3cret"; split_and!; [reflexivity|discriminate|reflexivity]).
  split; [exact Hsecret|]. split; [reflexivity|].
  apply (incomplete_ftp_config_rejected platform two_batches
           (delivery_request without_password (Str "out.pdf"))
           (Str "a.pdf") [Str "b.pdf"] "password" Hsecret eq_refl).
  - apply (list_elem_of_lookup_2 _ 2). reflexivity.
  - reflexivity.
Defined.

Lemma missing_pdf_filename_rejected_witness :
  presents_secret platform (delivery_request working_ftp (Str "")) ∧
  truthy (assoc "pdfFilename" (body (delivery_request working_ftp (Str ""))))
  = false ∧
  Service.post_merge_and_upload platform
    (delivery_request working_ftp (Str "")) (start two_batches)
  = (start two_batches, Returned (Response 400 (ErrorBody "pdfFilename is required"))).
Proof.
  assert (presents_secret platform (delivery_request working_ftp (Str "")))
    as Hsecret
    by (exists "s3cret"; split_and!; [reflexivity|discriminate|reflexivity]).
  split; [exact Hsecret|]. split; [reflexivity|].
  apply (missing_pdf_filename_rejected platform two_batches
           (delivery_request working_ftp (Str ""))
           (Str "a.pdf") [Str "b.pdf"] Hsecret eq_refl); [|reflexivity].
  intros k Hk. rewrite !elem_of_cons, elem_of_nil in Hk.
  destruct Hk as [->|[->|[->|[]]]]; reflexivity.
Defined.

Lemma failed_merge_fails_request_witness :
  createClient platform = Returned () ∧
  (post_merge_of platform service_js (merge_request with_missing_batch)
     (start two_batches)).2
  = Returned (Response 500
                (ErrorBody "Failed to download missing.pdf: Object not found")).
Proof.
  split; [reflexivity|].
  assert (∀ v, v ∈ logged_first false (merge_request with_missing_batch) →
               is_Some (toString v)) as Hlog.
  { intros v Hv. cbn in Hv. rewrite !elem_of_cons, elem_of_nil in Hv.
    destruct Hv as [->|[->|[]]]; eexists; reflexivity. }
  assert (merge_of platform service_js
            (elements (assoc "storagePaths" (body (merge_request with_missing_batch))))
            (start two_batches)
          = ((merge_of platform service_js [Str "a.pdf"; Str "missing.pdf"]
                (start two_batches)).1,
             Threw (Error "Failed to download missing.pdf: Object not found")))
    as Hmerge by (vm_compute; reflexivity).
  exact (f_equal snd
           (proj1 (failed_merge_fails_request platform two_batches
                     (merge_request with_missing_batch) _ _ eq_refl)
              service_js eq_refl Hlog Hmerge)).
Defined.

Lemma failed_fetch_is_reported_witness :
  fetch_failed (Returned not_found) ∧
  (post_merge_of platform service_js (merge_request with_missing_batch)
     (start two_batches)).2
  = Returned (Response 500
                (ErrorBody "Failed to download missing.pdf: Object not found")).
Proof.
  split; [reflexivity|].
  assert (Download (Str "missing.pdf") (Returned not_found)
          ∈ trace (post_merge_of platform service_js
                     (merge_request with_missing_batch) (start two_batches)).1)
    as Hin by (apply (list_elem_of_lookup_2 _ 2); vm_compute; reflexivity).
  exact (proj1 (proj1 (failed_fetch_is_reported platform two_batches
                         (merge_request with_missing_batch) (Str "missing.pdf")
                         "missing.pdf" (Returned not_found) eq_refl eq_refl)
                  service_js Hin)).
Defined.

Lemma unparsable_batch_aborts_witness :
  Load [xff; x00] (Threw (Error "Failed to parse PDF document"))
  ∈ trace (merge_of platform service_js [Str "a.pdf"; Str "bad.pdf"; Str "a.pdf"]
             (start broken_batch)).1 ∧
  (merge_of platform service_js [Str "a.pdf"; Str "bad.pdf"; Str "a.pdf"]
     (start broken_batch)).2
  = Threw (Error "Failed to parse PDF document") ∧
  (fetches (trace (merge_of platform service_js
                     [Str "a.pdf"; Str "bad.pdf"; Str "a.pdf"]
                     (start broken_batch)).1)).*1
  = [Str "a.pdf"; Str "bad.pdf"].
Proof.
  assert (Load [xff; x00] (Threw (Error "Failed to parse PDF document"))
          ∈ trace (merge_of platform service_js
                     [Str "a.pdf"; Str "bad.pdf"; Str "a.pdf"]
                     (start broken_batch)).1)
    as Hin by (apply (list_elem_of_lookup_2 _ 3); vm_compute; reflexivity).
  split; [exact Hin|].
  destruct (unparsable_batch_aborts platform service_js broken_batch
              (Str "a.pdf") [Str "bad.pdf"; Str "a.pdf"] _ _ _ _
              (surjective_pairing _) Hin) as (Hres & _ & _ & _).
  split; [exact Hres|]. vm_compute. reflexivity.
Defined.

Lemma refused_connection_fails_delivery_witness :
  FtpAccess (Str "down") (Str "u") (Str "p") (Threw (Error "connect ECONNREFUSED"))
  ∈ trace (Service.post_merge_and_upload platform
             (delivery_request unreachable_ftp (Str "out.pdf"))
             (start two_batches)).1 ∧
  (Service.post_merge_and_upload platform
     (delivery_request unreachable_ftp (Str "out.pdf")) (start two_batches)).2
  = Returned (Response 500
                (ErrorBody "FTP upload failed: connect ECONNREFUSED")).
Proof.
  assert (FtpAccess (Str "down") (Str "u") (Str "p")
            (Threw (Error "connect ECONNREFUSED"))
          ∈ trace (Service.post_merge_and_upload platform
                     (delivery_request unreachable_ftp (Str "out.pdf"))
                     (start two_batches)).1)
    as Hin by (apply (list_elem_of_lookup_2 _ 5); vm_compute; reflexivity).
  split; [exact Hin|].
  exact (proj2 (proj2 (refused_connection_fails_delivery platform two_batches
                         (delivery_request unreachable_ftp (Str "out.pdf"))
                         _ _ _ _ _ _ (surjective_pairing _) Hin))).
Defined.

Lemma failed_sidecar_leaves_the_pdf_witness :
  FtpUploadFrom [x01; x02; x03; x04; x05] (Str "out.pdf") (Returned ())
  ∈ trace (Service.post_merge_and_upload platform
             (upload_request both (Str "<order/>") (Str "order.xml"))
             (start refusing_sidecar)).1 ∧
  ∃ e, (Service.post_merge_and_upload platform
          (upload_request both (Str "<order/>") (Str "order.xml"))
          (start refusing_sidecar)).2
       = Returned (Response 500
                     (ErrorBody ("FTP upload failed: " +:+ exn_message e))).
Proof.
  assert (FtpUploadFrom [x01; x02; x03; x04; x05] (Str "out.pdf") (Returned ())
          ∈ trace (Service.post_merge_and_upload platform
                     (upload_request both (Str "<order/>") (Str "order.xml"))
                     (start refusing_sidecar)).1)
    as Hin by (apply (list_elem_of_lookup_2 _ 6); vm_compute; reflexivity).
  split; [exact Hin|].
  assert (∀ b, (Service.post_merge_and_upload platform
                  (upload_request both (Str "<order/>") (Str "order.xml"))
                  (start refusing_sidecar)).2
               ≠ Returned (Response 200 b)) as Hnot
    by (intros b H; vm_compute in H; discriminate H).
  destruct (failed_sidecar_leaves_the_pdf platform refusing_sidecar
              (upload_request both (Str "<order/>") (Str "order.xml"))
              _ _ _ _ (surjective_pairing _) Hnot Hin)
    as (before & a & e & failure & _ & _ & _ & _ & _ & _ & Hres).
  exists e. exact Hres.
Defined.

Lemma delivery_sends_the_merged_pages_witness :
  ∃ bs out,
    batch_path <$> bs = [Str "a.pdf"; Str "b.pdf"] ∧
    pdf_save platform (merged_pages bs) = Returned out ∧
    length out = 5.
Proof.
  assert (Service.post_merge_and_upload platform
            (upload_request both Undefined Undefined) (start two_batches)
          = ((Service.post_merge_and_upload platform
                (upload_request both Undefined Undefined) (start two_batches)).1,
             Returned (Response 200
                         (DeliveredBody 5 5 true (Str "out.pdf") Null))))
    as Hrun by (vm_compute; reflexivity).
  destruct (delivery_sends_the_merged_pages platform two_batches
              (upload_request both Undefined Undefined) _ _ Hrun)
    as (bs & out & after & xmlname & Hpaths & _ & Hsave & _ & Hb).
  exists bs, out. split; [exact Hpaths|]. split; [exact Hsave|].
  injection Hb as Hlen _ _. symmetry. exact Hlen.
Defined.

Lemma index_js_serializes_wiped_pages_witness :
  Forall (λ p, is_Some (toString p)) [Str "a.pdf"; Str "b.pdf"] ∧
  let '(s1, r1) := IndexJs.merge_inline platform [Str "a.pdf"; Str "b.pdf"]
                     (start two_batches) in
  let '(s2, r2) := Service.mergeBatches platform [Str "a.pdf"; Str "b.pdf"]
                     (start two_batches) in
  world s1 = world s2 ∧
  ((trace s1 = trace s2 ∧ r1 = r2 ∧ ∀ ps o, Save ps o ∉ trace s2) ∨
   ∃ tr ps,
     (∀ qs o, Save qs o ∉ tr) ∧
     trace s2 = tr ++ [Save ps (pdf_save platform ps)] ∧
     trace s1 = tr ++ [Save (pdf_wiped platform <$> ps)
                         (pdf_save platform (pdf_wiped platform <$> ps))] ∧
     r2 = outcome_map (λ out, Artifact out (length ps)) (pdf_save platform ps) ∧
     r1 = outcome_map (λ out, Artifact out (length ps))
            (pdf_save platform (pdf_wiped platform <$> ps))).
Proof.
  assert (Forall (λ p, is_Some (toString p)) [Str "a.pdf"; Str "b.pdf"])
    as Hprintable by (repeat constructor; eexists; reflexivity).
  split; [exact Hprintable|].
  exact (index_js_serializes_wiped_pages platform two_batches (Str "a.pdf")
           [Str "b.pdf"] Hprintable).
Defined.

Lemma failed_store_is_reported_witness :
  Upload "temp/42/merged_A4.pdf" [x01; x02; x03; x04; x05] true
    (Returned (Some "Bucket is read-only"))
  ∈ trace (post_merge_of read_only service_js (merge_request both)
             (start two_batches)).1 ∧
  (post_merge_of read_only service_js (merge_request both) (start two_batches)).2
  = Returned (Response 500 (ErrorBody "Upload failed: Bucket is read-only")).
Proof.
  assert (Upload "temp/42/merged_A4.pdf" [x01; x02; x03; x04; x05] true
            (Returned (Some "Bucket is read-only"))
          ∈ trace (post_merge_of read_only service_js (merge_request both)
                     (start two_batches)).1)
    as Hin by (apply (list_elem_of_lookup_2 _ 5); vm_compute; reflexivity).
  split; [exact Hin|].
  exact (proj1 (failed_store_is_reported read_only service_js two_batches
                  (merge_request both) _ _ _ _ _ _ (surjective_pairing _) Hin)).
Defined.

Lemma missing_identifiers_share_one_destination_witness :
  assoc "orderId" (body anonymous_request) = Undefined ∧
  assoc "format" (body anonymous_request) = Undefined ∧
  ∃ out, last (trace (post_merge_of platform service_js anonymous_request
                        (start two_batches)).1)
         = Some (Upload "temp/undefined/merged_undefined.pdf" out true
                   (Returned None)).
Proof.
  split; [reflexivity|]. split; [reflexivity|].
  assert (post_merge_of platform service_js anonymous_request (start two_batches)
          = ((post_merge_of platform service_js anonymous_request
                (start two_batches)).1,
             Returned (Response 200
                         (MergedBody "temp/undefined/merged_undefined.pdf" 5 5))))
    as Hrun by (vm_compute; reflexivity).
  destruct (missing_identifiers_share_one_destination platform service_js
              two_batches anonymous_request _ _ eq_refl eq_refl Hrun)
    as (out & size & pages & Hlast & _).
  exists out. exact Hlast.
Defined.
